(** * dbsync: referentially consistent sampling dumps of a PostgreSQL database

    A shallow embedding of [dbsync.py] and the properties of its sampling
    and referential-subsetting engine.

    Layout:
    - [Py]: the pieces of the Python runtime the script leans on (text
      forms of values, [json.dumps], [datetime.isoformat]);
    - the script's constants;
    - the world the script runs in: a heap of [Table] objects, the output
      file, and a read-only database;
    - the methods of [Table], [set_sampled_ids], [get_tables] and [main];
    - the theorems. *)

From Stdlib Require Import ZArith String Ascii List DecimalString Permutation.
From stdpp Require Import base option list strings gmap sorting.

Open Scope string_scope.
Set Warnings "-register-all".
Set Default Proof Using "Type".

(** ** Characters that a Rocq string literal cannot hold directly *)

Definition dq : string := String (ascii_of_nat 34) EmptyString.
Definition nl : string := String (ascii_of_nat 10) EmptyString.
Definition sq : string := "'".
Definition bs : string := "\".

(** ** The Python runtime *)

Module Py.

(** Python strings are modelled as sequences of code points below 256,
    one [ascii] per code point. *)

Definition str_of_Z (z : Z) : string := NilZero.string_of_int (Z.to_int z).
Definition str_of_nat (n : nat) : string := str_of_Z (Z.of_nat n).

(** [s.zfill(w)] for a string of digits *)
Definition zfill (w : nat) (s : string) : string :=
  String.concat EmptyString (repeat "0" (w - String.length s)) +:+ s.

Definition hex_digit (n : nat) : string :=
  match n with
  | 10 => "a" | 11 => "b" | 12 => "c" | 13 => "d" | 14 => "e" | 15 => "f"
  | _ => str_of_nat n
  end.
Definition hex2 (n : nat) : string :=
  hex_digit (n / 16) +:+ hex_digit (n mod 16).

(** ', '.join(l) and friends are [String.concat] *)
Definition join (sep : string) (l : list string) : string :=
  String.concat sep l.

(** *** [datetime.datetime] *)

Record datetime := {
  year : nat; month : nat; day : nat;
  hour : nat; minute : nat; second : nat; microsecond : nat;
  (** [tzinfo]: [None] for a naive value, else a [datetime.timezone] at
      this offset from UTC in minutes, as the driver builds it for a
      timestamp with time zone *)
  utcoffset : option Z
}.

Definition format_offset (off : Z) : string :=
  let a := Z.to_nat (Z.abs off) in
  (if (off <? 0)%Z then "-" else "+")
    +:+ zfill 2 (str_of_nat (a / 60)) +:+ ":" +:+ zfill 2 (str_of_nat (a mod 60)).

(** [d.isoformat(sep)] *)
Definition isoformat_sep (sep : string) (d : datetime) : string :=
  zfill 4 (str_of_nat (year d)) +:+ "-" +:+ zfill 2 (str_of_nat (month d))
    +:+ "-" +:+ zfill 2 (str_of_nat (day d)) +:+ sep
    +:+ zfill 2 (str_of_nat (hour d)) +:+ ":" +:+ zfill 2 (str_of_nat (minute d))
    +:+ ":" +:+ zfill 2 (str_of_nat (second d))
    +:+ (if Nat.eqb (microsecond d) 0 then EmptyString
         else "." +:+ zfill 6 (str_of_nat (microsecond d)))
    +:+ match utcoffset d with
        | None => EmptyString
        | Some off => format_offset off
        end.

Definition isoformat : datetime -> string := isoformat_sep "T".

(** [repr] of the [datetime.timedelta] holding an offset of [off] minutes *)
Definition repr_timedelta (off : Z) : string :=
  let total := (off * 60)%Z in
  let days := (total / 86400)%Z in
  let secs := (total mod 86400)%Z in
  let args :=
    ((if (days =? 0)%Z then [] else ["days=" +:+ str_of_Z days])
       ++ (if (secs =? 0)%Z then [] else ["seconds=" +:+ str_of_Z secs]))%list in
  "datetime.timedelta(" +:+ match args with
                            | [] => "0"
                            | _ => join ", " args
                            end +:+ ")".

Definition repr_timezone (off : Z) : string :=
  if (off =? 0)%Z then "datetime.timezone.utc"
  else "datetime.timezone(" +:+ repr_timedelta off +:+ ")".

Definition repr_datetime (d : datetime) : string :=
  let L := [year d; month d; day d; hour d; minute d] in
  let L :=
    if Nat.eqb (microsecond d) 0
    then (if Nat.eqb (second d) 0 then L else (L ++ [second d])%list)
    else (L ++ [second d; microsecond d])%list in
  "datetime.datetime(" +:+ join ", " (map str_of_nat L)
    +:+ match utcoffset d with
        | None => EmptyString
        | Some off => ", tzinfo=" +:+ repr_timezone off
        end +:+ ")".

(** *** Values a row can hold *)

Inductive pyvalue :=
| PyNone
| PyBool (b : bool)
| PyInt (z : Z)
| PyStr (s : string)
| PyList (l : list pyvalue)
| PyDict (d : list (string * pyvalue))
| PyDatetime (d : datetime).

(** *** [repr] of a string *)

Fixpoint contains (c : ascii) (s : string) : bool :=
  match s with
  | EmptyString => false
  | String c' s' => if Ascii.eqb c c' then true else contains c s'
  end.

(** [str.isprintable] on a code point below 256 *)
Definition isprintable (n : nat) : bool :=
  (Nat.leb 32 n && Nat.ltb n 127) || (Nat.leb 161 n && negb (Nat.eqb n 173)).

Definition repr_char (quote : ascii) (c : ascii) : string :=
  let n := nat_of_ascii c in
  if Ascii.eqb c quote || Ascii.eqb c "\"%char then bs +:+ String c EmptyString
  else if Nat.eqb n 9 then "\t"
  else if Nat.eqb n 10 then "\n"
  else if Nat.eqb n 13 then "\r"
  else if isprintable n then String c EmptyString
  else "\x" +:+ hex2 n.

Fixpoint escape (f : ascii -> string) (s : string) : string :=
  match s with
  | EmptyString => EmptyString
  | String c s' => f c +:+ escape f s'
  end.

Definition repr_str (s : string) : string :=
  let quote : ascii :=
    if contains "'"%char s && negb (contains (ascii_of_nat 34) s)
    then ascii_of_nat 34 else "'"%char in
  String quote EmptyString +:+ escape (repr_char quote) s +:+ String quote EmptyString.

(** *** [repr] and [str] *)

Fixpoint repr (v : pyvalue) : string :=
  match v with
  | PyNone => "None"
  | PyBool b => if b then "True" else "False"
  | PyInt z => str_of_Z z
  | PyStr s => repr_str s
  | PyList l => "[" +:+ join ", " (map repr l) +:+ "]"
  | PyDict d =>
      "{" +:+ join ", " (map (fun kv => repr_str (fst kv) +:+ ": " +:+ repr (snd kv)) d)
        +:+ "}"
  | PyDatetime d => repr_datetime d
  end.

(** [str(v)], which is what ['{}'.format(v)] inserts *)
Definition str (v : pyvalue) : string :=
  match v with
  | PyStr s => s
  | PyDatetime d => isoformat_sep " " d
  | _ => repr v
  end.

(** [str(t)] of a tuple [t]: the [repr] of its elements, with the trailing
    comma of the one-element tuple *)
Definition str_tuple (t : list pyvalue) : string :=
  match t with
  | [] => "()"
  | [v] => "(" +:+ repr v +:+ ",)"
  | _ => "(" +:+ join ", " (map repr t) +:+ ")"
  end.

(** *** [json.dumps] with its default arguments *)

Definition json_char (c : ascii) : string :=
  let n := nat_of_ascii c in
  if Nat.eqb n 34 then bs +:+ dq
  else if Nat.eqb n 92 then "\\"
  else if Nat.eqb n 10 then "\n"
  else if Nat.eqb n 13 then "\r"
  else if Nat.eqb n 9 then "\t"
  else if Nat.eqb n 12 then "\f"
  else if Nat.eqb n 8 then "\b"
  else if Nat.leb 32 n && Nat.leb n 126 then String c EmptyString
  else "\u00" +:+ hex2 n.

Definition json_str (s : string) : string :=
  dq +:+ escape json_char s +:+ dq.

(** all-or-nothing sequencing of fallible renderings *)
Fixpoint sequence {A} (l : list (option A)) : option (list A) :=
  match l with
  | [] => Some []
  | x :: l' =>
      match x, sequence l' with
      | Some a, Some r => Some (a :: r)
      | _, _ => None
      end
  end.

(** [None] stands for the [TypeError] raised on a value that is not JSON
    serializable *)
Fixpoint json_dumps (v : pyvalue) : option string :=
  match v with
  | PyNone => Some "null"
  | PyBool b => Some (if b then "true" else "false")
  | PyInt z => Some (str_of_Z z)
  | PyStr s => Some (json_str s)
  | PyList l =>
      match sequence (map json_dumps l) with
      | Some items => Some ("[" +:+ join ", " items +:+ "]")
      | None => None
      end
  | PyDict d =>
      match sequence (map (fun kv =>
                             match json_dumps (snd kv) with
                             | Some s => Some (json_str (fst kv) +:+ ": " +:+ s)
                             | None => None
                             end) d) with
      | Some items => Some ("{" +:+ join ", " items +:+ "}")
      | None => None
      end
  | PyDatetime _ => None
  end.

End Py.

Import Py.

(** ** Constants of the script *)

(** [BEGIN_DUMP.format(dbname=dbname)] *)
Definition BEGIN_DUMP (dbname : string) : string :=
  "
--
-- PostgreSQL database dump
--

\connect " +:+ dbname +:+ "
\set AUTOCOMMIT off

BEGIN;

SET statement_timeout = 0;
SET lock_timeout = 0;
SET client_encoding = 'UTF8';
SET standard_conforming_strings = on;
SET check_function_bodies = false;
SET client_min_messages = warning;

SET search_path = public, pg_catalog;
".

Definition END_DUMP : string :=
  "
COMMIT;

--
-- PostgreSQL database dump complete
--
".

(** [BEGIN_TABLE_DUMP.format(table=table, columns=columns)] *)
Definition BEGIN_TABLE_DUMP (table columns : string) : string :=
  "
--
-- Data for Name: " +:+ table +:+ "; Type: TABLE DATA
--

COPY public." +:+ dq +:+ table +:+ dq +:+ " (" +:+ columns +:+ ") FROM STDIN;
".

Definition END_TABLE_DUMP : string := "\." +:+ nl.

(** ** Exceptions and results *)

Inductive exn :=
| IndexError
| TypeError
| AttributeError
| RuntimeError (msg : string)
| DatabaseError          (* psycopg2.Error: a query the server refuses *)
| CalledProcessError.    (* the schema-only pg_dump | psql pipeline fails *)

Inductive result (A : Type) :=
| Ok (a : A)
| Raise (e : exn).
Arguments Ok {A} a.
Arguments Raise {A} e.

(** I/O errors come from the database or the schema pipeline; the others
    are raised by the script's own logic. *)
Definition is_io_error (e : exn) : bool :=
  match e with
  | DatabaseError | CalledProcessError => true
  | _ => false
  end.

(** ** The database, as the script sees it through its cursor *)

Abbreviation row := (list pyvalue).

Record Database := {
  (** [pgcon.get_dsn_parameters()['dbname']] *)
  dbname : string;
  (** whether [sync_schema] exits with status zero *)
  schema_synced : bool;
  (** the base tables of schema [public], in the order [LIST_TABLES_SQL]
      lists them before its [NOT IN] filter *)
  base_tables : list string;
  (** [GET_COLUMNS_SQL]: (colname, coltype) by attnum; [None] when the
      [regclass] cast fails *)
  columns_of : string -> option (list (string * string));
  (** [GET_FK_CONSTRAINTS_SQL]: (conname, condef) *)
  fks_of : string -> option (list (string * string));
  (** the rows of a table, every column, in the order an unordered SELECT
      enumerates them *)
  rows_of : string -> option (list row);
  (** [copy_expert]: the payload the server streams for a COPY statement *)
  copy_out : string -> option string
}.

(** ** Objects *)

Module FkConstraint.
Record t := { table : string; name : string; condef : string }.

Definition drop (self : t) : string :=
  "ALTER TABLE ONLY public." +:+ dq +:+ table self +:+ dq
    +:+ " DROP CONSTRAINT IF EXISTS " +:+ name self +:+ ";" +:+ nl.

Definition create (self : t) : string :=
  "ALTER TABLE ONLY public." +:+ dq +:+ table self +:+ dq
    +:+ " ADD CONSTRAINT " +:+ name self +:+ " " +:+ condef self +:+ ";" +:+ nl.
End FkConstraint.

(** A [Table] object.  [_foreign_tables] is a dict; its insertion order is
    the order [items()] yields, so it is kept as an association list. *)
Record Table := {
  name : string;
  limit : option nat;
  ids : option (list pyvalue);
  _foreign_tables : list (string * list pyvalue);
  _columns : option (list string);
  _coltypes : option (list string);
  _foreign_keys : option (list FkConstraint.t);
  _ididx : option nat
}.

(** [Table(name, cursor, limit)] *)
Definition Table__init__ (name : string) (limit : option nat) : Table :=
  {| name := name; limit := limit; ids := None; _foreign_tables := [];
     _columns := None; _coltypes := None; _foreign_keys := None; _ididx := None |}.

#[global] Instance Table_inhabited : Inhabited Table :=
  populate (Table__init__ EmptyString None).

(** attribute stores *)
Definition set_ids (v : option (list pyvalue)) (t : Table) : Table :=
  {| name := name t; limit := limit t; ids := v;
     _foreign_tables := _foreign_tables t; _columns := _columns t;
     _coltypes := _coltypes t; _foreign_keys := _foreign_keys t; _ididx := _ididx t |}.
Definition set_foreign_tables (v : list (string * list pyvalue)) (t : Table) : Table :=
  {| name := name t; limit := limit t; ids := ids t;
     _foreign_tables := v; _columns := _columns t;
     _coltypes := _coltypes t; _foreign_keys := _foreign_keys t; _ididx := _ididx t |}.
Definition set_columns (c ct : option (list string)) (t : Table) : Table :=
  {| name := name t; limit := limit t; ids := ids t;
     _foreign_tables := _foreign_tables t; _columns := c;
     _coltypes := ct; _foreign_keys := _foreign_keys t; _ididx := _ididx t |}.
Definition set_foreign_keys (v : option (list FkConstraint.t)) (t : Table) : Table :=
  {| name := name t; limit := limit t; ids := ids t;
     _foreign_tables := _foreign_tables t; _columns := _columns t;
     _coltypes := _coltypes t; _foreign_keys := v; _ididx := _ididx t |}.
Definition set_ididx (v : option nat) (t : Table) : Table :=
  {| name := name t; limit := limit t; ids := ids t;
     _foreign_tables := _foreign_tables t; _columns := _columns t;
     _coltypes := _coltypes t; _foreign_keys := _foreign_keys t; _ididx := v |}.

(** ** The world: heap, output file, phase log *)

(** Phase markers.  They are ghost state: each is logged by the routine it
    names, as that routine's first step and before anything the routine
    writes, and nothing reads the log.  Execution is sequential, so what a
    routine writes to the output file lies between its own marker and the
    next one. *)
Inductive event :=
| EvDropFks (self : nat)     (* drop_foreign_key_constraints *)
| EvInsert (self : nat)      (* _select_and_insert: a sampled dump *)
| EvFilter                   (* set_sampled_ids *)
| EvCopy (self : nat)        (* _copy: a full dump *)
| EvCreateFks (self : nat).  (* create_foreign_key_constraints *)

Record World := {
  heap : gmap nat Table;   (* objects by address *)
  next : nat;              (* next free address *)
  outfile : list string;   (* the arguments of outfile.write, oldest first *)
  trace : list event
}.

Definition init_world : World :=
  {| heap := ∅; next := 0; outfile := []; trace := [] |}.

(** ** A state and exception monad *)

Definition M (A : Type) : Type := World -> result A * World.

Definition ret {A} (a : A) : M A := fun w => (Ok a, w).
Definition raise {A} (e : exn) : M A := fun w => (Raise e, w).
Definition bind {A B} (m : M A) (k : A -> M B) : M B :=
  fun w => match m w with
           | (Ok a, w') => k a w'
           | (Raise e, w') => (Raise e, w')
           end.

Notation "'let*' x := m 'in' k" := (bind m (fun x => k))
  (at level 10, x name, m at level 100, k at level 200, only parsing).
Notation "m ;; k" := (bind m (fun _ => k))
  (at level 100, k at level 200, right associativity, only parsing).

Definition lift {A} (r : result A) : M A := fun w => (r, w).

(** [for x in l: body x] *)
Fixpoint for_each {A} (l : list A) (body : A -> M unit) : M unit :=
  match l with
  | [] => ret tt
  | x :: l' => body x ;; for_each l' body
  end.

Definition getT (self : nat) : M Table := fun w => (Ok (heap w !!! self), w).
Definition setattr (self : nat) (f : Table -> Table) : M unit :=
  fun w => (Ok tt, {| heap := <[self := f (heap w !!! self)]> (heap w);
                      next := next w; outfile := outfile w; trace := trace w |}).
Definition new (t : Table) : M nat :=
  fun w => (Ok (next w), {| heap := <[next w := t]> (heap w);
                            next := S (next w); outfile := outfile w; trace := trace w |}).
Definition write (s : string) : M unit :=
  fun w => (Ok tt, {| heap := heap w; next := next w;
                      outfile := outfile w ++ [s]; trace := trace w |}).
Definition mark (e : event) : M unit :=
  fun w => (Ok tt, {| heap := heap w; next := next w;
                      outfile := outfile w; trace := trace w ++ [e] |}).

(** [seq[i]] for a list or tuple and a non-negative index *)
Definition subscript {A} (l : list A) (i : nat) : result A :=
  match l !! i with
  | Some x => Ok x
  | None => Raise IndexError
  end.

(** ** Configuration read from the environment *)

Record Config := {
  (** the row count that the server reads after LIMIT in a sampled SELECT
      (the environment gives its text, the default is 10000) *)
  ROW_LIMIT : nat;
  (** the two sets of names, each in its iteration order *)
  SAMPLED_TABLES : list string;
  SKIPPED_TABLES : list string
}.

(** ** The script *)

Section Script.

Variable db : Database.

(** The order in which a freshly built set of [Table] objects (hashed by
    address) is iterated. *)
Variable set_iter : list nat -> list nat.

(** *** The cursor *)

Definition answer {A} (o : option A) : M A :=
  lift (match o with Some a => Ok a | None => Raise DatabaseError end).

(** [LIST_TABLES_SQL] with [(dbname, excluded)], [dbname] being the
    catalog of the connection: an empty tuple is adapted to [()], which the
    server refuses after [NOT IN]. *)
Definition cursor_list_tables (excluded : list string) : M (list string) :=
  match excluded with
  | [] => raise DatabaseError
  | _ => ret (filter (fun t => t ∉ excluded) (base_tables db))
  end.

(** SELECT columns FROM public.table LIMIT limit, where the column list is
    the table's own in catalog order, as [dump] passes it: at most [limit]
    rows, the first the server enumerates.  A missing limit is formatted as
    [None], which is not a row count. *)
Definition cursor_select (table : string) (limit : option nat) : M (list row) :=
  match limit with
  | None => raise DatabaseError
  | Some n => let* rows := answer (rows_of db table) in ret (take n rows)
  end.

(** *** Properties of [Table] *)

Definition columns (self : nat) : M (list string) :=
  let* t := getT self in
  match _columns t with
  | None =>
      let* rows := answer (columns_of db (name t)) in
      setattr self (set_columns (Some (map fst rows)) (Some (map snd rows))) ;;
      ret (map fst rows)
  | Some c => ret c
  end.

Definition foreign_key_constraints (self : nat) : M (list FkConstraint.t) :=
  let* t := getT self in
  match _foreign_keys t with
  | None =>
      let* rows := answer (fks_of db (name t)) in
      let fks := map (fun r => {| FkConstraint.table := name t;
                                  FkConstraint.name := fst r;
                                  FkConstraint.condef := snd r |}) rows in
      setattr self (set_foreign_keys (Some fks)) ;;
      ret fks
  | Some fks => ret fks
  end.

(** the loop of [ididx], started with [_ididx = i]: the value of
    [_ididx] when the loop returns or runs out of columns *)
Fixpoint scan_id (cols : list string) (i : nat) : nat :=
  match cols with
  | [] => i
  | c :: cols' => if String.eqb c "id" then i else scan_id cols' (S i)
  end.

Definition ididx (self : nat) : M nat :=
  let* t := getT self in
  match _ididx t with
  | None =>
      setattr self (set_ididx (Some 0)) ;;
      let* cols := columns self in
      setattr self (set_ididx (Some (scan_id cols 0))) ;;
      ret (scan_id cols 0)
  | Some i => ret i
  end.

(** *** Rendering values *)

Definition startswith (s p : string) : bool := String.prefix p s.

(** [fmtstr.format(value)] for the two format strings in use *)
Inductive fmt := Plain | Quoted.
Definition format (f : fmt) (v : pyvalue) : string :=
  match f with
  | Plain => str v
  | Quoted => "'" +:+ str v +:+ "'"
  end.

Definition _stringify_value (self : Table) (value : pyvalue) (colidx : nat)
  : result string :=
  match value with
  | PyNone => Ok "NULL"
  | _ =>
      match _coltypes self with
      | None => Raise TypeError
      | Some coltypes =>
          match subscript coltypes colidx with
          | Raise e => Raise e
          | Ok coltype =>
              let fmtstr := Plain in
              let step1 : result (fmt * pyvalue) :=
                if startswith coltype "character" || startswith coltype "geography"
                   || startswith coltype "json"
                then
                  if startswith coltype "json"
                  then match json_dumps value with
                       | Some s => Ok (Quoted, PyStr s)
                       | None => Raise TypeError
                       end
                  else Ok (Quoted, value)
                else Ok (fmtstr, value) in
              match step1 with
              | Raise e => Raise e
              | Ok (fmtstr, value) =>
                  if startswith coltype "timestamp"
                  then match value with
                       | PyDatetime d => Ok (format Quoted (PyStr (isoformat d)))
                       | _ => Raise AttributeError
                       end
                  else Ok (format fmtstr value)
              end
          end
      end
  end.

(** the list comprehension of [_mogrify_row], from column [i] on *)
Fixpoint stringify_from (self : Table) (i : nat) (row : row) : result (list string) :=
  match row with
  | [] => Ok []
  | v :: row' =>
      match _stringify_value self v i with
      | Raise e => Raise e
      | Ok s => match stringify_from self (S i) row' with
                | Raise e => Raise e
                | Ok l => Ok (s :: l)
                end
      end
  end.

Definition _mogrify_row (self : Table) (row : row) : result string :=
  match stringify_from self 0 row with
  | Raise e => Raise e
  | Ok strrow => Ok ("(" +:+ join "," strrow +:+ ")")
  end.

(** *** Restrictions *)

Definition add_foreign_table (self : nat) (name : string)
    (ids : option (list pyvalue)) : M unit :=
  let* t := getT self in
  if bool_decide (name ∈ (_foreign_tables t).*1)
  then raise (RuntimeError "no bueno")
  else
    match ids with
    | None => raise TypeError          (* tuple(None) *)
    | Some ids =>
        setattr self (fun t => set_foreign_tables (_foreign_tables t ++ [(name, ids)])%list t)
    end.

Definition _build_where_clause (self : Table) : string :=
  let where_ := map (fun kv => fst kv +:+ "_id in " +:+ str_tuple (snd kv))
                    (_foreign_tables self) in
  if Nat.ltb 0 (length where_) then "WHERE " +:+ join " AND " where_ else EmptyString.

(** *** Dumping *)

Definition _copy (self : nat) (columns : string) : M unit :=
  mark (EvCopy self) ;;
  let* t := getT self in
  write (BEGIN_TABLE_DUMP (name t) columns) ;;
  let* t := getT self in
  let sql := "COPY (SELECT " +:+ columns +:+ " FROM public." +:+ dq +:+ name t +:+ dq
               +:+ " " +:+ _build_where_clause t +:+ ") TO STDOUT" in
  let* payload := answer (copy_out db sql) in
  write payload ;;
  write END_TABLE_DUMP.

(** the loop of [_select_and_insert] over the rows the cursor holds.
    [dump] has read [columns] before the SELECT is executed, so the reads of
    [ididx] and [columns] inside the loop are answered from the caches and
    the cursor keeps its result set.  On an object whose columns are not
    cached the catalog query made inside [ididx] would replace that result
    set; [dump] never runs the loop in that state. *)
Fixpoint insert_rows (self : nat) (rowcount : nat) (rows : list row)
    (rows_written : nat) (ids : list pyvalue) : M (list pyvalue) :=
  match rows with
  | [] => ret ids
  | row :: rows' =>
      let* i := ididx self in
      let* v := lift (subscript row i) in
      let ids := (ids ++ [v])%list in
      let* t := getT self in
      let* s := lift (_mogrify_row t row) in
      write s ;;
      write (if Nat.eqb rows_written rowcount then ";" +:+ nl else "," +:+ nl) ;;
      insert_rows self rowcount rows' (S rows_written) ids
  end.

Definition _select_and_insert (self : nat) (columns : string) : M (list pyvalue) :=
  mark (EvInsert self) ;;
  let* t := getT self in
  write ("INSERT INTO " +:+ name t +:+ " (" +:+ columns +:+ ") VALUES " +:+ nl) ;;
  let* t := getT self in
  let* rows := cursor_select (name t) (limit t) in
  let* ids := insert_rows self (length rows) rows 1 [] in
  write nl ;;
  ret ids.

Definition dump (self : nat) : M unit :=
  let* cols := columns self in
  let columns := join "," (map (fun c => dq +:+ c +:+ dq) cols) in
  let* t := getT self in
  match limit t with
  | None => _copy self columns
  | Some _ =>
      let* ids := _select_and_insert self columns in
      setattr self (set_ids (Some ids))
  end.

(** *** Constraints *)

Definition drop_foreign_key_constraints (self : nat) : M unit :=
  mark (EvDropFks self) ;;
  let* fks := foreign_key_constraints self in
  for_each fks (fun fk => write (FkConstraint.drop fk)) ;;
  write nl.

Definition create_foreign_key_constraints (self : nat) : M unit :=
  mark (EvCreateFks self) ;;
  let* fks := foreign_key_constraints self in
  for_each fks (fun fk => write (FkConstraint.create fk)) ;;
  write nl.

(** *** The referential filter *)

Definition set_sampled_ids (sampled_tables full_tables : list nat) : M unit :=
  mark EvFilter ;;
  for_each sampled_tables (fun sampled_table =>
    let* s := getT sampled_table in
    let fkey_colname := name s +:+ "_id" in
    for_each full_tables (fun t =>
      let* cols := columns t in
      if bool_decide (fkey_colname ∈ cols)
      then let* s := getT sampled_table in add_foreign_table t (name s) (ids s)
      else ret tt)).

(** *** Discovery and the orchestrator *)

Fixpoint new_each (l : list Table) : M (list nat) :=
  match l with
  | [] => ret []
  | t :: l' => let* r := new t in let* rs := new_each l' in ret (r :: rs)
  end.

Definition get_tables (sampled_tables : list string) (row_limit : nat)
    (skipped_tables : list string) : M (list nat * list nat) :=
  let skipped_tables :=
    match list_union skipped_tables sampled_tables with
    | [] => sampled_tables
    | u => u
    end in
  let* rows := cursor_list_tables skipped_tables in
  let* tables := new_each (map (fun t => Table__init__ t None) rows) in
  let* sampled_tables :=
    new_each (map (fun t => Table__init__ t (Some row_limit)) sampled_tables) in
  ret (set_iter tables, set_iter sampled_tables).

Definition sync_schema : M unit :=
  if schema_synced db then ret tt else raise CalledProcessError.

Definition main (cfg : Config) : M unit :=
  sync_schema ;;
  write (BEGIN_DUMP (dbname db)) ;;
  let* p := get_tables (SAMPLED_TABLES cfg) (ROW_LIMIT cfg) (SKIPPED_TABLES cfg) in
  let full_tables := fst p in
  let sampled_tables := snd p in
  let tables := set_iter (full_tables ++ sampled_tables)%list in
  for_each tables drop_foreign_key_constraints ;;
  for_each sampled_tables dump ;;
  set_sampled_ids sampled_tables full_tables ;;
  for_each full_tables dump ;;
  for_each tables create_foreign_key_constraints ;;
  write END_DUMP.

End Script.

(** ** Vocabulary of the statements *)

(** *** Reading objects *)

(** [d.get(k)] on a dict kept as an association list *)
Fixpoint dict_get {V} (k : string) (d : list (string * V)) : option V :=
  match d with
  | [] => None
  | (k', v) :: d' => if String.eqb k k' then Some v else dict_get k d'
  end.

(** What the property [columns] yields for a table object: the cache if it
    is filled, else the catalog's answer. *)
Definition columns_view (db : Database) (t : Table) : result (list string) :=
  match _columns t with
  | Some c => Ok c
  | None => match columns_of db (name t) with
            | Some rows => Ok (map fst rows)
            | None => Raise DatabaseError
            end
  end.

(** the world after an attribute store *)
Definition poke (self : nat) (f : Table -> Table) (w : World) : World :=
  {| heap := <[self := f (heap w !!! self)]> (heap w);
     next := next w; outfile := outfile w; trace := trace w |}.

(** the position [ididx] settles on, given the column list and the cache *)
Definition ididx_view (cols : list string) (t : Table) : nat :=
  match _ididx t with
  | Some i => i
  | None => scan_id cols 0
  end.

(** *** The text of a dump *)

(** the header line of a sampled dump *)
Definition insert_header (table columns : string) : string :=
  "INSERT INTO " +:+ table +:+ " (" +:+ columns +:+ ") VALUES " +:+ nl.

(** the quoted, comma-separated column list that [dump] builds *)
Definition column_list (cols : list string) : string :=
  join "," (map (fun c => dq +:+ c +:+ dq) cols).

(** The writes that follow the INSERT header for the rendered tuples
    [tuples], the [k]-th of [count] being written now (counted from 1). *)
Fixpoint values_block (count k : nat) (tuples : list string) : list string :=
  match tuples with
  | [] => []
  | s :: rest =>
      s :: (if Nat.eqb k count then ";" +:+ nl else "," +:+ nl)
        :: values_block count (S k) rest
  end.

(** One clause of a restriction predicate as [_build_where_clause] writes it *)
Definition where_item (kv : string * list pyvalue) : string :=
  fst kv +:+ "_id in " +:+ str_tuple (snd kv).

(** The predicate in the words of the design document: a conjunction of
    clauses, each the quoted foreign-key column, [IN], and the ids in
    parentheses separated by commas. *)
Definition documented_where_item (kv : string * list pyvalue) : string :=
  dq +:+ fst kv +:+ "_id" +:+ dq +:+ " IN (" +:+ join ", " (map repr (snd kv)) +:+ ")".
Definition documented_where_clause (self : Table) : string :=
  match _foreign_tables self with
  | [] => EmptyString
  | d => "WHERE " +:+ join " AND " (map documented_where_item d)
  end.

(** *** The referential filter *)

(** what no routine run after discovery changes about an object, as far as
    the filter is concerned *)
Definition preserved (db : Database) (w w' : World) : Prop :=
  forall x,
    name (heap w' !!! x) = name (heap w !!! x)
    /\ ids (heap w' !!! x) = ids (heap w !!! x)
    /\ limit (heap w' !!! x) = limit (heap w !!! x)
    /\ columns_view db (heap w' !!! x) = columns_view db (heap w !!! x).

(** the entry that one sampled table, named [n] with ids [v], adds to the
    restrictions of the table object [t] *)
Definition attachment (db : Database) (n : string) (v : list pyvalue) (t : Table)
  : list (string * list pyvalue) :=
  match columns_view db t with
  | Ok cols => if bool_decide (n +:+ "_id" ∈ cols) then [(n, v)] else []
  | Raise _ => []
  end.

(** the inner loop of [set_sampled_ids] for the sampled object [s] *)
Definition attach_to (db : Database) (s : nat) (fkey_colname : string) (t : nat) : M unit :=
  let* cols := columns db t in
  if bool_decide (fkey_colname ∈ cols)
  then let* s' := getT s in add_foreign_table t (name s') (ids s')
  else ret tt.

(** the entries that the sampled objects [sampled], as the world [w] has
    them, add to the restrictions of the table object [t], in order *)
Definition attachments (db : Database) (w : World) (sampled : list nat) (t : Table)
  : list (string * list pyvalue) :=
  flat_map (fun s => attachment db (name (heap w !!! s))
                                (default [] (ids (heap w !!! s))) t) sampled.

(** *** The phases of a run *)

(** what identifies an object for the orchestrator: its name and whether
    it is sampled *)
Definition kind (w : World) (x : nat) : string * option nat :=
  (name (heap w !!! x), limit (heap w !!! x)).

(** [logs K m evs]: from a world whose objects have the kinds [K], the
    computation [m] appends [evs] to the phase log when it returns and a
    prefix of [evs] when it raises, and changes no kind. *)
Definition logs {A} (K : nat -> string * option nat) (m : M A) (evs : list event) : Prop :=
  forall w, (forall x, kind w x = K x) ->
    (forall x, kind (snd (m w)) x = K x)
    /\ exists l, trace (snd (m w)) = (trace w ++ l)%list
                 /\ match fst (m w) with
                    | Ok _ => l = evs
                    | Raise _ => l `prefix_of` evs
                    end.

(** [quiet m]: the computation [m] writes nothing *)
Definition quiet {A} (m : M A) : Prop :=
  forall w, outfile (snd (m w)) = outfile w.


(** the phase log of a complete run over the given iteration orders *)
Definition plan (tables sampled full : list nat) : list event :=
  (map EvDropFks tables ++ map EvInsert sampled ++ [EvFilter]
     ++ map EvCopy full ++ map EvCreateFks tables)%list.

(** the rank of a marker in the order of the phases *)
Definition phase (e : event) : nat :=
  match e with
  | EvDropFks _ => 0
  | EvInsert _ => 1
  | EvFilter => 2
  | EvCopy _ => 3
  | EvCreateFks _ => 4
  end.

#[global] Instance event_eq_dec : EqDecision event.
Proof. solve_decision. Defined.


(** *** A small database to run the script on *)

Module Demo.

Definition users_rows : list row :=
  [[PyInt 1; PyStr "a"]; [PyInt 2; PyStr "b"]; [PyInt 3; PyStr "c"]].

Definition logs_rows : list row :=
  [[PyDatetime {| year := 2020; month := 1; day := 2; hour := 3; minute := 4;
                  second := 5; microsecond := 0; utcoffset := None |};
    PyStr "boot"]].

Definition db : Database :=
  {| dbname := "prod"; schema_synced := true;
     base_tables := ["users"; "orders"; "logs"];
     columns_of := fun t =>
       if String.eqb t "users" then Some [("id", "int"); ("name", "text")]
       else if String.eqb t "orders" then Some [("id", "int"); ("users_id", "int")]
       else if String.eqb t "logs" then Some [("at", "timestamp without time zone");
                                              ("msg", "character varying(20)")]
       else None;
     fks_of := fun t =>
       if String.eqb t "orders"
       then Some [("orders_users_fk", "FOREIGN KEY (users_id) REFERENCES users(id)")]
       else Some [];
     rows_of := fun t =>
       if String.eqb t "users" then Some users_rows
       else if String.eqb t "logs" then Some logs_rows
       else if String.eqb t "orders" then Some []
       else None;
     copy_out := fun sql => Some ("-- rows of: " +:+ sql +:+ nl) |}.

Definition cfg : Config :=
  {| ROW_LIMIT := 2; SAMPLED_TABLES := ["users"]; SKIPPED_TABLES := ["audit"] |}.

(** a world holding one table object at address 0 *)
Definition world_of (t : Table) : World :=
  {| heap := {[ 0 := t ]}; next := 1; outfile := []; trace := [] |}.

Definition users : Table := Table__init__ "users" (Some 2).
Definition logs : Table := Table__init__ "logs" (Some 5).
Definition orders : Table := Table__init__ "orders" None.

End Demo.

Module DemoFilter.

(** the heap as the sampled dump of users leaves it: users at address 2
    with its two ids captured, the full tables orders and logs untouched *)
Definition w : World :=
  {| heap := {[ 0 := Demo.orders; 1 := Table__init__ "logs" None;
                2 := set_ids (Some [PyInt 1; PyInt 2]) Demo.users ]};
     next := 3; outfile := []; trace := [] |}.

End DemoFilter.

(** *** Further vocabulary *)

(** the statement a full dump sends to [copy_expert] *)
Definition copy_sql (table columns where_ : string) : string :=
  "COPY (SELECT " +:+ columns +:+ " FROM public." +:+ dq +:+ table +:+ dq
    +:+ " " +:+ where_ +:+ ") TO STDOUT".

(** [keeps R m]: whatever [m] does, returning or raising, the world it
    leaves is related by [R] to the world it started from *)
Definition keeps (R : World -> World -> Prop) {A} (m : M A) : Prop :=
  forall w, R w (snd (m w)).

(** no object is created and the objects outside [S] are as they were *)
Definition outside (S : nat -> Prop) (w w' : World) : Prop :=
  next w' = next w
  /\ forall x, ~ S x -> heap w' !!! x = heap w !!! x.

(** nothing is written, no object is created, every object keeps its name,
    row limit and ids, and its restrictions are only appended to *)
Definition grows (w w' : World) : Prop :=
  outfile w' = outfile w /\ next w' = next w
  /\ forall x,
       name (heap w' !!! x) = name (heap w !!! x)
       /\ limit (heap w' !!! x) = limit (heap w !!! x)
       /\ ids (heap w' !!! x) = ids (heap w !!! x)
       /\ _foreign_tables (heap w !!! x) `prefix_of` _foreign_tables (heap w' !!! x).

(** the table object [t] has the foreign-key column of the table named [n] *)
Definition references (db : Database) (n : string) (t : Table) : bool :=
  match columns_view db t with
  | Ok cols => bool_decide (n +:+ "_id" ∈ cols)
  | Raise _ => false
  end.

(** [blind self g m w]: run after the store [g] into the object [self],
    [m] has the outcome it has without it and leaves the same world with the
    store applied; so [m] does not read what [g] changes *)
Definition blind (self : nat) (g : Table -> Table) {A} (m : M A) (w : World) : Prop :=
  m (poke self g w) = (fst (m w), poke self g (snd (m w))).

(** no object has its ids or its restrictions changed *)
Definition uncaptured (w w' : World) : Prop :=
  forall x,
    ids (heap w' !!! x) = ids (heap w !!! x)
    /\ _foreign_tables (heap w' !!! x) = _foreign_tables (heap w !!! x).

(** a table whose identifier is its second column *)
Module DemoTags.

Definition db : Database :=
  {| dbname := "prod"; schema_synced := true;
     base_tables := ["tags"];
     columns_of := fun t =>
       if String.eqb t "tags" then Some [("label", "character varying(10)"); ("id", "int")]
       else None;
     fks_of := fun _ => Some [];
     rows_of := fun t =>
       if String.eqb t "tags"
       then Some [[PyStr "x"; PyInt 10]; [PyStr "y"; PyInt 20]; [PyStr "z"; PyInt 30]]
       else None;
     copy_out := fun _ => None |}.

Definition tags : Table := Table__init__ "tags" (Some 2).

End DemoTags.

(** *** What a run has to write *)

Definition to_option {A} (r : result A) : option A :=
  match r with Ok a => Some a | Raise _ => None end.

(** an object that carries the declared types [types] and nothing else *)
Definition typed (types : list string) : Table :=
  set_columns None (Some types) (Table__init__ EmptyString None).

(** the constraints of the table named [n] as the catalog lists them *)
Definition catalog_fks (db : Database) (n : string) : option (list FkConstraint.t) :=
  match fks_of db n with
  | Some rows =>
      Some (map (fun r => {| FkConstraint.table := n;
                             FkConstraint.name := fst r;
                             FkConstraint.condef := snd r |}) rows)
  | None => None
  end.

(** what the dump of the table named [n], capped at [k] rows, captures and
    writes: the ids are the values of the first [k] rows at the position of
    the first column named id, the block is the INSERT header, the tuples of
    those rows rendered with the declared types, and an empty line; nothing
    when the catalog or the table cannot be read, a row has no value at that
    position, or a value cannot be rendered *)
Definition sample (db : Database) (n : string) (k : nat)
  : option (list pyvalue * list string) :=
  match columns_of db n, rows_of db n with
  | Some cat, Some all_rows =>
      let rows := take k all_rows in
      match mapM (fun r : list pyvalue => r !! scan_id (map fst cat) 0) rows,
            mapM (fun r => to_option (_mogrify_row (typed (map snd cat)) r)) rows with
      | Some captured, Some tuples =>
          Some (captured,
                (insert_header n (column_list (map fst cat))
                   :: values_block (length rows) 1 tuples ++ [nl])%list)
      | _, _ => None
      end
  | _, _ => None
  end.

(** the ids that the dump of an object of the kind [nk] captures *)
Definition captured_ids (db : Database) (nk : string * option nat) : list pyvalue :=
  match snd nk with
  | Some k => match sample db (fst nk) k with
              | Some (captured, _) => captured
              | None => []
              end
  | None => []
  end.

(** the restrictions that the sampled objects [sampled], of the kinds [K]
    and in that order, put on a table with the columns [cols] *)
Definition restrictions (db : Database) (K : nat -> string * option nat)
    (sampled : list nat) (cols : list string) : list (string * list pyvalue) :=
  flat_map (fun s => if bool_decide (fst (K s) +:+ "_id" ∈ cols)
                     then [(fst (K s), captured_ids db (K s))] else [])
           sampled.

(** what the dump of the full table named [n] writes: the COPY header, the
    payload the server streams for the COPY statement whose predicate is
    built from the restrictions, and the terminator *)
Definition full_dump (db : Database) (K : nat -> string * option nat)
    (sampled : list nat) (n : string) : option (list string) :=
  match columns_of db n with
  | Some cat =>
      let cols := map fst cat in
      let where_ := _build_where_clause
                      (set_foreign_tables (restrictions db K sampled cols)
                                          (Table__init__ n None)) in
      match copy_out db (copy_sql n (column_list cols) where_) with
      | Some payload => Some [BEGIN_TABLE_DUMP n (column_list cols); payload; END_TABLE_DUMP]
      | None => None
      end
  | None => None
  end.

(** what the step [e] of a run writes, for objects of the kinds [K] *)
Definition expected (db : Database) (K : nat -> string * option nat)
    (sampled : list nat) (e : event) : option (list string) :=
  match e with
  | EvDropFks x =>
      match catalog_fks db (fst (K x)) with
      | Some fks => Some (map FkConstraint.drop fks ++ [nl])%list
      | None => None
      end
  | EvInsert x =>
      match snd (K x) with
      | Some k => match sample db (fst (K x)) k with
                  | Some (_, ws) => Some ws
                  | None => None
                  end
      | None => None
      end
  | EvFilter => Some []
  | EvCopy x => full_dump db K sampled (fst (K x))
  | EvCreateFks x =>
      match catalog_fks db (fst (K x)) with
      | Some fks => Some (map FkConstraint.create fks ++ [nl])%list
      | None => None
      end
  end.

(** the caches of a table object agree with the catalog *)
Definition coherent_obj (db : Database) (t : Table) : Prop :=
  (forall fks, _foreign_keys t = Some fks -> catalog_fks db (name t) = Some fks)
  /\ (forall cols, _columns t = Some cols ->
        exists cat, columns_of db (name t) = Some cat
                    /\ cols = map fst cat /\ _coltypes t = Some (map snd cat))
  /\ (forall i, _ididx t = Some i ->
        exists cat, columns_of db (name t) = Some cat /\ i = scan_id (map fst cat) 0).

Definition coherent (db : Database) (X : list nat) (w : World) : Prop :=
  forall x, x ∈ X -> coherent_obj db (heap w !!! x).

(** what was written is still there: the output has only been appended to *)
Definition appends (w w' : World) : Prop :=
  exists p, outfile w' = (outfile w ++ p)%list.


(** the objects have the kinds [K] *)
Definition kinds (K : nat -> string * option nat) (w : World) : Prop :=
  forall x, kind w x = K x.

(** the state of the objects [X] before the filter has run: caches in
    agreement with the catalog and no restriction *)
Definition stage0 (db : Database) (K : nat -> string * option nat) (X : list nat)
    (w : World) : Prop :=
  kinds K w /\ coherent db X w
  /\ forall x, x ∈ X -> _foreign_tables (heap w !!! x) = [].

(** the same once the objects [D] have been dumped as sampled tables: each
    holds the ids its dump captures *)
Definition stage1 (db : Database) (K : nat -> string * option nat) (X D : list nat)
    (w : World) : Prop :=
  stage0 db K X w
  /\ forall s, s ∈ D -> ids (heap w !!! s) = Some (captured_ids db (K s)).


(** ** Running the monad *)

Lemma setattr_run (self : nat) (f : Table -> Table) (w : World) :
  setattr self f w = (Ok tt, poke self f w).
Proof. reflexivity. Qed.

Lemma poke_self (self : nat) (f : Table -> Table) (w : World) :
  heap (poke self f w) !!! self = f (heap w !!! self).
Proof. unfold poke. simpl. apply lookup_total_insert_eq. Qed.

Lemma poke_other (self x : nat) (f : Table -> Table) (w : World) :
  x <> self -> heap (poke self f w) !!! x = heap w !!! x.
Proof. intros Hne. unfold poke. simpl. by apply lookup_total_insert_ne. Qed.

(** ** The Python runtime on examples *)

Example repr_of_nested_value :
  repr (PyDict [("a", PyInt 1); ("b'", PyList [PyStr "x"; PyNone])])
  = "{'a': 1, " +:+ dq +:+ "b'" +:+ dq +:+ ": ['x', None]}".
Proof. vm_compute. reflexivity. Qed.

Example str_of_tuples :
  str_tuple [] = "()" /\ str_tuple [PyInt 7] = "(7,)"
  /\ str_tuple [PyStr "a"; PyInt (-2)] = "('a', -2)".
Proof. vm_compute. split; [reflexivity|split; reflexivity]. Qed.

Example json_dumps_of_object :
  json_dumps (PyDict [("a", PyInt 1)]) = Some ("{" +:+ dq +:+ "a" +:+ dq +:+ ": 1}").
Proof. vm_compute. reflexivity. Qed.

Example isoformat_with_offset :
  isoformat {| year := 2020; month := 1; day := 2; hour := 3; minute := 4; second := 5;
               microsecond := 60; utcoffset := Some (-90)%Z |}
  = "2020-01-02T03:04:05.000060-01:30".
Proof. vm_compute. reflexivity. Qed.

Example repr_of_aware_datetime :
  repr_datetime {| year := 2020; month := 1; day := 2; hour := 3; minute := 4; second := 0;
                   microsecond := 0; utcoffset := Some (-60)%Z |}
  = "datetime.datetime(2020, 1, 2, 3, 4, tzinfo=datetime.timezone(datetime.timedelta(days=-1, seconds=82800)))".
Proof. vm_compute. reflexivity. Qed.

(** ** Value rendering *)

(** C6: rendering the value None gives the bare keyword NULL, for every
    table object (whatever its column types, even when none are loaded) and
    every column index; the result carries no quote character. *)
Theorem stringify_null_is_NULL (self : Table) (colidx : nat) :
  _stringify_value self PyNone colidx = Ok "NULL".
Proof. reflexivity. Qed.

Lemma startswith_head (s : string) (a : ascii) (p : string) :
  startswith s (String a p) = true -> exists s', s = String a s'.
Proof.
  unfold startswith. destruct s as [|b s']; simpl; [done|].
  destruct (ascii_dec a b) as [->|]; [eauto|done].
Qed.

(** two prefixes that start with different letters exclude each other *)
Lemma startswith_excl (s : string) (a b : ascii) (p q : string) :
  a <> b -> startswith s (String a p) = true -> startswith s (String b q) = false.
Proof.
  intros Hab [s' ->]%startswith_head. unfold startswith. simpl.
  destruct (ascii_dec b a); congruence.
Qed.

Section Stringify.

Variables (self : Table) (coltypes : list string) (colidx : nat) (coltype : string).
Hypothesis Htypes : _coltypes self = Some coltypes.
Hypothesis Hcol : coltypes !! colidx = Some coltype.

Lemma stringify_unfold (value : pyvalue) :
  value <> PyNone ->
  _stringify_value self value colidx =
    match (if startswith coltype "character" || startswith coltype "geography"
              || startswith coltype "json"
           then if startswith coltype "json"
                then match json_dumps value with
                     | Some s => Ok (Quoted, PyStr s)
                     | None => Raise TypeError
                     end
                else Ok (Quoted, value)
           else Ok (Plain, value)) with
    | Raise e => Raise e
    | Ok (fmtstr, value) =>
        if startswith coltype "timestamp"
        then match value with
             | PyDatetime d => Ok (format Quoted (PyStr (isoformat d)))
             | _ => Raise AttributeError
             end
        else Ok (format fmtstr value)
    end.
Proof using Htypes Hcol.
  intros Hv. unfold _stringify_value, subscript. rewrite Htypes, Hcol.
  destruct value; congruence.
Qed.

(** JSON-like column: serialised, then single-quoted *)
Lemma stringify_json (value : pyvalue) (s : string) :
  value <> PyNone -> startswith coltype "json" = true ->
  json_dumps value = Some s ->
  _stringify_value self value colidx = Ok ("'" +:+ s +:+ "'").
Proof using Htypes Hcol.
  intros Hv Hj Hs. rewrite stringify_unfold by done.
  rewrite Hj, Hs, orb_true_r.
  by rewrite (startswith_excl _ "j" "t" _ _ ltac:(done) Hj).
Qed.

(** timestamp-like column: ISO 8601 text, single-quoted *)
Lemma stringify_timestamp (d : datetime) :
  startswith coltype "timestamp" = true ->
  _stringify_value self (PyDatetime d) colidx = Ok ("'" +:+ isoformat d +:+ "'").
Proof using Htypes Hcol.
  intros Ht. rewrite stringify_unfold by done. rewrite Ht.
  rewrite (startswith_excl _ "t" "c" _ _ ltac:(done) Ht).
  rewrite (startswith_excl _ "t" "g" _ _ ltac:(done) Ht).
  by rewrite (startswith_excl _ "t" "j" _ _ ltac:(done) Ht).
Qed.

(** character and geography columns: the value's own text, single-quoted *)
Lemma stringify_character (value : pyvalue) :
  value <> PyNone ->
  startswith coltype "character" || startswith coltype "geography" = true ->
  _stringify_value self value colidx = Ok ("'" +:+ str value +:+ "'").
Proof using Htypes Hcol.
  intros Hv Hc. rewrite stringify_unfold by done. rewrite Hc. simpl.
  apply orb_true_iff in Hc as [Hc|Hc].
  - rewrite (startswith_excl _ "c" "j" _ _ ltac:(done) Hc).
    by rewrite (startswith_excl _ "c" "t" _ _ ltac:(done) Hc).
  - rewrite (startswith_excl _ "g" "j" _ _ ltac:(done) Hc).
    by rewrite (startswith_excl _ "g" "t" _ _ ltac:(done) Hc).
Qed.

(** every other column: the value's own text, bare *)
Lemma stringify_other (value : pyvalue) :
  value <> PyNone ->
  startswith coltype "character" = false -> startswith coltype "geography" = false ->
  startswith coltype "json" = false -> startswith coltype "timestamp" = false ->
  _stringify_value self value colidx = Ok (str value).
Proof using Htypes Hcol.
  intros Hv H1 H2 H3 H4. rewrite stringify_unfold by done.
  by rewrite H1, H2, H3, H4.
Qed.

End Stringify.

(** C7: a column declared [text] is not among the quoted types: the code
    quotes by the prefixes character, geography, json and timestamp only,
    so the string a in a text column is written bare, and the row (1, 'a')
    of users (id int, name text) is written as (1,a). *)
Theorem stringify_text_column_is_bare :
  let self := set_columns (Some ["id"; "name"]) (Some ["int"; "text"]) Demo.users in
  _stringify_value self (PyStr "a") 1 = Ok "a"
  /\ _stringify_value self (PyStr "a") 1 <> Ok "'a'"
  /\ _mogrify_row self [PyInt 1; PyStr "a"] = Ok "(1,a)".
Proof. repeat split; done. Qed.

(** the same for every text column and every string *)
Lemma stringify_text_column (self : Table) (coltypes : list string) (colidx : nat)
    (s : string) :
  _coltypes self = Some coltypes -> coltypes !! colidx = Some "text" ->
  _stringify_value self (PyStr s) colidx = Ok s.
Proof. intros Ht Hc. by rewrite (stringify_other _ _ _ _ Ht Hc). Qed.

(** the JSON scenario: the object with key a and value 1 in a json column *)
Example stringify_json_object :
  _stringify_value (set_columns (Some ["doc"]) (Some ["jsonb"]) Demo.logs)
                   (PyDict [("a", PyInt 1)]) 0
  = Ok ("'{" +:+ dq +:+ "a" +:+ dq +:+ ": 1}'").
Proof. reflexivity. Qed.

(** ** Restrictions *)

Lemma dict_get_None {V} (k : string) (d : list (string * V)) :
  dict_get k d = None <-> k ∉ d.*1.
Proof.
  induction d as [|[k' v] d IH]; simpl.
  - split; [intros _; apply not_elem_of_nil|done].
  - rewrite not_elem_of_cons. destruct (String.eqb_spec k k') as [->|Hne].
    + split; [done|]. by intros [? _].
    + rewrite IH. split; [by intros ?|by intros [_ ?]].
Qed.

Lemma dict_get_app {V} (k : string) (d1 d2 : list (string * V)) :
  dict_get k (d1 ++ d2) =
    match dict_get k d1 with Some v => Some v | None => dict_get k d2 end.
Proof.
  induction d1 as [|[k' v] d1 IH]; simpl; [done|].
  by destruct (String.eqb k k').
Qed.

Lemma dict_get_singleton {V} (k k' : string) (v : V) :
  dict_get k [(k', v)] = if String.eqb k k' then Some v else None.
Proof. done. Qed.

(** [add_foreign_table] with a list of ids, as one equation *)
Lemma add_foreign_table_run (self : nat) (name : string) (ids : list pyvalue)
    (w : World) :
  add_foreign_table self name (Some ids) w =
    if bool_decide (name ∈ (_foreign_tables (heap w !!! self)).*1)
    then (Raise (RuntimeError "no bueno"), w)
    else (Ok tt,
          poke self (set_foreign_tables
                       (_foreign_tables (heap w !!! self) ++ [(name, ids)])%list) w).
Proof.
  unfold add_foreign_table, bind, getT. simpl.
  by destruct (bool_decide (name ∈ (_foreign_tables (heap w !!! self)).*1)).
Qed.

(** C8: attaching a name that the restriction dict already holds raises
    RuntimeError, which is not an I/O error, and leaves the world (hence the
    dict) as it was; attaching a fresh name returns normally, after which
    the dict maps the name to the ids and every other name as before, and
    nothing else in the world has changed. *)
Theorem add_foreign_table_spec (self : nat) (name : string) (ids : list pyvalue)
    (w : World) :
  let d := _foreign_tables (heap w !!! self) in
  match dict_get name d with
  | Some _ =>
      add_foreign_table self name (Some ids) w = (Raise (RuntimeError "no bueno"), w)
      /\ is_io_error (RuntimeError "no bueno") = false
  | None =>
      exists w',
        add_foreign_table self name (Some ids) w = (Ok tt, w')
        /\ dict_get name (_foreign_tables (heap w' !!! self)) = Some ids
        /\ (forall other, other <> name ->
              dict_get other (_foreign_tables (heap w' !!! self)) = dict_get other d)
        /\ heap w' = <[self := set_foreign_tables (d ++ [(name, ids)])%list (heap w !!! self)]>
                       (heap w)
        /\ outfile w' = outfile w /\ trace w' = trace w
  end.
Proof.
  intros d. rewrite add_foreign_table_run. fold d.
  destruct (dict_get name d) as [v|] eqn:Hget.
  - rewrite bool_decide_eq_true_2; [done|].
    destruct (decide (name ∈ d.*1)) as [|Hn]; [done|].
    apply dict_get_None in Hn. congruence.
  - pose proof Hget as Hfresh. apply dict_get_None in Hfresh.
    rewrite bool_decide_eq_false_2 by done.
    eexists. split; [reflexivity|]. rewrite poke_self. simpl. repeat split.
    + by rewrite dict_get_app, dict_get_singleton, String.eqb_refl, Hget.
    + intros other Hne. rewrite dict_get_app, dict_get_singleton.
      apply String.eqb_neq in Hne. rewrite Hne. by destruct (dict_get other d).
Qed.

Lemma append_empty_r (s : string) : s +:+ EmptyString = s.
Proof. induction s as [|a s IH]; [done|]. cbv [String.append]. fold String.append. by rewrite IH. Qed.

Lemma append_assoc (s1 s2 s3 : string) : (s1 +:+ s2) +:+ s3 = s1 +:+ s2 +:+ s3.
Proof.
  induction s1 as [|a s1 IH]; [done|].
  change (String a s1 +:+ s2) with (String a (s1 +:+ s2)).
  change (String a (s1 +:+ s2) +:+ s3) with (String a ((s1 +:+ s2) +:+ s3)).
  by rewrite IH.
Qed.

(** [sep.join] of a non-empty list: the head, then each further item behind
    a separator *)
Lemma join_cons (sep s : string) (l : list string) :
  join sep (s :: l) = s +:+ String.concat EmptyString (map (fun x => sep +:+ x) l).
Proof.
  unfold join. revert s. induction l as [|x l IH]; intros s.
  - by rewrite append_empty_r.
  - change (String.concat sep (s :: x :: l)) with (s +:+ sep +:+ String.concat sep (x :: l)).
    rewrite IH.
    destruct l as [|y l].
    + simpl. by rewrite !append_empty_r.
    + change (String.concat EmptyString (map (fun x => sep +:+ x) (x :: y :: l)))
        with ((sep +:+ x) +:+ EmptyString +:+
                String.concat EmptyString (map (fun x => sep +:+ x) (y :: l))).
      by rewrite append_assoc.
Qed.

(** C9: with a single restriction whose tuple holds the single id v, the
    predicate is WHERE, the table name followed by _id, in, and the Python
    text of the one-element tuple: the text of v, a comma, and the closing
    parenthesis; it is not the form without the comma. *)
Theorem where_clause_singleton (self : Table) (ftable : string) (v : pyvalue) :
  _foreign_tables self = [(ftable, [v])] ->
  _build_where_clause self = "WHERE " +:+ ftable +:+ "_id in (" +:+ repr v +:+ ",)"
  /\ _build_where_clause self <> "WHERE " +:+ ftable +:+ "_id in (" +:+ repr v +:+ ")".
Proof.
  intros H. assert (_build_where_clause self
                    = "WHERE " +:+ ftable +:+ "_id in (" +:+ repr v +:+ ",)") as ->.
  { unfold _build_where_clause. rewrite H. reflexivity. }
  split; [done|]. intros Heq.
  do 4 apply String.app_inj in Heq. discriminate.
Qed.

Lemma where_clause_singleton_witness :
  _build_where_clause (set_foreign_tables [("users", [PyInt 7])] Demo.orders)
    = "WHERE users_id in (7,)"
  /\ _build_where_clause (set_foreign_tables [("users", [PyInt 7])] Demo.orders)
    <> "WHERE users_id in (7)".
Proof.
  apply (where_clause_singleton
           (set_foreign_tables [("users", [PyInt 7])] Demo.orders) "users" (PyInt 7)).
  reflexivity.
Defined.

(** through [add_foreign_table]: one attachment of one captured id to a
    fresh full table *)
Example where_clause_after_attach :
  _build_where_clause
    (heap (snd (add_foreign_table 0 "users" (Some [PyInt 7]) (Demo.world_of Demo.orders)))
       !!! 0)
  = "WHERE users_id in (7,)".
Proof. vm_compute. reflexivity. Qed.

(** the clause as the code builds it: nothing without restrictions;
    otherwise WHERE followed by one clause per entry of the restriction
    dict, in insertion order, separated by AND; a clause is the referenced
    table's name, _id, in, and the Python text of the id tuple *)
Lemma where_clause_shape (self : Table) :
  _build_where_clause self =
    match _foreign_tables self with
    | [] => EmptyString
    | kv :: rest =>
        "WHERE " +:+ where_item kv
          +:+ String.concat EmptyString (map (fun kv' => " AND " +:+ where_item kv') rest)
    end.
Proof.
  unfold _build_where_clause. destruct (_foreign_tables self) as [|kv rest]; [done|].
  change (map (fun kv0 => fst kv0 +:+ "_id in " +:+ str_tuple (snd kv0)) (kv :: rest))
    with (where_item kv :: map where_item rest).
  change (Nat.ltb 0 (length (where_item kv :: map where_item rest))) with true.
  cbv iota. rewrite join_cons. by rewrite map_map.
Qed.

Lemma documented_where_clause_shape (self : Table) :
  documented_where_clause self =
    match _foreign_tables self with
    | [] => EmptyString
    | kv :: rest =>
        "WHERE " +:+ documented_where_item kv
          +:+ String.concat EmptyString
                (map (fun kv' => " AND " +:+ documented_where_item kv') rest)
    end.
Proof.
  unfold documented_where_clause. destruct (_foreign_tables self) as [|kv rest]; [done|].
  change (map documented_where_item (kv :: rest))
    with (documented_where_item kv :: map documented_where_item rest).
  rewrite join_cons. by rewrite map_map.
Qed.

Lemma length_append (s1 s2 : string) :
  String.length (s1 +:+ s2) = String.length s1 + String.length s2.
Proof.
  induction s1 as [|a s1 IH]; [done|].
  change (String a s1 +:+ s2) with (String a (s1 +:+ s2)). simpl. by rewrite IH.
Qed.

Lemma length_concat_cons (s : string) (l : list string) :
  String.length (String.concat EmptyString (s :: l))
  = String.length s + String.length (String.concat EmptyString l).
Proof.
  destruct l as [|x l].
  - simpl. lia.
  - change (String.concat EmptyString (s :: x :: l))
      with (s +:+ EmptyString +:+ String.concat EmptyString (x :: l)).
    by rewrite !length_append.
Qed.

(** a clause of the code is shorter than the documented clause for the
    same restriction: it lacks the two quotes around the column, and gains
    at most the comma of the one-element tuple *)
Lemma where_item_shorter (kv : string * list pyvalue) :
  String.length (where_item kv) < String.length (documented_where_item kv).
Proof.
  destruct kv as [n vs]. unfold where_item, documented_where_item. cbn [fst snd].
  rewrite !length_append.
  destruct vs as [|v1 [|v2 vs]].
  - simpl. lia.
  - change (str_tuple [v1]) with ("(" +:+ repr v1 +:+ ",)").
    change (join ", " (map repr [v1])) with (repr v1).
    rewrite !length_append. simpl. lia.
  - change (str_tuple (v1 :: v2 :: vs))
      with ("(" +:+ join ", " (map repr (v1 :: v2 :: vs)) +:+ ")").
    rewrite !length_append. simpl. lia.
Qed.

Lemma where_items_shorter (rest : list (string * list pyvalue)) :
  String.length
    (String.concat EmptyString (map (fun kv => " AND " +:+ where_item kv) rest))
  <= String.length
       (String.concat EmptyString
          (map (fun kv => " AND " +:+ documented_where_item kv) rest)).
Proof.
  induction rest as [|kv rest IH]; [done|].
  change (map ?f (kv :: rest)) with (f kv :: map f rest).
  rewrite !length_concat_cons. cbv beta. rewrite !length_append.
  pose proof (where_item_shorter kv). lia.
Qed.

(** C5: the predicate the code builds is not the documented one.  Without
    restrictions both are the empty string, so the table is dumped
    unfiltered.  With one or more restrictions the code's predicate is never
    the documented conjunction of quoted-column IN lists: the code writes
    the column bare and [in] in lower case, and interpolates the id tuple as
    Python prints it.  For users restricted to the ids 1 and 2 it writes
    WHERE users_id in (1, 2) where the documented form has the column
    between double quotes; for the single id 7 it writes (7,), with the
    comma of Python's one-element tuple, which is not an SQL list. *)
Theorem where_clause_not_as_documented :
  (forall self : Table,
      match _foreign_tables self with
      | [] => _build_where_clause self = EmptyString
              /\ documented_where_clause self = EmptyString
      | _ :: _ => _build_where_clause self <> documented_where_clause self
      end)
  /\ (let self := set_foreign_tables [("users", [PyInt 1; PyInt 2])] Demo.orders in
      _build_where_clause self = "WHERE users_id in (1, 2)"
      /\ documented_where_clause self
         = "WHERE " +:+ dq +:+ "users_id" +:+ dq +:+ " IN (1, 2)")
  /\ (let self := set_foreign_tables [("users", [PyInt 7])] Demo.orders in
      _build_where_clause self = "WHERE users_id in (7,)"
      /\ documented_where_clause self = "WHERE " +:+ dq +:+ "users_id" +:+ dq +:+ " IN (7)").
Proof.
  split; [|split; vm_compute; split; reflexivity].
  intros self. rewrite where_clause_shape, documented_where_clause_shape.
  destruct (_foreign_tables self) as [|kv rest]; [done|].
  intros Heq. apply (f_equal String.length) in Heq.
  rewrite !length_append in Heq.
  pose proof (where_item_shorter kv). pose proof (where_items_shorter rest). lia.
Qed.

(** ** Properties read through the monad *)

Ltac run := unfold bind, ret, raise, lift, getT, write, mark, answer; simpl.

(** [columns] returns what [columns_view] describes, fills the cache on a
    miss, and touches nothing else *)
Lemma columns_run (db : Database) (self : nat) (w : World) :
  columns db self w =
    (columns_view db (heap w !!! self),
     match _columns (heap w !!! self), columns_of db (name (heap w !!! self)) with
     | None, Some rows => poke self (set_columns (Some (map fst rows)) (Some (map snd rows))) w
     | _, _ => w
     end).
Proof.
  unfold columns, columns_view. run.
  destruct (_columns (heap w !!! self)); [done|].
  by destruct (columns_of db (name (heap w !!! self))).
Qed.

Lemma columns_cached (db : Database) (self : nat) (w : World) (cols : list string) :
  _columns (heap w !!! self) = Some cols -> columns db self w = (Ok cols, w).
Proof. intros H. rewrite columns_run. unfold columns_view. by rewrite H. Qed.

(** ** The identifier column *)

Lemma scan_id_absent (cols : list string) (i : nat) :
  "id" ∉ cols -> scan_id cols i = i + length cols.
Proof.
  revert i. induction cols as [|c cols IH]; intros i Hn; simpl; [lia|].
  apply not_elem_of_cons in Hn as [Hne Hn].
  destruct (String.eqb_spec c "id"); [congruence|].
  rewrite IH by done. lia.
Qed.

Lemma scan_id_found (cols : list string) (i : nat) :
  "id" ∈ cols ->
  exists k, scan_id cols i = i + k /\ cols !! k = Some "id"
            /\ forall j, j < k -> cols !! j <> Some "id".
Proof.
  revert i. induction cols as [|c cols IH]; intros i Hin; [by apply elem_of_nil in Hin|].
  simpl. destruct (String.eqb_spec c "id") as [->|Hne].
  - exists 0. split; [lia|]. split; [done|]. intros j Hj. lia.
  - apply elem_of_cons in Hin as [Heq|Hin]; [congruence|].
    destruct (IH (S i) Hin) as (k & Hk & Hat & Hbefore).
    exists (S k). split; [lia|]. split; [done|].
    intros [|j] Hj; simpl; [congruence|]. apply Hbefore. lia.
Qed.

Lemma ididx_run (db : Database) (self : nat) (w : World) (cols : list string) :
  columns_view db (heap w !!! self) = Ok cols ->
  exists w',
    ididx db self w = (Ok (ididx_view cols (heap w !!! self)), w')
    /\ outfile w' = outfile w /\ trace w' = trace w /\ next w' = next w
    /\ (forall x, x <> self -> heap w' !!! x = heap w !!! x)
    /\ (_columns (heap w !!! self) = Some cols ->
        heap w' !!! self = set_ididx (Some (ididx_view cols (heap w !!! self))) (heap w !!! self))
    /\ _ididx (heap w' !!! self) = Some (ididx_view cols (heap w !!! self))
    /\ name (heap w' !!! self) = name (heap w !!! self)
    /\ limit (heap w' !!! self) = limit (heap w !!! self)
    /\ columns_view db (heap w' !!! self) = Ok cols.
Proof.
  intros Hcols. unfold ididx, ididx_view. run.
  destruct (_ididx (heap w !!! self)) as [i|] eqn:Hi.
  - exists w. repeat split; try done.
    intros _. destruct (heap w !!! self); unfold set_ididx; simpl in *. by subst.
  - rewrite columns_run. simpl. rewrite lookup_total_insert_eq.
    change (columns_view db (set_ididx (Some 0) (heap w !!! self)))
      with (columns_view db (heap w !!! self)).
    rewrite Hcols. simpl. unfold columns_view in Hcols.
    destruct (_columns (heap w !!! self)) as [c|] eqn:Hc.
    + injection Hcols as ->. eexists. split; [reflexivity|]. simpl.
      rewrite !lookup_total_insert_eq. simpl.
      repeat split; try done.
      * intros x Hx. by rewrite !lookup_total_insert_ne.
      * unfold columns_view. simpl. by rewrite Hc.
    + destruct (columns_of db (name (heap w !!! self))) as [rows|] eqn:Hrows; [|done].
      injection Hcols as <-. eexists. split; [reflexivity|]. simpl.
      rewrite !lookup_total_insert_eq. simpl.
      repeat split; try done.
      intros x Hx. by rewrite !lookup_total_insert_ne.
Qed.

(** the claim of C4 fails when no column is named id: for logs (at, msg)
    the position is 2, the number of columns, not 0, and the sampled dump of
    its one row stops with IndexError instead of capturing the first
    element *)
Lemma ididx_without_id_column :
  fst (ididx Demo.db 0 (Demo.world_of Demo.logs)) = Ok 2
  /\ fst (ididx Demo.db 0 (Demo.world_of Demo.logs)) <> Ok 0
  /\ fst (dump Demo.db 0 (Demo.world_of Demo.logs)) = Raise IndexError.
Proof. vm_compute. split; [reflexivity|split; [discriminate|reflexivity]]. Qed.

(** C4, amended: on its first use [ididx] yields the index of the first
    column named id; when no column is named id it yields the number of
    columns, one past the last, so that subscripting a row no wider than the
    column list raises IndexError and no value is captured. *)
Theorem ididx_position (db : Database) (self : nat) (w : World) (cols : list string) :
  _ididx (heap w !!! self) = None ->
  columns_view db (heap w !!! self) = Ok cols ->
  exists i w',
    ididx db self w = (Ok i, w')
    /\ ("id" ∈ cols ->
        cols !! i = Some "id" /\ forall j, j < i -> cols !! j <> Some "id")
    /\ ("id" ∉ cols ->
        i = length cols
        /\ forall r : row, length r <= length cols -> subscript r i = Raise IndexError).
Proof.
  intros Hnone Hcols.
  destruct (ididx_run db self w cols Hcols) as (w' & Hrun & _).
  unfold ididx_view in Hrun. rewrite Hnone in Hrun.
  exists (scan_id cols 0), w'. split; [done|]. split.
  - intros Hin. destruct (scan_id_found cols 0 Hin) as (k & -> & Hat & Hbefore).
    by split.
  - intros Hout. rewrite (scan_id_absent cols 0 Hout). split; [done|].
    intros r Hr. unfold subscript.
    by rewrite (proj2 (lookup_ge_None r (0 + length cols))) by (simpl; lia).
Qed.

Lemma ididx_position_witness :
  exists i w',
    ididx Demo.db 0 (Demo.world_of Demo.users) = (Ok i, w')
    /\ ("id" ∈ ["id"; "name"] ->
        ["id"; "name"] !! i = Some "id"
        /\ forall j, j < i -> ["id"; "name"] !! j <> Some "id")
    /\ ("id" ∉ ["id"; "name"] ->
        i = length ["id"; "name"]
        /\ forall r : row, length r <= length ["id"; "name"] ->
                           subscript r i = Raise IndexError).
Proof.
  apply (ididx_position Demo.db 0 (Demo.world_of Demo.users) ["id"; "name"]);
    reflexivity.
Defined.

(** ** The sampled dump *)

Lemma stringify_from_ext (t t' : Table) (i : nat) (r : row) :
  _coltypes t = _coltypes t' -> stringify_from t i r = stringify_from t' i r.
Proof.
  intros H. revert i. induction r as [|v r IH]; intros i; simpl; [done|].
  assert (_stringify_value t v i = _stringify_value t' v i) as ->.
  { unfold _stringify_value. by rewrite H. }
  by rewrite IH.
Qed.

Lemma mogrify_row_ext (t t' : Table) (r : row) :
  _coltypes t = _coltypes t' -> _mogrify_row t r = _mogrify_row t' r.
Proof. intros H. unfold _mogrify_row. by rewrite (stringify_from_ext t t' 0 r H). Qed.

Lemma mogrify_row_set_ididx (x : option nat) (t : Table) (r : row) :
  _mogrify_row (set_ididx x t) r = _mogrify_row t r.
Proof. by apply mogrify_row_ext. Qed.

Lemma mogrify_row_set_ids (x : option (list pyvalue)) (t : Table) (r : row) :
  _mogrify_row (set_ids x t) r = _mogrify_row t r.
Proof. by apply mogrify_row_ext. Qed.

(** the loop of the sampled dump, once the column list is cached *)
Lemma insert_rows_ok (db : Database) (self rowcount : nat) (cols : list string)
    (rows : list row) :
  forall (k : nat) (acc : list pyvalue) (w : World) (out : list pyvalue) (w' : World),
    _columns (heap w !!! self) = Some cols ->
    insert_rows db self rowcount rows k acc w = (Ok out, w') ->
    exists vs tuples,
      out = (acc ++ vs)%list
      /\ Forall2 (fun r v => r !! ididx_view cols (heap w !!! self) = Some v) rows vs
      /\ Forall2 (fun r s => _mogrify_row (heap w !!! self) r = Ok s) rows tuples
      /\ outfile w' = (outfile w ++ values_block rowcount k tuples)%list
      /\ trace w' = trace w
      /\ heap w' !!! self =
           match rows with
           | [] => heap w !!! self
           | _ => set_ididx (Some (ididx_view cols (heap w !!! self))) (heap w !!! self)
           end.
Proof.
  induction rows as [|r rows IH]; intros k acc w out w' Hcols Hrun.
  - simpl in Hrun. injection Hrun as <- <-. exists [], [].
    rewrite !app_nil_r. repeat split; constructor.
  - simpl in Hrun. unfold bind in Hrun.
    assert (columns_view db (heap w !!! self) = Ok cols) as Hview.
    { unfold columns_view. by rewrite Hcols. }
    destruct (ididx_run db self w cols Hview)
      as (w1 & Hid & Hout1 & Htr1 & _ & _ & Hself & _).
    specialize (Hself Hcols). rewrite Hid in Hrun.
    remember (ididx_view cols (heap w !!! self)) as i eqn:Hi.
    unfold lift, subscript in Hrun.
    destruct (r !! i) as [v|] eqn:Hv; [|by simpl in Hrun].
    unfold getT in Hrun. rewrite Hself in Hrun.
    rewrite mogrify_row_set_ididx in Hrun.
    destruct (_mogrify_row (heap w !!! self) r) as [s|] eqn:Hs; [|by simpl in Hrun].
    unfold write in Hrun. simpl in Hrun.
    apply IH in Hrun; simpl; [|by rewrite Hself].
    destruct Hrun as (vs & tuples & -> & Hvs & Htuples & Hout & Htr & Hheap).
    simpl in *. rewrite Hself in Hvs, Htuples, Hheap.
    change (ididx_view cols (set_ididx (Some i) (heap w !!! self))) with i in *.
    exists (v :: vs), (s :: tuples). repeat split.
    + by rewrite <- app_assoc.
    + constructor; [done|]. exact Hvs.
    + constructor; [done|].
      eapply Forall2_impl; [exact Htuples|].
      intros r' s' <-. symmetry. apply mogrify_row_set_ididx.
    + rewrite Hout, Hout1. simpl. by rewrite <- !app_assoc.
    + by rewrite Htr.
    + rewrite Hheap. by destruct rows.
Qed.

Lemma select_and_insert_ok (db : Database) (self : nat) (columns : string)
    (cols : list string) (w : World) (out : list pyvalue) (w' : World) :
  _columns (heap w !!! self) = Some cols ->
  _select_and_insert db self columns w = (Ok out, w') ->
  exists n all_rows tuples,
    limit (heap w !!! self) = Some n
    /\ rows_of db (name (heap w !!! self)) = Some all_rows
    /\ Forall2 (fun r v => r !! ididx_view cols (heap w !!! self) = Some v)
               (take n all_rows) out
    /\ Forall2 (fun r s => _mogrify_row (heap w !!! self) r = Ok s)
               (take n all_rows) tuples
    /\ outfile w' =
         (outfile w ++ insert_header (name (heap w !!! self)) columns
            :: values_block (length (take n all_rows)) 1 tuples ++ [nl])%list
    /\ trace w' = (trace w ++ [EvInsert self])%list
    /\ _coltypes (heap w' !!! self) = _coltypes (heap w !!! self)
    /\ name (heap w' !!! self) = name (heap w !!! self).
Proof.
  intros Hcols Hrun. unfold _select_and_insert, cursor_select in Hrun.
  unfold bind, mark, getT, write, ret, raise, answer, lift in Hrun. simpl in Hrun.
  destruct (limit (heap w !!! self)) as [n|]; [|discriminate Hrun].
  destruct (rows_of db (name (heap w !!! self))) as [all_rows|]; [|discriminate Hrun].
  match type of Hrun with
  | context [insert_rows ?d ?s ?c ?rs ?k ?a ?w0] =>
      destruct (insert_rows d s c rs k a w0) as [[ids|e] w1] eqn:Hloop;
        [|discriminate Hrun]
  end.
  injection Hrun as <- <-.
  apply (insert_rows_ok _ _ _ cols) in Hloop; [|done].
  destruct Hloop as (vs & tuples & -> & Hvs & Htuples & Hout & Htr & Hheap).
  simpl in *. exists n, all_rows, tuples. repeat split; try done.
  - rewrite Hout. by rewrite <- !app_assoc.
  - rewrite Hheap. by destruct (take n all_rows).
  - rewrite Hheap. by destruct (take n all_rows).
Qed.

(** the sampled dump over an empty result set, as one equation *)
Lemma select_and_insert_empty (db : Database) (self : nat) (columns : string)
    (w : World) (n : nat) (all_rows : list row) :
  limit (heap w !!! self) = Some n ->
  rows_of db (name (heap w !!! self)) = Some all_rows ->
  take n all_rows = [] ->
  _select_and_insert db self columns w =
    (Ok [],
     {| heap := heap w; next := next w;
        outfile := (outfile w ++ [insert_header (name (heap w !!! self)) columns; nl])%list;
        trace := (trace w ++ [EvInsert self])%list |}).
Proof.
  intros Hlimit Hrows Hnone.
  unfold _select_and_insert, cursor_select.
  unfold bind, mark, getT, write, ret, raise, answer, lift. simpl.
  rewrite Hlimit, Hrows. simpl. rewrite Hnone. simpl.
  by rewrite <- app_assoc.
Qed.

(** a limit of zero on a table that has rows *)
Example dump_no_rows :
  let w' := snd (dump Demo.db 0 (Demo.world_of (Table__init__ "users" (Some 0)))) in
  fst (dump Demo.db 0 (Demo.world_of (Table__init__ "users" (Some 0)))) = Ok tt
  /\ ids (heap w' !!! 0) = Some []
  /\ outfile w' = ["INSERT INTO users (" +:+ dq +:+ "id" +:+ dq +:+ "," +:+ dq +:+ "name"
                     +:+ dq +:+ ") VALUES " +:+ nl; nl].
Proof. vm_compute. split; [reflexivity|split; reflexivity]. Qed.

(** a successful read of [columns] leaves the cache filled and every other
    attribute, and every other object, as they were *)
Lemma columns_ok (db : Database) (self : nat) (w : World) (cols : list string) :
  columns_view db (heap w !!! self) = Ok cols ->
  exists w0,
    columns db self w = (Ok cols, w0)
    /\ outfile w0 = outfile w /\ trace w0 = trace w /\ next w0 = next w
    /\ (forall x, x <> self -> heap w0 !!! x = heap w !!! x)
    /\ _columns (heap w0 !!! self) = Some cols
    /\ name (heap w0 !!! self) = name (heap w !!! self)
    /\ limit (heap w0 !!! self) = limit (heap w !!! self)
    /\ ids (heap w0 !!! self) = ids (heap w !!! self)
    /\ _foreign_tables (heap w0 !!! self) = _foreign_tables (heap w !!! self)
    /\ _ididx (heap w0 !!! self) = _ididx (heap w !!! self).
Proof.
  intros Hview. rewrite columns_run, Hview. unfold columns_view in Hview.
  destruct (_columns (heap w !!! self)) as [c|] eqn:Hc.
  - injection Hview as ->. exists w. by repeat split.
  - destruct (columns_of db (name (heap w !!! self))) as [rows|]; [|done].
    injection Hview as <-. eexists. split; [reflexivity|].
    rewrite poke_self. simpl. repeat split; try done.
    intros x Hx. by apply lookup_total_insert_ne.
Qed.

Lemma columns_fails (db : Database) (self : nat) (w : World) (e : exn) :
  columns_view db (heap w !!! self) = Raise e -> columns db self w = (Raise e, w).
Proof.
  intros Hview. rewrite columns_run, Hview. unfold columns_view in Hview.
  destruct (_columns (heap w !!! self)); [done|].
  by destruct (columns_of db (name (heap w !!! self))).
Qed.

(** C10: when the bounded read of a sampled table yields no row (the table
    is empty or the limit is zero), [_select_and_insert], called with the
    table's column list as [dump] calls it, writes the INSERT header line and
    then an empty line and nothing else (so neither a tuple nor the
    terminating semicolon), returns the empty id list without raising and
    leaves the heap as it was; the dump stores that empty list as the
    table's ids. *)
Theorem select_and_insert_no_rows (db : Database) (self : nat) (w : World) (n : nat)
    (all_rows : list row) (cols : list string) :
  limit (heap w !!! self) = Some n ->
  columns_view db (heap w !!! self) = Ok cols ->
  rows_of db (name (heap w !!! self)) = Some all_rows ->
  take n all_rows = [] ->
  let header := insert_header (name (heap w !!! self)) (column_list cols) in
  _select_and_insert db self (column_list cols) w =
    (Ok [],
     {| heap := heap w; next := next w;
        outfile := (outfile w ++ [header; nl])%list;
        trace := (trace w ++ [EvInsert self])%list |})
  /\ header <> ";" +:+ nl
  /\ exists w',
       dump db self w = (Ok tt, w')
       /\ ids (heap w' !!! self) = Some []
       /\ outfile w' = (outfile w ++ [header; nl])%list.
Proof.
  intros Hlimit Hview Hrows Hnone header.
  split; [by apply (select_and_insert_empty db self _ w n all_rows)|].
  split; [by unfold header, insert_header|].
  destruct (columns_ok db self w cols Hview)
    as (w0 & Hc & Hout0 & _ & _ & _ & _ & Hname & Hlim & _).
  unfold dump, bind. rewrite Hc. unfold getT. rewrite Hlim, Hlimit.
  fold (column_list cols).
  rewrite (select_and_insert_empty db self _ w0 n all_rows)
    by (by rewrite ?Hlim, ?Hname).
  rewrite setattr_run. eexists. split; [reflexivity|].
  rewrite poke_self. simpl. split; [done|]. by rewrite Hout0, Hname.
Qed.

Lemma select_and_insert_no_rows_witness :
  let w := Demo.world_of (Table__init__ "orders" (Some 2)) in
  let header := insert_header "orders" (column_list ["id"; "users_id"]) in
  _select_and_insert Demo.db 0 (column_list ["id"; "users_id"]) w =
    (Ok [],
     {| heap := heap w; next := next w;
        outfile := (outfile w ++ [header; nl])%list;
        trace := (trace w ++ [EvInsert 0])%list |})
  /\ header <> ";" +:+ nl
  /\ exists w',
       dump Demo.db 0 w = (Ok tt, w')
       /\ ids (heap w' !!! 0) = Some []
       /\ outfile w' = (outfile w ++ [header; nl])%list.
Proof.
  apply (select_and_insert_no_rows Demo.db 0
           (Demo.world_of (Table__init__ "orders" (Some 2))) 2 [] ["id"; "users_id"]);
    reflexivity.
Defined.

(** a successful sampled dump, in terms of the object as it was before *)
Lemma dump_sampled_ok (db : Database) (self : nat) (w w' : World) (n : nat)
    (cols : list string) :
  limit (heap w !!! self) = Some n ->
  columns_view db (heap w !!! self) = Ok cols ->
  dump db self w = (Ok tt, w') ->
  exists all_rows captured tuples,
    rows_of db (name (heap w !!! self)) = Some all_rows
    /\ ids (heap w' !!! self) = Some captured
    /\ Forall2 (fun r v => r !! ididx_view cols (heap w !!! self) = Some v)
               (take n all_rows) captured
    /\ Forall2 (fun r s => _mogrify_row (heap w' !!! self) r = Ok s)
               (take n all_rows) tuples
    /\ outfile w' =
         (outfile w
            ++ insert_header (name (heap w !!! self)) (column_list cols)
            :: values_block (length (take n all_rows)) 1 tuples ++ [nl])%list.
Proof.
  intros Hlimit Hview Hrun. unfold dump in Hrun. unfold bind in Hrun.
  destruct (columns_ok db self w cols Hview)
    as (w0 & Hc & Hout0 & _ & _ & _ & Hcols & Hname & Hlim & _ & _ & Hidx).
  rewrite Hc in Hrun. unfold getT in Hrun. rewrite Hlim, Hlimit in Hrun.
  fold (column_list cols) in Hrun.
  destruct (_select_and_insert db self (column_list cols) w0) as [[out|e] w1] eqn:Hsel;
    [|discriminate Hrun].
  rewrite setattr_run in Hrun. injection Hrun as <-.
  apply (select_and_insert_ok _ _ _ cols) in Hsel; [|done].
  destruct Hsel as (n' & all_rows & tuples & Hn' & Hrows & Hvs & Htuples & Hout
                    & _ & Hct & _).
  rewrite Hlim, Hlimit in Hn'. injection Hn' as <-.
  assert (ididx_view cols (heap w0 !!! self) = ididx_view cols (heap w !!! self)) as Hi.
  { unfold ididx_view. by rewrite Hidx. }
  exists all_rows, out, tuples. rewrite poke_self. split_and!.
  - by rewrite <- Hname.
  - done.
  - by rewrite <- Hi.
  - eapply Forall2_impl; [exact Htuples|]. intros r s <-.
    rewrite mogrify_row_set_ids. by apply mogrify_row_ext.
  - simpl. rewrite Hout, Hout0. by rewrite Hname.
Qed.

(** C3: a successful dump of a table with row limit n stores as its ids one
    value per row read, in the order read: the value the row holds at the
    identifier position, which is the position [ididx] settles on and, on an
    object that has no position cached and has a column named id, the index
    of the first such column; the rows read are the first n the server
    enumerates, so at most n ids are stored; and the output gains the INSERT
    header, then for each row read its tuple (the values rendered in column
    order by [_mogrify_row]) and a separator, then an empty line.  In the
    scenario of users (id int, name text) capped at 2 with rows (1,a), (2,b),
    (3,c), the ids are 1 and 2 and the block holds the two tuples (1,a) and
    (2,b); for tags (label character varying, id int) capped at 2 with rows
    (x,10), (y,20), (z,30), the ids are 10 and 20, taken from the second
    column. *)
Theorem sampled_dump_captures_ids :
  (forall (db : Database) (self : nat) (w w' : World) (n : nat),
      limit (heap w !!! self) = Some n ->
      dump db self w = (Ok tt, w') ->
      exists cols all_rows captured tuples,
        let i := ididx_view cols (heap w !!! self) in
        columns_view db (heap w !!! self) = Ok cols
        /\ rows_of db (name (heap w !!! self)) = Some all_rows
        /\ ids (heap w' !!! self) = Some captured
        /\ length captured <= n
        /\ Forall2 (fun r v => r !! i = Some v) (take n all_rows) captured
        /\ (_ididx (heap w !!! self) = None -> "id" ∈ cols ->
            cols !! i = Some "id" /\ forall j, j < i -> cols !! j <> Some "id")
        /\ Forall2 (fun r s => _mogrify_row (heap w' !!! self) r = Ok s)
                   (take n all_rows) tuples
        /\ outfile w' =
             (outfile w
                ++ insert_header (name (heap w !!! self)) (column_list cols)
                :: values_block (length (take n all_rows)) 1 tuples ++ [nl])%list)
  /\ (let w' := snd (dump Demo.db 0 (Demo.world_of Demo.users)) in
      fst (dump Demo.db 0 (Demo.world_of Demo.users)) = Ok tt
      /\ ids (heap w' !!! 0) = Some [PyInt 1; PyInt 2]
      /\ outfile w' =
           [insert_header "users" (dq +:+ "id" +:+ dq +:+ "," +:+ dq +:+ "name" +:+ dq);
            "(1,a)"; "," +:+ nl; "(2,b)"; ";" +:+ nl; nl])
  /\ (let w' := snd (dump DemoTags.db 0 (Demo.world_of DemoTags.tags)) in
      fst (dump DemoTags.db 0 (Demo.world_of DemoTags.tags)) = Ok tt
      /\ ids (heap w' !!! 0) = Some [PyInt 10; PyInt 20]
      /\ outfile w' =
           [insert_header "tags" (dq +:+ "label" +:+ dq +:+ "," +:+ dq +:+ "id" +:+ dq);
            "('x',10)"; "," +:+ nl; "('y',20)"; ";" +:+ nl; nl]).
Proof.
  split; [|split].
  - intros db self w w' n Hlimit Hrun.
    destruct (columns_view db (heap w !!! self)) as [cols|e] eqn:Hview.
    2:{ unfold dump, bind in Hrun. by rewrite (columns_fails _ _ _ _ Hview) in Hrun. }
    destruct (dump_sampled_ok db self w w' n cols Hlimit Hview Hrun)
      as (all_rows & captured & tuples & Hrows & Hids & Hvs & Htuples & Hout).
    exists cols, all_rows, captured, tuples. cbn zeta. split_and!; try done.
    + rewrite <- (Forall2_length _ _ _ Hvs), length_take. lia.
    + intros Hnone Hid. unfold ididx_view. rewrite Hnone.
      destruct (scan_id_found cols 0 Hid) as (k & -> & Hat & Hbefore). by split.
  - vm_compute. split; [reflexivity|split; reflexivity].
  - vm_compute. split; [reflexivity|split; reflexivity].
Qed.

Lemma sampled_dump_captures_ids_witness :
  exists cols all_rows captured tuples,
    let i := ididx_view cols (heap (Demo.world_of DemoTags.tags) !!! 0) in
    columns_view DemoTags.db (heap (Demo.world_of DemoTags.tags) !!! 0) = Ok cols
    /\ rows_of DemoTags.db (name (heap (Demo.world_of DemoTags.tags) !!! 0)) = Some all_rows
    /\ ids (heap (snd (dump DemoTags.db 0 (Demo.world_of DemoTags.tags))) !!! 0)
       = Some captured
    /\ length captured <= 2
    /\ Forall2 (fun r v => r !! i = Some v) (take 2 all_rows) captured
    /\ (_ididx (heap (Demo.world_of DemoTags.tags) !!! 0) = None -> "id" ∈ cols ->
        cols !! i = Some "id" /\ forall j, j < i -> cols !! j <> Some "id")
    /\ Forall2 (fun r s =>
                  _mogrify_row
                    (heap (snd (dump DemoTags.db 0 (Demo.world_of DemoTags.tags))) !!! 0) r
                  = Ok s)
               (take 2 all_rows) tuples
    /\ outfile (snd (dump DemoTags.db 0 (Demo.world_of DemoTags.tags))) =
         (outfile (Demo.world_of DemoTags.tags)
            ++ insert_header (name (heap (Demo.world_of DemoTags.tags) !!! 0))
                             (column_list cols)
            :: values_block (length (take 2 all_rows)) 1 tuples ++ [nl])%list.
Proof.
  apply (proj1 sampled_dump_captures_ids DemoTags.db 0 (Demo.world_of DemoTags.tags)
           (snd (dump DemoTags.db 0 (Demo.world_of DemoTags.tags))) 2);
    vm_compute; reflexivity.
Defined.

(** ** The referential filter *)

Lemma preserved_refl (db : Database) (w : World) : preserved db w w.
Proof. by intros x. Qed.

Lemma preserved_trans (db : Database) (w1 w2 w3 : World) :
  preserved db w1 w2 -> preserved db w2 w3 -> preserved db w1 w3.
Proof.
  intros H12 H23 x. destruct (H12 x) as (<- & <- & <- & <-). apply H23.
Qed.

Lemma attachment_preserved (db : Database) (w w' : World) (n : string)
    (v : list pyvalue) (x : nat) :
  preserved db w w' -> attachment db n v (heap w' !!! x) = attachment db n v (heap w !!! x).
Proof. intros H. unfold attachment. by destruct (H x) as (_ & _ & _ & ->). Qed.

Lemma columns_ok_preserved (db : Database) (self : nat) (w : World) (cols : list string) :
  columns_view db (heap w !!! self) = Ok cols ->
  exists w0,
    columns db self w = (Ok cols, w0)
    /\ preserved db w w0 /\ outfile w0 = outfile w /\ trace w0 = trace w
    /\ forall x, _foreign_tables (heap w0 !!! x) = _foreign_tables (heap w !!! x).
Proof.
  intros Hview.
  destruct (columns_ok db self w cols Hview)
    as (w0 & Hc & Hout & Htr & _ & Hother & Hcols & Hname & Hlim & Hids & Hft & _).
  exists w0. split_and!; try done.
  - intros x. destruct (decide (x = self)) as [->|Hne]; [|by rewrite Hother].
    split_and!; try done. rewrite Hview. unfold columns_view. by rewrite Hcols.
  - intros x. destruct (decide (x = self)) as [->|Hne]; [done|]. by rewrite Hother.
Qed.

Lemma poke_foreign_tables_preserved (db : Database) (self : nat)
    (d : list (string * list pyvalue)) (w : World) :
  preserved db w (poke self (set_foreign_tables d) w).
Proof.
  intros x. destruct (decide (x = self)) as [->|Hne].
  - by rewrite poke_self.
  - by rewrite poke_other.
Qed.

Lemma attach_to_run (db : Database) (s : nat) (n : string) (v : list pyvalue)
    (f : nat) (w : World) (cols : list string) :
  name (heap w !!! s) = n -> ids (heap w !!! s) = Some v ->
  columns_view db (heap w !!! f) = Ok cols ->
  n ∉ (_foreign_tables (heap w !!! f)).*1 ->
  exists w',
    attach_to db s (n +:+ "_id") f w = (Ok tt, w')
    /\ preserved db w w' /\ outfile w' = outfile w /\ trace w' = trace w
    /\ forall x, _foreign_tables (heap w' !!! x) =
                   (_foreign_tables (heap w !!! x)
                      ++ if bool_decide (x = f) then attachment db n v (heap w !!! x) else [])%list.
Proof.
  intros Hn Hv Hview Hfresh.
  destruct (columns_ok_preserved db f w cols Hview) as (w0 & Hc & Hpres & Hout & Htr & Hft).
  unfold attach_to, bind. rewrite Hc.
  destruct (bool_decide (n +:+ "_id" ∈ cols)) eqn:Hin.
  - unfold getT. destruct (Hpres s) as (-> & -> & _). rewrite Hn, Hv.
    rewrite add_foreign_table_run, Hft.
    rewrite bool_decide_eq_false_2 by done.
    eexists. split; [reflexivity|]. split_and!; try done.
    + eapply preserved_trans; [exact Hpres|]. apply poke_foreign_tables_preserved.
    + intros x. destruct (decide (x = f)) as [->|Hx].
      * rewrite bool_decide_eq_true_2 by done.
        rewrite poke_self. simpl. unfold attachment. by rewrite Hview, Hin.
      * rewrite bool_decide_eq_false_2 by done.
        rewrite poke_other by done. by rewrite Hft, app_nil_r.
  - exists w0. split_and!; try done.
    intros x. rewrite Hft. destruct (decide (x = f)) as [->|Hx].
    + rewrite bool_decide_eq_true_2 by done.
      unfold attachment. by rewrite Hview, Hin, app_nil_r.
    + rewrite bool_decide_eq_false_2 by done. by rewrite app_nil_r.
Qed.

Lemma attach_loop (db : Database) (s : nat) (n : string) (v : list pyvalue)
    (fs : list nat) :
  NoDup fs -> forall w,
    name (heap w !!! s) = n -> ids (heap w !!! s) = Some v ->
    (forall f, f ∈ fs -> exists cols, columns_view db (heap w !!! f) = Ok cols) ->
    (forall f, f ∈ fs -> n ∉ (_foreign_tables (heap w !!! f)).*1) ->
    exists w',
      for_each fs (attach_to db s (n +:+ "_id")) w = (Ok tt, w')
      /\ preserved db w w' /\ outfile w' = outfile w /\ trace w' = trace w
      /\ forall x, _foreign_tables (heap w' !!! x) =
                     (_foreign_tables (heap w !!! x)
                        ++ if bool_decide (x ∈ fs) then attachment db n v (heap w !!! x)
                           else [])%list.
Proof.
  induction 1 as [|f fs Hnotin Hnodup IH]; intros w Hn Hv Hviews Hfresh.
  - exists w. split_and!; [done|apply preserved_refl|done|done|].
    intros x. by rewrite app_nil_r.
  - destruct (Hviews f) as [cols Hview]; [by left|].
    destruct (attach_to_run db s n v f w cols Hn Hv Hview) as (w1 & Hrun & Hpres & Hout & Htr & Hft).
    { apply Hfresh. by left. }
    assert (forall f', f' ∈ fs -> f' <> f) as Hne by (intros f' Hf' ->; done).
    destruct (IH w1) as (w' & Hrest & Hpres' & Hout' & Htr' & Hft').
    { by destruct (Hpres s) as (-> & _). }
    { by destruct (Hpres s) as (_ & -> & _). }
    { intros f' Hf'. destruct (Hviews f') as [cols' Hcols']; [by right|].
      exists cols'. by destruct (Hpres f') as (_ & _ & _ & ->). }
    { intros f' Hf'. rewrite Hft. rewrite bool_decide_eq_false_2 by auto.
      rewrite app_nil_r. apply Hfresh. by right. }
    exists w'. simpl. unfold bind. rewrite Hrun. split; [done|].
    split; [by eapply preserved_trans|]. split; [congruence|]. split; [congruence|].
    intros x. rewrite Hft', Hft, (attachment_preserved db w w1) by done.
    rewrite <- app_assoc. f_equal.
    destruct (decide (x = f)) as [->|Hxf].
    + rewrite (bool_decide_eq_false_2 (f ∈ fs)) by done.
      rewrite !bool_decide_eq_true_2; [by rewrite app_nil_r|by left|done].
    + rewrite (bool_decide_eq_false_2 (x = f)) by done. simpl.
      rewrite (bool_decide_ext (x ∈ f :: fs) (x ∈ fs)); [done|].
      rewrite elem_of_cons. split; [by intros [?|?]|by right].
Qed.

Lemma attachments_preserved (db : Database) (w w' : World) (sampled : list nat) (x : nat) :
  preserved db w w' ->
  attachments db w' sampled (heap w' !!! x) = attachments db w sampled (heap w !!! x).
Proof.
  intros H. unfold attachments. induction sampled as [|s ss IH]; simpl; [done|].
  rewrite IH. f_equal. destruct (H s) as (-> & -> & _).
  by apply attachment_preserved.
Qed.

Lemma attachment_keys (db : Database) (n : string) (v : list pyvalue) (t : Table)
    (k : string) :
  k ∈ (attachment db n v t).*1 -> k = n.
Proof.
  unfold attachment. destruct (columns_view db t) as [cols|]; [|by intros ?%elem_of_nil].
  destruct (bool_decide (n +:+ "_id" ∈ cols)); [|by intros ?%elem_of_nil].
  simpl. by intros ?%list_elem_of_singleton.
Qed.

Lemma set_sampled_ids_unfold (db : Database) (sampled full : list nat) :
  set_sampled_ids db sampled full =
    (mark EvFilter ;;
     for_each sampled (fun st =>
       let* s := getT st in for_each full (attach_to db st (name s +:+ "_id")))).
Proof. reflexivity. Qed.

Lemma filter_loop (db : Database) (full : list nat) :
  NoDup full -> forall sampled w,
    NoDup (map (fun s => name (heap w !!! s)) sampled) ->
    (forall s, s ∈ sampled -> is_Some (ids (heap w !!! s))) ->
    (forall f, f ∈ full -> exists cols, columns_view db (heap w !!! f) = Ok cols) ->
    (forall f s, f ∈ full -> s ∈ sampled ->
                 name (heap w !!! s) ∉ (_foreign_tables (heap w !!! f)).*1) ->
    exists w',
      for_each sampled (fun st =>
        let* s := getT st in for_each full (attach_to db st (name s +:+ "_id"))) w
        = (Ok tt, w')
      /\ preserved db w w' /\ outfile w' = outfile w /\ trace w' = trace w
      /\ forall x, x ∈ full ->
           _foreign_tables (heap w' !!! x) =
             (_foreign_tables (heap w !!! x) ++ attachments db w sampled (heap w !!! x))%list.
Proof.
  intros Hfull. induction sampled as [|s ss IH]; intros w Hnames Hids Hviews Hfresh.
  - exists w. split_and!; [done|apply preserved_refl|done|done|].
    intros x _. unfold attachments. simpl. by rewrite app_nil_r.
  - simpl in Hnames. apply NoDup_cons in Hnames as [Hs Hnames].
    destruct (Hids s) as [v Hv]; [by left|].
    destruct (attach_loop db s (name (heap w !!! s)) v full Hfull w eq_refl Hv Hviews)
      as (w1 & Hrun & Hpres & Hout & Htr & Hft).
    { intros f Hf. apply Hfresh; [done|by left]. }
    assert (map (fun s' => name (heap w1 !!! s')) ss
            = map (fun s' => name (heap w !!! s')) ss) as Hsame.
    { apply map_ext. intros s'. by destruct (Hpres s') as (-> & _). }
    destruct (IH w1) as (w' & Hrest & Hpres' & Hout' & Htr' & Hft').
    { by rewrite Hsame. }
    { intros s' Hs'. destruct (Hpres s') as (_ & -> & _). apply Hids. by right. }
    { intros f Hf. destruct (Hviews f Hf) as [cols Hcols].
      exists cols. by destruct (Hpres f) as (_ & _ & _ & ->). }
    { intros f s' Hf Hs'. rewrite Hft, fmap_app, not_elem_of_app.
      destruct (Hpres s') as (-> & _). split; [apply Hfresh; [done|by right]|].
      rewrite bool_decide_eq_true_2 by done.
      intros Heq%attachment_keys. apply Hs. rewrite <- Heq.
      apply list_elem_of_In, in_map_iff. exists s'. split; [done|].
      by apply list_elem_of_In. }
    exists w'. simpl. unfold bind at 1. unfold getT at 1. unfold bind at 1.
    rewrite Hrun. split; [done|].
    split; [by eapply preserved_trans|]. split; [congruence|]. split; [congruence|].
    intros x Hx. rewrite (Hft' x Hx), Hft, (attachments_preserved db w w1) by done.
    rewrite bool_decide_eq_true_2 by done.
    rewrite <- app_assoc. unfold attachments. simpl. by rewrite Hv.
Qed.

Lemma dict_get_attachments_absent (db : Database) (w : World) (sampled : list nat)
    (t : Table) (k : string) :
  k ∉ map (fun s => name (heap w !!! s)) sampled ->
  dict_get k (attachments db w sampled t) = None.
Proof.
  intros Hk. apply dict_get_None. intros Hin. apply Hk. clear Hk.
  unfold attachments in Hin. induction sampled as [|s ss IH]; simpl in *.
  - by apply elem_of_nil in Hin.
  - rewrite fmap_app in Hin. apply elem_of_app in Hin as [Hin|Hin].
    + apply attachment_keys in Hin as ->. by left.
    + right. by apply IH.
Qed.

Lemma dict_get_attachments (db : Database) (w : World) (sampled : list nat)
    (t : Table) (cols : list string) (s : nat) :
  NoDup (map (fun s => name (heap w !!! s)) sampled) ->
  s ∈ sampled ->
  columns_view db t = Ok cols ->
  dict_get (name (heap w !!! s)) (attachments db w sampled t) =
    if bool_decide (name (heap w !!! s) +:+ "_id" ∈ cols)
    then Some (default [] (ids (heap w !!! s))) else None.
Proof.
  intros Hnames Hs Hview. induction sampled as [|s' ss IH]; [by apply elem_of_nil in Hs|].
  simpl in Hnames. apply NoDup_cons in Hnames as [Hs' Hnames].
  change (attachments db w (s' :: ss) t)
    with (attachment db (name (heap w !!! s')) (default [] (ids (heap w !!! s'))) t
            ++ attachments db w ss t)%list.
  rewrite dict_get_app. unfold attachment at 1. rewrite Hview.
  destruct (decide (name (heap w !!! s) = name (heap w !!! s'))) as [Heq|Hne].
  - rewrite <- !Heq in *.
    assert (s ∉ ss) as Hnotin.
    { intros Hin. apply Hs'. apply list_elem_of_In, in_map_iff.
      exists s. split; [done|]. by apply list_elem_of_In. }
    apply elem_of_cons in Hs as [->|Hs]; [|done].
    destruct (bool_decide (name (heap w !!! s') +:+ "_id" ∈ cols)).
    + simpl. by rewrite String.eqb_refl.
    + simpl. by apply dict_get_attachments_absent.
  - apply elem_of_cons in Hs as [->|Hs]; [done|].
    rewrite <- (IH Hnames Hs).
    destruct (bool_decide (name (heap w !!! s') +:+ "_id" ∈ cols)); [|done].
    simpl. apply String.eqb_neq in Hne. by rewrite Hne.
Qed.

(** C2: run on sampled tables with distinct names whose ids have been
    captured, and on distinct full tables that carry no restriction yet and
    whose columns the catalog can list, the referential filter returns
    normally; afterwards, for every sampled table S and every full table F,
    the restrictions of F map the name of S to the captured ids of S exactly
    when the column list of F holds the string made of the name of S and
    _id, and hold no entry for S otherwise. *)
Theorem set_sampled_ids_attaches (db : Database) (sampled full : list nat) (w : World) :
  NoDup full ->
  NoDup (map (fun s => name (heap w !!! s)) sampled) ->
  (forall s, s ∈ sampled -> is_Some (ids (heap w !!! s))) ->
  (forall f, f ∈ full ->
     _foreign_tables (heap w !!! f) = []
     /\ exists cols, columns_view db (heap w !!! f) = Ok cols) ->
  exists w',
    set_sampled_ids db sampled full w = (Ok tt, w')
    /\ forall s f, s ∈ sampled -> f ∈ full ->
         exists cols captured,
           columns_view db (heap w' !!! f) = Ok cols
           /\ name (heap w' !!! s) = name (heap w !!! s)
           /\ ids (heap w' !!! s) = Some captured
           /\ ids (heap w !!! s) = Some captured
           /\ (dict_get (name (heap w' !!! s)) (_foreign_tables (heap w' !!! f))
                 = Some captured
               <-> name (heap w' !!! s) +:+ "_id" ∈ cols)
           /\ (name (heap w' !!! s) +:+ "_id" ∉ cols ->
               dict_get (name (heap w' !!! s)) (_foreign_tables (heap w' !!! f)) = None).
Proof.
  intros Hfull Hnames Hids Hfresh.
  destruct (filter_loop db full Hfull sampled
              {| heap := heap w; next := next w; outfile := outfile w;
                 trace := (trace w ++ [EvFilter])%list |})
    as (w' & Hrun & Hpres & _ & _ & Hft); simpl; try done.
  { intros f Hf. by destruct (Hfresh f Hf). }
  { intros f s Hf _. destruct (Hfresh f Hf) as [-> _]. apply not_elem_of_nil. }
  exists w'. split.
  { rewrite set_sampled_ids_unfold. unfold bind at 1, mark. exact Hrun. }
  intros s f Hs Hf. simpl in *.
  destruct (Hfresh f Hf) as [Hempty [cols Hcols]].
  destruct (Hids s Hs) as [captured Hcaptured].
  destruct (Hpres s) as (Hname & Hids' & _). destruct (Hpres f) as (_ & _ & _ & Hview).
  simpl in *. exists cols, captured.
  rewrite Hname, Hids', Hview, (Hft f Hf), Hempty. simpl.
  unfold attachments. simpl.
  pose proof (dict_get_attachments db
                {| heap := heap w; next := next w; outfile := outfile w;
                   trace := (trace w ++ [EvFilter])%list |}
                sampled (heap w !!! f) cols s Hnames Hs Hcols) as Hget.
  unfold attachments in Hget. simpl in Hget. rewrite Hget, Hcaptured. simpl.
  split_and!; try done.
  - case_bool_decide; split; try done.
  - intros Hout. by rewrite bool_decide_eq_false_2.
Qed.

Lemma set_sampled_ids_attaches_witness :
  exists w',
    set_sampled_ids Demo.db [2] [0; 1] DemoFilter.w = (Ok tt, w')
    /\ forall s f, s ∈ [2] -> f ∈ [0; 1] ->
         exists cols captured,
           columns_view Demo.db (heap w' !!! f) = Ok cols
           /\ name (heap w' !!! s) = name (heap DemoFilter.w !!! s)
           /\ ids (heap w' !!! s) = Some captured
           /\ ids (heap DemoFilter.w !!! s) = Some captured
           /\ (dict_get (name (heap w' !!! s)) (_foreign_tables (heap w' !!! f))
                 = Some captured
               <-> name (heap w' !!! s) +:+ "_id" ∈ cols)
           /\ (name (heap w' !!! s) +:+ "_id" ∉ cols ->
               dict_get (name (heap w' !!! s)) (_foreign_tables (heap w' !!! f)) = None).
Proof.
  apply (set_sampled_ids_attaches Demo.db [2] [0; 1] DemoFilter.w).
  - apply (bool_decide_unpack _). vm_compute. exact I.
  - apply (bool_decide_unpack _). vm_compute. exact I.
  - intros s ->%list_elem_of_singleton. vm_compute. eauto.
  - intros f [->|Hf]%elem_of_cons; [|apply list_elem_of_singleton in Hf as ->];
      vm_compute; eauto.
Defined.

(** the filter on that heap: orders, which has the column users_id, is
    restricted to the two captured ids; logs is not *)
Example set_sampled_ids_demo :
  let w' := snd (set_sampled_ids Demo.db [2] [0; 1] DemoFilter.w) in
  _foreign_tables (heap w' !!! 0) = [("users", [PyInt 1; PyInt 2])]
  /\ _foreign_tables (heap w' !!! 1) = []
  /\ _build_where_clause (heap w' !!! 0) = "WHERE users_id in (1, 2)".
Proof. vm_compute. split; [reflexivity|split; reflexivity]. Qed.

(** ** The phases of a run *)

Section Logs.

Variable K : nat -> string * option nat.

Lemma logs_ret {A} (a : A) : logs K (ret a) [].
Proof. intros w HK. split; [done|]. exists []. by rewrite app_nil_r. Qed.

Lemma logs_raise {A} (e : exn) : logs K (raise (A := A) e) [].
Proof.
  intros w HK. split; [done|]. exists []. rewrite app_nil_r.
  split; [done|]. apply prefix_nil.
Qed.

Lemma logs_lift {A} (r : result A) : logs K (lift r) [].
Proof.
  intros w HK. split; [done|]. exists []. rewrite app_nil_r. split; [done|].
  destruct r; [done|apply prefix_nil].
Qed.

Lemma logs_answer {A} (o : option A) : logs K (answer o) [].
Proof. apply logs_lift. Qed.

Lemma logs_write (s : string) : logs K (write s) [].
Proof. intros w HK. split; [done|]. exists []. by rewrite app_nil_r. Qed.

Lemma logs_mark (e : event) : logs K (mark e) [e].
Proof. intros w HK. split; [done|]. by exists [e]. Qed.

Lemma logs_setattr (self : nat) (f : Table -> Table) :
  (forall t, name (f t) = name t /\ limit (f t) = limit t) ->
  logs K (setattr self f) [].
Proof.
  intros Hf w HK. rewrite setattr_run. split.
  - intros x. rewrite <- HK. unfold kind. cbn [snd].
    destruct (decide (x = self)) as [->|Hne].
    + rewrite poke_self. by destruct (Hf (heap w !!! self)) as [-> ->].
    + by rewrite poke_other.
  - exists []. by rewrite app_nil_r.
Qed.

Lemma logs_bind {A B} (m : M A) (k : A -> M B) (e1 e2 : list event) :
  logs K m e1 -> (forall a, logs K (k a) e2) -> logs K (bind m k) (e1 ++ e2).
Proof.
  intros Hm Hk w HK. unfold bind.
  destruct (Hm w HK) as (HK1 & l1 & Htr1 & Hl1).
  destruct (m w) as [[a|e] w1]; simpl in *.
  - destruct (Hk a w1 HK1) as (HK2 & l2 & Htr2 & Hl2).
    split; [done|]. exists (l1 ++ l2)%list. rewrite Htr2, Htr1, app_assoc.
    split; [done|]. subst l1.
    destruct (fst (k a w1)); [by subst|by apply prefix_app].
  - split; [done|]. exists l1. split; [done|]. by apply prefix_app_r.
Qed.

Lemma logs_silent_bind {A B} (m : M A) (k : A -> M B) (evs : list event) :
  logs K m [] -> (forall a, logs K (k a) evs) -> logs K (bind m k) evs.
Proof. intros Hm Hk. by apply (logs_bind m k [] evs). Qed.

(** reading an object shows the kind that [K] records *)
Lemma logs_getT {B} (self : nat) (k : Table -> M B) (evs : list event) :
  (forall t, (name t, limit t) = K self -> logs K (k t) evs) ->
  logs K (bind (getT self) k) evs.
Proof.
  intros Hk w HK. unfold bind, getT. apply Hk; [|done]. apply (HK self).
Qed.


Lemma logs_for_each_silent {A} (l : list A) (body : A -> M unit) :
  (forall x, logs K (body x) []) -> logs K (for_each l body) [].
Proof.
  intros Hbody. induction l as [|x l IH]; simpl.
  - apply logs_ret.
  - apply logs_silent_bind; [apply Hbody|]. intros _. apply IH.
Qed.

Variable db : Database.

Lemma logs_columns (self : nat) : logs K (columns db self) [].
Proof.
  unfold columns. apply logs_getT. intros t _.
  destruct (_columns t); [apply logs_ret|].
  apply logs_silent_bind; [apply logs_answer|]. intros rows.
  apply logs_silent_bind; [by apply logs_setattr|]. intros _. apply logs_ret.
Qed.

Lemma logs_foreign_key_constraints (self : nat) :
  logs K (foreign_key_constraints db self) [].
Proof.
  unfold foreign_key_constraints. apply logs_getT. intros t _.
  destruct (_foreign_keys t); [apply logs_ret|].
  apply logs_silent_bind; [apply logs_answer|]. intros rows.
  apply logs_silent_bind; [by apply logs_setattr|]. intros _. apply logs_ret.
Qed.

Lemma logs_ididx (self : nat) : logs K (ididx db self) [].
Proof.
  unfold ididx. apply logs_getT. intros t _.
  destruct (_ididx t); [apply logs_ret|].
  apply logs_silent_bind; [by apply logs_setattr|]. intros _.
  apply logs_silent_bind; [apply logs_columns|]. intros cols.
  apply logs_silent_bind; [by apply logs_setattr|]. intros _. apply logs_ret.
Qed.

Lemma logs_insert_rows (self rowcount : nat) (rows : list row) :
  forall k acc, logs K (insert_rows db self rowcount rows k acc) [].
Proof.
  induction rows as [|r rows IH]; intros k acc; simpl; [apply logs_ret|].
  apply logs_silent_bind; [apply logs_ididx|]. intros i.
  apply logs_silent_bind; [apply logs_lift|]. intros v.
  apply logs_getT. intros t _.
  apply logs_silent_bind; [apply logs_lift|]. intros s.
  apply logs_silent_bind; [apply logs_write|]. intros _.
  apply logs_silent_bind; [apply logs_write|]. intros _. apply IH.
Qed.

Lemma logs_select_and_insert (self : nat) (columns : string) :
  logs K (_select_and_insert db self columns) [EvInsert self].
Proof.
  unfold _select_and_insert.
  apply (logs_bind _ _ [EvInsert self] []); [apply logs_mark|]. intros _.
  apply logs_getT. intros t _.
  apply logs_silent_bind; [apply logs_write|]. intros _.
  apply logs_getT. intros t' _.
  apply logs_silent_bind.
  { unfold cursor_select. destruct (limit t'); [|apply logs_raise].
    apply logs_silent_bind; [apply logs_answer|]. intros rows. apply logs_ret. }
  intros rows. apply logs_silent_bind; [apply logs_insert_rows|]. intros ids.
  apply logs_silent_bind; [apply logs_write|]. intros _. apply logs_ret.
Qed.

Lemma logs_copy (self : nat) (columns : string) :
  logs K (_copy db self columns) [EvCopy self].
Proof.
  unfold _copy.
  apply (logs_bind _ _ [EvCopy self] []); [apply logs_mark|]. intros _.
  apply logs_getT. intros t _.
  apply logs_silent_bind; [apply logs_write|]. intros _.
  apply logs_getT. intros t' _.
  apply logs_silent_bind; [apply logs_answer|]. intros payload.
  apply logs_silent_bind; [apply logs_write|]. intros _. apply logs_write.
Qed.

(** a dump is a sampled dump or a full dump according to the kind *)
Lemma logs_dump (self : nat) :
  logs K (dump db self)
       [match snd (K self) with Some _ => EvInsert self | None => EvCopy self end].
Proof.
  unfold dump. apply logs_silent_bind; [apply logs_columns|]. intros cols.
  apply logs_getT. intros t <-. simpl. destruct (limit t).
  - apply (logs_bind _ _ [EvInsert self] []); [apply logs_select_and_insert|].
    intros ids. by apply logs_setattr.
  - apply logs_copy.
Qed.

Lemma logs_drop_foreign_key_constraints (self : nat) :
  logs K (drop_foreign_key_constraints db self) [EvDropFks self].
Proof.
  unfold drop_foreign_key_constraints.
  apply (logs_bind _ _ [EvDropFks self] []); [apply logs_mark|]. intros _.
  apply logs_silent_bind; [apply logs_foreign_key_constraints|]. intros fks.
  apply logs_silent_bind; [|intros _; apply logs_write].
  apply logs_for_each_silent. intros fk. apply logs_write.
Qed.

Lemma logs_create_foreign_key_constraints (self : nat) :
  logs K (create_foreign_key_constraints db self) [EvCreateFks self].
Proof.
  unfold create_foreign_key_constraints.
  apply (logs_bind _ _ [EvCreateFks self] []); [apply logs_mark|]. intros _.
  apply logs_silent_bind; [apply logs_foreign_key_constraints|]. intros fks.
  apply logs_silent_bind; [|intros _; apply logs_write].
  apply logs_for_each_silent. intros fk. apply logs_write.
Qed.

Lemma logs_add_foreign_table (self : nat) (n : string) (v : option (list pyvalue)) :
  logs K (add_foreign_table self n v) [].
Proof.
  unfold add_foreign_table. apply logs_getT. intros t _.
  destruct (bool_decide (n ∈ (_foreign_tables t).*1)); [apply logs_raise|].
  destruct v; [|apply logs_raise]. by apply logs_setattr.
Qed.

Lemma logs_set_sampled_ids (sampled full : list nat) :
  logs K (set_sampled_ids db sampled full) [EvFilter].
Proof.
  unfold set_sampled_ids.
  apply (logs_bind _ _ [EvFilter] []); [apply logs_mark|]. intros _.
  apply logs_for_each_silent. intros st. apply logs_getT. intros s _.
  apply logs_for_each_silent. intros t.
  apply logs_silent_bind; [apply logs_columns|]. intros cols.
  destruct (bool_decide (name s +:+ "_id" ∈ cols)); [|apply logs_ret].
  apply logs_getT. intros s' _. apply logs_add_foreign_table.
Qed.

End Logs.

(** *** Discovery *)

Lemma new_each_run (ts : list Table) :
  forall w, exists w',
    new_each ts w = (Ok (seq (next w) (length ts)), w')
    /\ next w' = next w + length ts
    /\ trace w' = trace w /\ outfile w' = outfile w
    /\ (forall i t, ts !! i = Some t -> heap w' !!! (next w + i) = t)
    /\ (forall x, x < next w -> heap w' !!! x = heap w !!! x).
Proof.
  induction ts as [|t ts IH]; intros w.
  - exists w. simpl. split_and!; try done; lia.
  - simpl. unfold bind, new. simpl.
    destruct (IH {| heap := <[next w := t]> (heap w); next := S (next w);
                    outfile := outfile w; trace := trace w |})
      as (w' & Hrun & Hnext & Htr & Hout & Hnew & Hold). simpl in *.
    rewrite Hrun. exists w'. split_and!; try done.
    + lia.
    + intros [|i] t' Ht'; simpl in Ht'.
      * injection Ht' as <-. rewrite Nat.add_0_r, Hold by lia.
        apply lookup_total_insert_eq.
      * replace (next w + S i) with (S (next w + i)) by lia. by apply Hnew.
    + intros x Hx. rewrite Hold by lia. apply lookup_total_insert_ne. lia.
Qed.



(** *** What the phases write *)

Lemma bind_ok {A B} (m : M A) (k : A -> M B) (w : World) (b : B) (w' : World) :
  bind m k w = (Ok b, w') -> exists a w1, m w = (Ok a, w1) /\ k a w1 = (Ok b, w').
Proof. unfold bind. destruct (m w) as [[a|e] w1]; [eauto|done]. Qed.

Lemma quiet_ret {A} (a : A) : quiet (ret a).
Proof. by intros w. Qed.

Lemma quiet_raise {A} (e : exn) : quiet (raise (A := A) e).
Proof. by intros w. Qed.

Lemma quiet_lift {A} (r : result A) : quiet (lift r).
Proof. by intros w. Qed.

Lemma quiet_getT (self : nat) : quiet (getT self).
Proof. by intros w. Qed.

Lemma quiet_setattr (self : nat) (f : Table -> Table) : quiet (setattr self f).
Proof. by intros w. Qed.

Lemma quiet_mark (e : event) : quiet (mark e).
Proof. by intros w. Qed.

Lemma quiet_bind {A B} (m : M A) (k : A -> M B) :
  quiet m -> (forall a, quiet (k a)) -> quiet (bind m k).
Proof.
  intros Hm Hk w. unfold bind. specialize (Hm w).
  destruct (m w) as [[a|e] w1]; simpl in *; [|done].
  by rewrite Hk.
Qed.


Lemma quiet_columns (db : Database) (self : nat) : quiet (columns db self).
Proof.
  unfold columns. apply quiet_bind; [apply quiet_getT|]. intros t.
  destruct (_columns t); [apply quiet_ret|].
  apply quiet_bind; [apply quiet_lift|]. intros rows.
  apply quiet_bind; [apply quiet_setattr|]. intros _. apply quiet_ret.
Qed.

Lemma quiet_foreign_key_constraints (db : Database) (self : nat) :
  quiet (foreign_key_constraints db self).
Proof.
  unfold foreign_key_constraints. apply quiet_bind; [apply quiet_getT|]. intros t.
  destruct (_foreign_keys t); [apply quiet_ret|].
  apply quiet_bind; [apply quiet_lift|]. intros rows.
  apply quiet_bind; [apply quiet_setattr|]. intros _. apply quiet_ret.
Qed.



Lemma for_each_write {A} (f : A -> string) (l : list A) (w : World) :
  for_each l (fun x => write (f x)) w =
    (Ok tt, {| heap := heap w; next := next w;
               outfile := (outfile w ++ map f l)%list; trace := trace w |}).
Proof.
  revert w. induction l as [|x l IH]; intros w; simpl.
  - rewrite app_nil_r. by destruct w.
  - unfold bind, write. rewrite IH. simpl. by rewrite <- app_assoc.
Qed.

(** *** The orchestrator *)

Ltac phase_mem :=
  repeat match goal with
         | H : _ ∈ (_ ++ _)%list |- _ => apply elem_of_app in H as [H|H]
         | H : _ ∈ repeat _ _ |- _ => apply list_elem_of_In, repeat_spec in H
         | H : _ ∈ [_] |- _ => apply list_elem_of_singleton in H
         end;
  lia.

(** along a complete run the phases never go back *)
Lemma plan_phase_order (tables sampled full : list nat) :
  StronglySorted le (phase <$> plan tables sampled full).
Proof.
  assert (forall (ev : nat -> event) (c : nat) (l : list nat),
             (forall x, phase (ev x) = c) -> phase <$> map ev l = repeat c (length l)) as Hconst.
  { intros ev c l Hev. induction l as [|x l IH]; [done|].
    change (phase (ev x) :: (phase <$> map ev l) = c :: repeat c (length l)).
    by rewrite Hev, IH. }
  assert (forall c n, StronglySorted le (repeat c n)) as Hrep.
  { intros c n. induction n as [|n IH]; simpl; constructor; [done|].
    apply Forall_forall. intros y Hy. apply list_elem_of_In, repeat_spec in Hy. lia. }
  unfold plan. rewrite !fmap_app.
  rewrite (Hconst EvDropFks 0), (Hconst EvInsert 1), (Hconst EvCopy 3),
    (Hconst EvCreateFks 4) by done.
  change (phase <$> [EvFilter]) with [2].
  apply StronglySorted_app_2; [intros x1 x2 Hx1 Hx2; phase_mem|apply Hrep|].
  apply StronglySorted_app_2; [intros x1 x2 Hx1 Hx2; phase_mem|apply Hrep|].
  apply StronglySorted_app_2; [intros x1 x2 Hx1 Hx2; phase_mem|repeat constructor|].
  apply StronglySorted_app_2; [intros x1 x2 Hx1 Hx2; phase_mem|apply Hrep..].
Qed.

(** and the filter occurs in it exactly once *)
Lemma plan_filter_once (tables sampled full : list nat) :
  filter (fun e => e = EvFilter) (plan tables sampled full) = [EvFilter].
Proof.
  assert (forall (ev : nat -> event) (l : list nat),
             (forall x, ev x <> EvFilter) -> filter (fun e => e = EvFilter) (map ev l) = [])
    as Hnone.
  { intros ev l Hev. induction l as [|x l IH]; [done|].
    change (map ev (x :: l)) with (ev x :: map ev l).
    by rewrite filter_cons_False. }
  unfold plan. rewrite !filter_app, !Hnone by done. done.
Qed.



(** the run on the demonstration database: orders at 0 and logs at 1 are
    full, users at 2 is sampled *)
Example main_demo_trace :
  fst (main Demo.db (fun l => l) Demo.cfg init_world) = Ok tt
  /\ trace (snd (main Demo.db (fun l => l) Demo.cfg init_world)) =
       [EvDropFks 0; EvDropFks 1; EvDropFks 2; EvInsert 2; EvFilter;
        EvCopy 0; EvCopy 1; EvCreateFks 0; EvCreateFks 1; EvCreateFks 2].
Proof. vm_compute. split; reflexivity. Qed.

(** what that run writes, one list element per call of [outfile.write] *)
Example main_demo_output :
  outfile (snd (main Demo.db (fun l => l) Demo.cfg init_world)) =
    [BEGIN_DUMP "prod";
     "ALTER TABLE ONLY public." +:+ dq +:+ "orders" +:+ dq
       +:+ " DROP CONSTRAINT IF EXISTS orders_users_fk;" +:+ nl;
     nl; nl; nl;
     insert_header "users" (column_list ["id"; "name"]);
     "(1,a)"; "," +:+ nl; "(2,b)"; ";" +:+ nl; nl;
     BEGIN_TABLE_DUMP "orders" (column_list ["id"; "users_id"]);
     "-- rows of: COPY (SELECT " +:+ column_list ["id"; "users_id"] +:+ " FROM public."
       +:+ dq +:+ "orders" +:+ dq +:+ " WHERE users_id in (1, 2)) TO STDOUT" +:+ nl;
     END_TABLE_DUMP;
     BEGIN_TABLE_DUMP "logs" (column_list ["at"; "msg"]);
     "-- rows of: COPY (SELECT " +:+ column_list ["at"; "msg"] +:+ " FROM public."
       +:+ dq +:+ "logs" +:+ dq +:+ " ) TO STDOUT" +:+ nl;
     END_TABLE_DUMP;
     "ALTER TABLE ONLY public." +:+ dq +:+ "orders" +:+ dq
       +:+ " ADD CONSTRAINT orders_users_fk FOREIGN KEY (users_id) REFERENCES users(id);"
       +:+ nl;
     nl; nl; nl;
     END_DUMP].
Proof. vm_compute. reflexivity. Qed.

(** ** Further properties of value rendering *)

(** X1: in a column whose declared type starts with json, a value other
    than None is passed through [json.dumps] and the text is put between
    single quotes; a value that [json.dumps] cannot serialise raises
    TypeError. *)
Theorem render_json_column (self : Table) (coltypes : list string) (colidx : nat)
    (coltype : string) (value : pyvalue) :
  _coltypes self = Some coltypes -> coltypes !! colidx = Some coltype ->
  startswith coltype "json" = true -> value <> PyNone ->
  _stringify_value self value colidx =
    match json_dumps value with
    | Some s => Ok ("'" +:+ s +:+ "'")
    | None => Raise TypeError
    end.
Proof.
  intros Ht Hc Hj Hv. destruct (json_dumps value) as [s|] eqn:Hs.
  - by apply (stringify_json self coltypes colidx coltype).
  - rewrite (stringify_unfold self coltypes colidx coltype) by done.
    by rewrite Hj, Hs, orb_true_r.
Qed.

Lemma render_json_column_witness :
  _stringify_value (set_columns (Some ["doc"]) (Some ["json"]) Demo.logs)
                   (PyList [PyInt 1; PyStr "x"]) 0 =
    match json_dumps (PyList [PyInt 1; PyStr "x"]) with
    | Some s => Ok ("'" +:+ s +:+ "'")
    | None => Raise TypeError
    end.
Proof.
  apply (render_json_column _ ["json"] 0 "json"); [reflexivity..|discriminate].
Defined.

(** X2: in a column whose declared type starts with timestamp, a datetime
    is written as its ISO 8601 text between single quotes, and a bool, an
    int, a string, a list or a dict raises AttributeError, having no
    [isoformat] method. *)
Theorem render_timestamp_column (self : Table) (coltypes : list string) (colidx : nat)
    (coltype : string) (value : pyvalue) :
  _coltypes self = Some coltypes -> coltypes !! colidx = Some coltype ->
  startswith coltype "timestamp" = true -> value <> PyNone ->
  _stringify_value self value colidx =
    match value with
    | PyDatetime d => Ok ("'" +:+ isoformat d +:+ "'")
    | _ => Raise AttributeError
    end.
Proof.
  intros Ht Hc Hts Hv.
  rewrite (stringify_unfold self coltypes colidx coltype) by done.
  rewrite Hts.
  rewrite (startswith_excl _ "t" "c" _ _ ltac:(done) Hts).
  rewrite (startswith_excl _ "t" "g" _ _ ltac:(done) Hts).
  rewrite (startswith_excl _ "t" "j" _ _ ltac:(done) Hts).
  by destruct value.
Qed.

Lemma render_timestamp_column_witness :
  _stringify_value (set_columns (Some ["at"]) (Some ["timestamp with time zone"]) Demo.logs)
                   (PyStr "2020-01-02") 0 =
    match PyStr "2020-01-02" with
    | PyDatetime d => Ok ("'" +:+ isoformat d +:+ "'")
    | _ => Raise AttributeError
    end.
Proof.
  apply (render_timestamp_column _ ["timestamp with time zone"] 0 "timestamp with time zone");
    [reflexivity..|discriminate].
Defined.

(** X3: in a column whose declared type starts with character or
    geography, a value other than None is written as its own text between
    single quotes and nothing is escaped: a string is copied character for
    character, a quote inside it included. *)
Theorem render_character_column (self : Table) (coltypes : list string) (colidx : nat)
    (coltype : string) (value : pyvalue) :
  _coltypes self = Some coltypes -> coltypes !! colidx = Some coltype ->
  startswith coltype "character" || startswith coltype "geography" = true ->
  value <> PyNone ->
  _stringify_value self value colidx = Ok ("'" +:+ str value +:+ "'")
  /\ forall s, value = PyStr s ->
               _stringify_value self value colidx = Ok ("'" +:+ s +:+ "'").
Proof.
  intros Ht Hc Hch Hv.
  rewrite (stringify_character self coltypes colidx coltype) by done.
  split; [done|]. by intros s ->.
Qed.

Lemma render_character_column_witness :
  _stringify_value (set_columns (Some ["msg"]) (Some ["character varying(20)"]) Demo.logs)
                   (PyStr "it's") 0 = Ok ("'" +:+ str (PyStr "it's") +:+ "'")
  /\ forall s, PyStr "it's" = PyStr s ->
               _stringify_value
                 (set_columns (Some ["msg"]) (Some ["character varying(20)"]) Demo.logs)
                 (PyStr "it's") 0 = Ok ("'" +:+ s +:+ "'").
Proof.
  apply (render_character_column _ ["character varying(20)"] 0 "character varying(20)");
    [reflexivity..|discriminate].
Defined.

(** X4: in a column whose declared type starts with none of character,
    geography, json and timestamp, a value other than None is written as
    its own text with no quotes around it. *)
Theorem render_other_column (self : Table) (coltypes : list string) (colidx : nat)
    (coltype : string) (value : pyvalue) :
  _coltypes self = Some coltypes -> coltypes !! colidx = Some coltype ->
  startswith coltype "character" = false -> startswith coltype "geography" = false ->
  startswith coltype "json" = false -> startswith coltype "timestamp" = false ->
  value <> PyNone ->
  _stringify_value self value colidx = Ok (str value).
Proof.
  intros Ht Hc H1 H2 H3 H4 Hv.
  by apply (stringify_other self coltypes colidx coltype).
Qed.

Lemma render_other_column_witness :
  _stringify_value (set_columns (Some ["day"]) (Some ["date"]) Demo.logs)
                   (PyStr "2020-01-02") 0 = Ok (str (PyStr "2020-01-02")).
Proof.
  apply (render_other_column _ ["date"] 0 "date"); [reflexivity..|discriminate].
Defined.

(** the comprehension of [_mogrify_row], value by value *)
Lemma stringify_from_ok (self : Table) (row : row) :
  forall i strs,
    stringify_from self i row = Ok strs ->
    length strs = length row
    /\ forall k v, row !! k = Some v ->
                   exists s, strs !! k = Some s /\ _stringify_value self v (i + k) = Ok s.
Proof.
  induction row as [|v row IH]; intros i strs Hrun; simpl in Hrun.
  - injection Hrun as <-. split; [done|]. intros k v' Hk. by rewrite lookup_nil in Hk.
  - destruct (_stringify_value self v i) as [s|e] eqn:Hs; [|done].
    destruct (stringify_from self (S i) row) as [l|e] eqn:Hl; [|done].
    injection Hrun as <-. destruct (IH (S i) l Hl) as [Hlen Hall].
    split; [simpl; by rewrite Hlen|].
    intros [|k] v' Hk; simpl in Hk.
    + injection Hk as <-. exists s. by rewrite Nat.add_0_r.
    + destruct (Hall k v' Hk) as (s' & Hs' & Hv'). exists s'.
      split; [done|]. by replace (i + S k) with (S i + k) by lia.
Qed.

Lemma stringify_from_fails (self : Table) (row : row) :
  forall i k v e,
    row !! k = Some v -> _stringify_value self v (i + k) = Raise e ->
    exists e', stringify_from self i row = Raise e'.
Proof.
  induction row as [|v0 row IH]; intros i k v e Hk Hv; [by rewrite lookup_nil in Hk|].
  simpl. destruct k as [|k]; simpl in Hk.
  - injection Hk as ->. rewrite Nat.add_0_r in Hv. rewrite Hv. eauto.
  - destruct (_stringify_value self v0 i) as [s|e0]; [|eauto].
    replace (i + S k) with (S i + k) in Hv by lia.
    destruct (IH (S i) k v e Hk Hv) as [e' ->]. eauto.
Qed.

(** X5: a row is rendered column by column: when [_mogrify_row] returns, its
    text is the comma-separated renderings between parentheses, one per
    value and each made with the declared type at the value's own position;
    when the rendering of one value raises, so does that of the row. *)
Theorem mogrify_row_positional (self : Table) (row : row) :
  (forall text, _mogrify_row self row = Ok text ->
     exists strs,
       text = "(" +:+ join "," strs +:+ ")"
       /\ length strs = length row
       /\ forall k v, row !! k = Some v ->
                      exists s, strs !! k = Some s /\ _stringify_value self v k = Ok s)
  /\ (forall k v e, row !! k = Some v -> _stringify_value self v k = Raise e ->
        exists e', _mogrify_row self row = Raise e').
Proof.
  unfold _mogrify_row. split.
  - intros text Hrun.
    destruct (stringify_from self 0 row) as [strs|e] eqn:Hstrs; [|done].
    injection Hrun as <-. exists strs. split; [done|].
    by apply (stringify_from_ok self row 0).
  - intros k v e Hk Hv.
    destruct (stringify_from_fails self row 0 k v e Hk Hv) as [e' ->]. eauto.
Qed.

(** a row of users, and a row one value wider than the declared columns *)
Example mogrify_row_examples :
  let users := set_columns (Some ["id"; "name"]) (Some ["int"; "character varying"])
                           Demo.users in
  _mogrify_row users [PyInt 1; PyStr "a"] = Ok "(1,'a')"
  /\ _mogrify_row users [PyNone; PyNone; PyNone] = Ok "(NULL,NULL,NULL)"
  /\ _mogrify_row users [PyInt 1; PyStr "a"; PyInt 3] = Raise IndexError
  /\ _mogrify_row users [] = Ok "()".
Proof. vm_compute. repeat split. Qed.

Lemma mogrify_row_positional_witness :
  exists strs,
    "(1,'a')" = "(" +:+ join "," strs +:+ ")"
    /\ length strs = length [PyInt 1; PyStr "a"]
    /\ forall k v, [PyInt 1; PyStr "a"] !! k = Some v ->
         exists s, strs !! k = Some s
                   /\ _stringify_value
                        (set_columns (Some ["id"; "name"])
                                     (Some ["int"; "character varying"]) Demo.users)
                        v k = Ok s.
Proof.
  apply (proj1 (mogrify_row_positional
                  (set_columns (Some ["id"; "name"]) (Some ["int"; "character varying"])
                               Demo.users)
                  [PyInt 1; PyStr "a"]) "(1,'a')").
  reflexivity.
Defined.

(** ** Further properties of the catalog caches *)

(** X6: the catalog is asked for the columns of a table object at most
    once: after [columns] has returned, every later read returns the same
    list and leaves the world as it is, whatever the database would now
    answer; and when that first read filled the cache, the declared types
    were stored with it, one per column. *)
Theorem columns_is_cached (db : Database) (self : nat) (w w0 : World)
    (cols : list string) :
  columns db self w = (Ok cols, w0) ->
  (forall db', columns db' self w0 = (Ok cols, w0))
  /\ (_columns (heap w !!! self) = None ->
      exists types, _coltypes (heap w0 !!! self) = Some types
                    /\ length types = length cols).
Proof.
  intros Hrun. rewrite columns_run in Hrun. injection Hrun as Hview <-.
  unfold columns_view in Hview.
  destruct (_columns (heap w !!! self)) as [c|] eqn:Hc.
  - injection Hview as ->. split; [|done]. intros db'. by apply columns_cached.
  - destruct (columns_of db (name (heap w !!! self))) as [rows|]; [|done].
    injection Hview as <-. split.
    + intros db'. apply columns_cached. by rewrite poke_self.
    + intros _. exists (map snd rows). rewrite poke_self. simpl.
      by rewrite !length_map.
Qed.

Lemma columns_is_cached_witness :
  (forall db', columns db' 0 (snd (columns Demo.db 0 (Demo.world_of Demo.users)))
               = (Ok ["id"; "name"], snd (columns Demo.db 0 (Demo.world_of Demo.users))))
  /\ (_columns (heap (Demo.world_of Demo.users) !!! 0) = None ->
      exists types,
        _coltypes (heap (snd (columns Demo.db 0 (Demo.world_of Demo.users))) !!! 0)
          = Some types
        /\ length types = length ["id"; "name"]).
Proof.
  apply (columns_is_cached Demo.db 0 (Demo.world_of Demo.users)).
  reflexivity.
Defined.

Lemma foreign_key_constraints_cached (db : Database) (self : nat) (w : World)
    (fks : list FkConstraint.t) :
  _foreign_keys (heap w !!! self) = Some fks ->
  foreign_key_constraints db self w = (Ok fks, w).
Proof. intros H. unfold foreign_key_constraints, bind, getT. simpl. by rewrite H. Qed.

Lemma foreign_key_constraints_returns (db : Database) (self : nat) (w w1 : World)
    (fks : list FkConstraint.t) :
  foreign_key_constraints db self w = (Ok fks, w1) ->
  _foreign_keys (heap w1 !!! self) = Some fks
  /\ outfile w1 = outfile w
  /\ (_foreign_keys (heap w !!! self) = None ->
      Forall (fun fk => FkConstraint.table fk = name (heap w !!! self)) fks).
Proof.
  unfold foreign_key_constraints, bind, getT, answer, lift. simpl.
  destruct (_foreign_keys (heap w !!! self)) as [c|] eqn:Hc.
  - intros [= <- <-]. by rewrite Hc.
  - destruct (fks_of db (name (heap w !!! self))) as [rows|]; [|done].
    simpl. intros [= <- <-]. simpl. rewrite lookup_total_insert_eq. simpl.
    split; [done|]. split; [done|]. intros _.
    apply Forall_forall. intros fk Hfk.
    apply list_elem_of_In, in_map_iff in Hfk as (r & <- & _). done.
Qed.

(** X7: what is dropped is what is recreated: when the constraints of a
    table object have been dropped, its drop statements, one per constraint,
    and a separator are on the output, and recreating the constraints of the
    same object afterwards writes one ADD CONSTRAINT statement for each of
    the very same constraints and a separator, without asking the catalog
    again; constraints read from the catalog carry the table's name. *)
Theorem drop_then_create (db : Database) (self : nat) (w w1 : World) :
  drop_foreign_key_constraints db self w = (Ok tt, w1) ->
  exists fks,
    outfile w1 = (outfile w ++ map FkConstraint.drop fks ++ [nl])%list
    /\ (_foreign_keys (heap w !!! self) = None ->
        Forall (fun fk => FkConstraint.table fk = name (heap w !!! self)) fks)
    /\ forall db', exists w2,
         create_foreign_key_constraints db' self w1 = (Ok tt, w2)
         /\ outfile w2 = (outfile w1 ++ map FkConstraint.create fks ++ [nl])%list
         /\ heap w2 = heap w1.
Proof.
  intros Hrun. unfold drop_foreign_key_constraints in Hrun.
  apply bind_ok in Hrun as (? & wm & [= <- <-] & Hrun).
  apply bind_ok in Hrun as (fks & wf & Hfks & Hrun).
  apply foreign_key_constraints_returns in Hfks as (Hcache & Hout & Htable).
  apply bind_ok in Hrun as (? & wl & Hloop & [= <-]).
  rewrite for_each_write in Hloop. injection Hloop as _ <-. simpl in *.
  exists fks. split; [by rewrite Hout, <- app_assoc|]. split; [done|].
  intros db'. unfold create_foreign_key_constraints.
  unfold bind at 1, mark at 1. unfold bind at 1.
  rewrite (foreign_key_constraints_cached db' self _ fks) by done.
  unfold bind at 1. rewrite for_each_write. unfold write. simpl.
  eexists. split; [reflexivity|]. simpl. split; [by rewrite <- !app_assoc|done].
Qed.

Lemma drop_then_create_witness :
  exists fks,
    outfile (snd (drop_foreign_key_constraints Demo.db 0 (Demo.world_of Demo.orders)))
      = (outfile (Demo.world_of Demo.orders) ++ map FkConstraint.drop fks ++ [nl])%list
    /\ (_foreign_keys (heap (Demo.world_of Demo.orders) !!! 0) = None ->
        Forall (fun fk => FkConstraint.table fk
                          = name (heap (Demo.world_of Demo.orders) !!! 0)) fks)
    /\ forall db', exists w2,
         create_foreign_key_constraints db' 0
           (snd (drop_foreign_key_constraints Demo.db 0 (Demo.world_of Demo.orders)))
           = (Ok tt, w2)
         /\ outfile w2 =
              (outfile (snd (drop_foreign_key_constraints Demo.db 0
                                                          (Demo.world_of Demo.orders)))
                 ++ map FkConstraint.create fks ++ [nl])%list
         /\ heap w2 = heap (snd (drop_foreign_key_constraints Demo.db 0
                                                              (Demo.world_of Demo.orders))).
Proof.
  apply (drop_then_create Demo.db 0 (Demo.world_of Demo.orders)).
  reflexivity.
Defined.

(** X8: no routine run on table objects renames one or changes whether it
    is sampled: after a dump, the referential filter, and the dropping and
    recreating of constraints, every object has the name and the row limit
    it had before, whether the routine returned or raised. *)
Theorem routines_keep_name_and_limit (db : Database) (self : nat)
    (sampled full : list nat) (w : World) (x : nat) :
  kind (snd (dump db self w)) x = kind w x
  /\ kind (snd (set_sampled_ids db sampled full w)) x = kind w x
  /\ kind (snd (drop_foreign_key_constraints db self w)) x = kind w x
  /\ kind (snd (create_foreign_key_constraints db self w)) x = kind w x.
Proof.
  split_and!.
  - by destruct (logs_dump (kind w) db self w) as [-> _].
  - by destruct (logs_set_sampled_ids (kind w) db sampled full w) as [-> _].
  - by destruct (logs_drop_foreign_key_constraints (kind w) db self w) as [-> _].
  - by destruct (logs_create_foreign_key_constraints (kind w) db self w) as [-> _].
Qed.

(** ** Further properties of the identifier position *)

(** X9: the identifier position is computed once: after [ididx] has
    returned a position, that position is stored in the object, and every
    later read returns it and leaves the world as it is, whatever the
    database would now answer. *)
Theorem ididx_is_cached (db : Database) (self : nat) (w w1 : World) (i : nat) :
  ididx db self w = (Ok i, w1) ->
  _ididx (heap w1 !!! self) = Some i
  /\ forall db', ididx db' self w1 = (Ok i, w1).
Proof.
  intros Hrun.
  assert (_ididx (heap w1 !!! self) = Some i) as Hcache.
  { unfold ididx in Hrun. unfold bind at 1, getT at 1 in Hrun.
    destruct (_ididx (heap w !!! self)) as [j|] eqn:Hj.
    - injection Hrun as <- <-. done.
    - apply bind_ok in Hrun as (? & wa & _ & Hrun).
      apply bind_ok in Hrun as (cols & wb & _ & Hrun).
      apply bind_ok in Hrun as (? & wc & Hset & [= <- <-]).
      rewrite setattr_run in Hset. injection Hset as _ <-. by rewrite poke_self. }
  split; [done|]. intros db'. unfold ididx, bind, getT. simpl. by rewrite Hcache.
Qed.

Lemma ididx_is_cached_witness :
  _ididx (heap (snd (ididx Demo.db 0 (Demo.world_of Demo.users))) !!! 0) = Some 0
  /\ forall db', ididx db' 0 (snd (ididx Demo.db 0 (Demo.world_of Demo.users)))
                 = (Ok 0, snd (ididx Demo.db 0 (Demo.world_of Demo.users))).
Proof.
  apply (ididx_is_cached Demo.db 0 (Demo.world_of Demo.users)).
  reflexivity.
Defined.

(** X10: [ididx] stores 0 before it reads the columns, so when that read
    raises on an object with no position cached, the exception is passed on
    and the 0 stays behind: a later read of [ididx] returns 0 without
    reading the columns. *)
Theorem ididx_after_failed_columns (db : Database) (self : nat) (w : World) (e : exn) :
  _ididx (heap w !!! self) = None ->
  columns_view db (heap w !!! self) = Raise e ->
  exists w1,
    ididx db self w = (Raise e, w1)
    /\ forall db', ididx db' self w1 = (Ok 0, w1).
Proof.
  intros Hnone Hview. unfold ididx at 1. unfold bind at 1, getT at 1.
  rewrite Hnone. unfold bind at 1. rewrite setattr_run.
  unfold bind at 1. rewrite (columns_fails _ _ _ e); [|by rewrite poke_self].
  eexists. split; [reflexivity|]. intros db'.
  unfold ididx, bind, getT. simpl. by rewrite lookup_total_insert_eq.
Qed.

Lemma ididx_after_failed_columns_witness :
  exists w1,
    ididx Demo.db 0 (Demo.world_of (Table__init__ "missing" (Some 2)))
      = (Raise DatabaseError, w1)
    /\ forall db', ididx db' 0 w1 = (Ok 0, w1).
Proof.
  apply (ididx_after_failed_columns Demo.db 0
           (Demo.world_of (Table__init__ "missing" (Some 2))) DatabaseError);
    reflexivity.
Defined.

(** ** Further properties of discovery *)

(** X11: no table is both full and sampled: the objects [get_tables]
    returns are pairwise distinct and freshly initialised; a full one is
    named after a base table that is neither sampled nor skipped and has no
    row limit, a sampled one is named after a sampled table and has the
    configured row limit; nothing is written. *)
Theorem get_tables_partition (db : Database) (set_iter : list nat -> list nat)
    (cfg : Config) (w w1 : World) (full sampled : list nat) :
  (forall l, set_iter l ≡ₚ l) ->
  get_tables db set_iter (SAMPLED_TABLES cfg) (ROW_LIMIT cfg) (SKIPPED_TABLES cfg) w
    = (Ok (full, sampled), w1) ->
  NoDup (full ++ sampled)
  /\ (forall f, f ∈ full ->
        exists n, heap w1 !!! f = Table__init__ n None
                  /\ n ∈ base_tables db
                  /\ (n ∉ SAMPLED_TABLES cfg) /\ (n ∉ SKIPPED_TABLES cfg))
  /\ (forall s, s ∈ sampled ->
        exists n, heap w1 !!! s = Table__init__ n (Some (ROW_LIMIT cfg))
                  /\ n ∈ SAMPLED_TABLES cfg)
  /\ outfile w1 = outfile w.
Proof.
  intros Hperm Hrun. unfold get_tables, bind, cursor_list_tables in Hrun.
  destruct (list_union (SKIPPED_TABLES cfg) (SAMPLED_TABLES cfg)) as [|u us] eqn:Hu.
  { assert (SAMPLED_TABLES cfg = []) as Hs.
    { unfold list_union in Hu. by apply app_eq_nil in Hu as [_ ?]. }
    by rewrite Hs in Hrun. }
  unfold ret at 1 in Hrun. rewrite <- Hu in Hrun.
  set (rows := filter (fun t => t ∉ list_union (SKIPPED_TABLES cfg) (SAMPLED_TABLES cfg))
                      (base_tables db)) in Hrun.
  destruct (new_each_run (map (fun t => Table__init__ t None) rows) w)
    as (wa & Hra & Hnext & _ & Houta & Hnewa & _).
  rewrite Hra in Hrun.
  destruct (new_each_run
              (map (fun t => Table__init__ t (Some (ROW_LIMIT cfg))) (SAMPLED_TABLES cfg)) wa)
    as (wb & Hrb & _ & _ & Houtb & Hnewb & Holdb).
  rewrite Hrb in Hrun. unfold ret in Hrun. injection Hrun as <- <- <-.
  rewrite !length_map in *. split_and!.
  - rewrite !Hperm, Hnext, <- seq_app. apply NoDup_seq.
  - intros f Hf. rewrite Hperm in Hf. apply elem_of_seq in Hf as [Hlo Hhi].
    destruct (lookup_lt_is_Some_2 rows (f - next w)) as [n Hn]; [lia|].
    exists n. split.
    + rewrite Holdb by lia. replace f with (next w + (f - next w)) by lia.
      apply Hnewa. change (map ?g rows) with (g <$> rows).
      by rewrite list_lookup_fmap, Hn.
    + apply list_elem_of_lookup_2, list_elem_of_filter in Hn as [Hex Hbase].
      split; [done|]. rewrite list_elem_of_union in Hex. split; intros ?; apply Hex; auto.
  - intros s Hs. rewrite Hperm in Hs. apply elem_of_seq in Hs as [Hlo Hhi].
    destruct (lookup_lt_is_Some_2 (SAMPLED_TABLES cfg) (s - next wa)) as [n Hn]; [lia|].
    exists n. split.
    + replace s with (next wa + (s - next wa)) by lia.
      apply Hnewb. change (map ?g (SAMPLED_TABLES cfg)) with (g <$> SAMPLED_TABLES cfg).
      by rewrite list_lookup_fmap, Hn.
    + by apply list_elem_of_lookup_2 in Hn.
  - congruence.
Qed.

Lemma get_tables_partition_witness :
  NoDup ([0; 1] ++ [2])
  /\ (forall f, f ∈ [0; 1] ->
        exists n,
          heap (snd (get_tables Demo.db (fun l => l) (SAMPLED_TABLES Demo.cfg)
                                (ROW_LIMIT Demo.cfg) (SKIPPED_TABLES Demo.cfg) init_world))
            !!! f = Table__init__ n None
          /\ n ∈ base_tables Demo.db
          /\ (n ∉ SAMPLED_TABLES Demo.cfg) /\ (n ∉ SKIPPED_TABLES Demo.cfg))
  /\ (forall s, s ∈ [2] ->
        exists n,
          heap (snd (get_tables Demo.db (fun l => l) (SAMPLED_TABLES Demo.cfg)
                                (ROW_LIMIT Demo.cfg) (SKIPPED_TABLES Demo.cfg) init_world))
            !!! s = Table__init__ n (Some (ROW_LIMIT Demo.cfg))
          /\ n ∈ SAMPLED_TABLES Demo.cfg)
  /\ outfile (snd (get_tables Demo.db (fun l => l) (SAMPLED_TABLES Demo.cfg)
                              (ROW_LIMIT Demo.cfg) (SKIPPED_TABLES Demo.cfg) init_world))
     = outfile init_world.
Proof.
  apply (get_tables_partition Demo.db (fun l => l) Demo.cfg init_world).
  - intros l. reflexivity.
  - vm_compute. reflexivity.
Defined.

(** X12: with no sampled and no skipped table the exclusion list of the
    table listing is the empty tuple, which the server refuses; [main] then
    raises the database error after the preamble has been written and
    before any table object exists. *)
Theorem main_without_exclusions (db : Database) (set_iter : list nat -> list nat)
    (cfg : Config) (w : World) :
  SAMPLED_TABLES cfg = [] -> SKIPPED_TABLES cfg = [] -> schema_synced db = true ->
  get_tables db set_iter (SAMPLED_TABLES cfg) (ROW_LIMIT cfg) (SKIPPED_TABLES cfg) w
    = (Raise DatabaseError, w)
  /\ main db set_iter cfg w =
       (Raise DatabaseError,
        {| heap := heap w; next := next w;
           outfile := (outfile w ++ [BEGIN_DUMP (dbname db)])%list; trace := trace w |}).
Proof.
  intros Hs Hk Hsync. unfold main, sync_schema, get_tables, bind.
  by rewrite Hs, Hk, Hsync.
Qed.

Lemma main_without_exclusions_witness :
  get_tables Demo.db (fun l => l) [] 500 [] init_world = (Raise DatabaseError, init_world)
  /\ main Demo.db (fun l => l)
          {| ROW_LIMIT := 500; SAMPLED_TABLES := []; SKIPPED_TABLES := [] |} init_world =
       (Raise DatabaseError,
        {| heap := heap init_world; next := next init_world;
           outfile := (outfile init_world ++ [BEGIN_DUMP (dbname Demo.db)])%list;
           trace := trace init_world |}).
Proof.
  apply (main_without_exclusions Demo.db (fun l => l)
           {| ROW_LIMIT := 500; SAMPLED_TABLES := []; SKIPPED_TABLES := [] |} init_world);
    reflexivity.
Defined.

(** ** Further properties of the full dump *)

(** X13: the dump of a table without row limit sends one COPY statement,
    which selects the table's columns from the table under the predicate
    built from the table's restrictions.  When the server answers, the
    output gains the COPY header, the payload and the terminator, and
    neither the ids nor the restrictions of the object change; when the
    server refuses, DatabaseError is raised after the header has been
    written. *)
Theorem dump_full_table (db : Database) (self : nat) (w : World) (cols : list string) :
  limit (heap w !!! self) = None ->
  columns_view db (heap w !!! self) = Ok cols ->
  let t := heap w !!! self in
  let header := BEGIN_TABLE_DUMP (name t) (column_list cols) in
  match copy_out db (copy_sql (name t) (column_list cols) (_build_where_clause t)) with
  | Some payload =>
      exists w',
        dump db self w = (Ok tt, w')
        /\ outfile w' = (outfile w ++ [header; payload; END_TABLE_DUMP])%list
        /\ ids (heap w' !!! self) = ids t
        /\ _foreign_tables (heap w' !!! self) = _foreign_tables t
  | None =>
      exists w',
        dump db self w = (Raise DatabaseError, w')
        /\ outfile w' = (outfile w ++ [header])%list
  end.
Proof.
  intros Hlimit Hview t header.
  destruct (columns_ok db self w cols Hview)
    as (w0 & Hc & Hout0 & _ & _ & _ & _ & Hname & Hlim & Hids & Hft & _).
  assert (_build_where_clause (heap w0 !!! self) = _build_where_clause t) as Hwhere.
  { unfold _build_where_clause. by rewrite Hft. }
  unfold dump, bind. rewrite Hc. unfold getT. rewrite Hlim, Hlimit.
  fold (column_list cols). unfold _copy, bind, mark, getT, write, answer, lift. simpl.
  rewrite Hwhere, Hname. fold t.
  change ("COPY (SELECT " +:+ column_list cols +:+ " FROM public." +:+ dq +:+ name t +:+ dq
            +:+ " " +:+ _build_where_clause t +:+ ") TO STDOUT")
    with (copy_sql (name t) (column_list cols) (_build_where_clause t)).
  destruct (copy_out db (copy_sql (name t) (column_list cols) (_build_where_clause t)))
    as [payload|].
  - eexists. split; [reflexivity|]. simpl.
    split; [by rewrite Hout0, <- !app_assoc|]. by split.
  - eexists. split; [reflexivity|]. simpl. by rewrite Hout0.
Qed.

Lemma dump_full_table_witness :
  let w := Demo.world_of (set_foreign_tables [("users", [PyInt 1; PyInt 2])] Demo.orders) in
  let t := heap w !!! 0 in
  let header := BEGIN_TABLE_DUMP (name t) (column_list ["id"; "users_id"]) in
  match copy_out Demo.db
          (copy_sql (name t) (column_list ["id"; "users_id"]) (_build_where_clause t)) with
  | Some payload =>
      exists w',
        dump Demo.db 0 w = (Ok tt, w')
        /\ outfile w' = (outfile w ++ [header; payload; END_TABLE_DUMP])%list
        /\ ids (heap w' !!! 0) = ids t
        /\ _foreign_tables (heap w' !!! 0) = _foreign_tables t
  | None =>
      exists w',
        dump Demo.db 0 w = (Raise DatabaseError, w')
        /\ outfile w' = (outfile w ++ [header])%list
  end.
Proof.
  apply (dump_full_table Demo.db 0
           (Demo.world_of (set_foreign_tables [("users", [PyInt 1; PyInt 2])] Demo.orders))
           ["id"; "users_id"]);
    reflexivity.
Defined.

(** X14: a restriction whose id tuple is empty, as a sampled table that
    yielded no row leaves it, gives the clause with the empty parentheses:
    the predicate is not dropped and no id stands in for the missing ones. *)
Theorem where_clause_empty_ids (self : Table) (ftable : string)
    (rest : list (string * list pyvalue)) :
  _foreign_tables self = (ftable, []) :: rest ->
  exists tail,
    _build_where_clause self = "WHERE " +:+ ftable +:+ "_id in ()" +:+ tail
    /\ (rest = [] -> tail = EmptyString).
Proof.
  intros H. unfold _build_where_clause. rewrite H.
  change (map (fun kv => fst kv +:+ "_id in " +:+ str_tuple (snd kv)) ((ftable, []) :: rest))
    with ((ftable +:+ "_id in ()") :: map where_item rest).
  change (Nat.ltb 0 (length ((ftable +:+ "_id in ()") :: map where_item rest))) with true.
  cbv iota. rewrite join_cons.
  exists (String.concat EmptyString (map (fun x => " AND " +:+ x) (map where_item rest))).
  split; [by rewrite !append_assoc|]. by intros ->.
Qed.

Lemma where_clause_empty_ids_witness :
  exists tail,
    _build_where_clause (set_foreign_tables [("users", [])] Demo.orders)
      = "WHERE " +:+ "users" +:+ "_id in ()" +:+ tail
    /\ (@nil (string * list pyvalue) = [] -> tail = EmptyString).
Proof.
  apply (where_clause_empty_ids (set_foreign_tables [("users", [])] Demo.orders) "users" []).
  reflexivity.
Defined.

(** ** Further properties of the sampled dump *)

(** X15: the ids that the dump of a sampled table captures on a fresh
    object are the values of the first column named id: one per row read,
    in the order read, taken at the position where that column stands in the
    catalog order. *)
Theorem sampled_ids_are_id_column_values (db : Database) (self : nat) (w w' : World)
    (n : nat) (cols : list string) :
  limit (heap w !!! self) = Some n ->
  _ididx (heap w !!! self) = None ->
  columns_view db (heap w !!! self) = Ok cols ->
  "id" ∈ cols ->
  dump db self w = (Ok tt, w') ->
  exists i all_rows captured,
    cols !! i = Some "id"
    /\ (forall j, j < i -> cols !! j <> Some "id")
    /\ rows_of db (name (heap w !!! self)) = Some all_rows
    /\ ids (heap w' !!! self) = Some captured
    /\ Forall2 (fun r v => r !! i = Some v) (take n all_rows) captured.
Proof.
  intros Hlimit Hnone Hview Hid Hrun.
  destruct (dump_sampled_ok db self w w' n cols Hlimit Hview Hrun)
    as (all_rows & captured & _ & Hrows & Hids & Hvs & _).
  unfold ididx_view in Hvs. rewrite Hnone in Hvs.
  destruct (scan_id_found cols 0 Hid) as (k & Hk & Hat & Hbefore).
  rewrite Hk in Hvs. exists k, all_rows, captured. by split_and!.
Qed.

Lemma sampled_ids_are_id_column_values_witness :
  exists i all_rows captured,
    ["id"; "name"] !! i = Some "id"
    /\ (forall j, j < i -> ["id"; "name"] !! j <> Some "id")
    /\ rows_of Demo.db (name (heap (Demo.world_of Demo.users) !!! 0)) = Some all_rows
    /\ ids (heap (snd (dump Demo.db 0 (Demo.world_of Demo.users))) !!! 0) = Some captured
    /\ Forall2 (fun r v => r !! i = Some v) (take 2 all_rows) captured.
Proof.
  apply (sampled_ids_are_id_column_values Demo.db 0 (Demo.world_of Demo.users)
           (snd (dump Demo.db 0 (Demo.world_of Demo.users))) 2 ["id"; "name"]).
  - reflexivity.
  - reflexivity.
  - reflexivity.
  - apply list_elem_of_here.
  - vm_compute. reflexivity.
Defined.

(** X16: the dump of a sampled table without a column named id, on a
    fresh object, stops at the first row read: the row, which holds one value
    per column, has no element at the position past the last column, so
    IndexError is raised once the INSERT header has been written, before any
    tuple is written, and the ids of the object stay as they were. *)
Theorem dump_sampled_without_id_column (db : Database) (self : nat) (w : World)
    (n : nat) (cols : list string) (all_rows : list row) (r : row) (rest : list row) :
  limit (heap w !!! self) = Some n ->
  _ididx (heap w !!! self) = None ->
  columns_view db (heap w !!! self) = Ok cols ->
  "id" ∉ cols ->
  rows_of db (name (heap w !!! self)) = Some all_rows ->
  take n all_rows = r :: rest ->
  length r <= length cols ->
  exists w',
    dump db self w = (Raise IndexError, w')
    /\ outfile w' =
         (outfile w ++ [insert_header (name (heap w !!! self)) (column_list cols)])%list
    /\ ids (heap w' !!! self) = ids (heap w !!! self).
Proof.
  intros Hlimit Hnone Hview Hid Hrows Htake Hlen.
  destruct (columns_ok db self w cols Hview)
    as (w0 & Hc & Hout0 & _ & _ & _ & Hcols & Hname & Hlim & Hids & _ & Hidx).
  unfold dump, bind. rewrite Hc. unfold getT. rewrite Hlim, Hlimit.
  fold (column_list cols). unfold _select_and_insert, bind, mark, getT, write. simpl.
  unfold cursor_select, bind, answer, lift. rewrite Hlim, Hlimit, Hname, Hrows.
  unfold ret. rewrite Htake. simpl. unfold bind.
  set (w2 := {| heap := heap w0; next := next w0;
                outfile := (outfile w0
                             ++ ["INSERT INTO " +:+ name (heap w !!! self) +:+ " ("
                                   +:+ column_list cols +:+ ") VALUES " +:+ nl])%list;
                trace := (trace w0 ++ [EvInsert self])%list |}).
  assert (columns_view db (heap w2 !!! self) = Ok cols) as Hview2.
  { unfold columns_view. simpl. by rewrite Hcols. }
  destruct (ididx_run db self w2 cols Hview2)
    as (w3 & Hrun & Hout3 & _ & _ & _ & Hself & _).
  rewrite Hrun. unfold ididx_view. simpl. rewrite Hidx, Hnone.
  rewrite (scan_id_absent cols 0 Hid). unfold lift, subscript.
  rewrite (proj2 (lookup_ge_None r (0 + length cols))) by (simpl; lia).
  exists w3. split; [done|]. split.
  - rewrite Hout3. simpl. by rewrite Hout0.
  - rewrite (Hself Hcols). simpl. exact Hids.
Qed.

Lemma dump_sampled_without_id_column_witness :
  exists w',
    dump Demo.db 0 (Demo.world_of Demo.logs) = (Raise IndexError, w')
    /\ outfile w' =
         (outfile (Demo.world_of Demo.logs)
            ++ [insert_header (name (heap (Demo.world_of Demo.logs) !!! 0))
                              (column_list ["at"; "msg"])])%list
    /\ ids (heap w' !!! 0) = ids (heap (Demo.world_of Demo.logs) !!! 0).
Proof.
  apply (dump_sampled_without_id_column Demo.db 0 (Demo.world_of Demo.logs) 5
           ["at"; "msg"] Demo.logs_rows
           [PyDatetime {| year := 2020; month := 1; day := 2; hour := 3; minute := 4;
                          second := 5; microsecond := 0; utcoffset := None |};
            PyStr "boot"] []).
  - reflexivity.
  - reflexivity.
  - reflexivity.
  - apply (bool_decide_unpack _). vm_compute. exact I.
  - reflexivity.
  - reflexivity.
  - simpl. lia.
Defined.

Lemma values_block_last (init : list string) (last : string) :
  forall k,
    values_block (k + length init) k (init ++ [last])
    = (flat_map (fun s => [s; "," +:+ nl]) init ++ [last; ";" +:+ nl])%list.
Proof.
  induction init as [|s init IH]; intros k; simpl.
  - by rewrite Nat.add_0_r, Nat.eqb_refl.
  - replace (k + S (length init)) with (S k + length init) by lia.
    rewrite IH. by rewrite (proj2 (Nat.eqb_neq k (S k + length init))) by lia.
Qed.

(** X17: when the dump of a sampled table reads at least one row, the
    tuple of every row but the last is followed by a comma and a line break,
    the tuple of the last row by the semicolon that ends the INSERT statement
    and a line break, and an empty line closes the block. *)
Theorem insert_statement_is_terminated (db : Database) (self : nat) (w w' : World)
    (n : nat) (cols : list string) (all_rows front : list row) (last_row : row) :
  limit (heap w !!! self) = Some n ->
  columns_view db (heap w !!! self) = Ok cols ->
  rows_of db (name (heap w !!! self)) = Some all_rows ->
  take n all_rows = (front ++ [last_row])%list ->
  dump db self w = (Ok tt, w') ->
  exists tuples last,
    Forall2 (fun r s => _mogrify_row (heap w' !!! self) r = Ok s) front tuples
    /\ _mogrify_row (heap w' !!! self) last_row = Ok last
    /\ outfile w' =
         (outfile w
            ++ insert_header (name (heap w !!! self)) (column_list cols)
            :: flat_map (fun s => [s; "," +:+ nl]) tuples
            ++ [last; ";" +:+ nl; nl])%list.
Proof.
  intros Hlimit Hview Hrows Htake Hrun.
  destruct (dump_sampled_ok db self w w' n cols Hlimit Hview Hrun)
    as (all_rows' & captured & tuples & Hrows' & _ & _ & Htuples & Hout).
  rewrite Hrows in Hrows'. injection Hrows' as <-. rewrite Htake in Htuples, Hout.
  apply Forall2_app_inv_l in Htuples as (t1 & t2 & Hfront & Hlast & ->).
  apply Forall2_cons_inv_l in Hlast as (last & t3 & Hlast & Hnil & ->).
  apply Forall2_nil_inv_l in Hnil as ->.
  exists t1, last. split; [done|]. split; [done|].
  rewrite Hout, length_app. simpl.
  rewrite (Forall2_length _ _ _ Hfront).
  replace (length t1 + 1) with (1 + length t1) by lia.
  rewrite values_block_last. by rewrite <- app_assoc.
Qed.

Lemma insert_statement_is_terminated_witness :
  exists tuples last,
    Forall2 (fun r s =>
               _mogrify_row (heap (snd (dump Demo.db 0 (Demo.world_of Demo.users))) !!! 0) r
               = Ok s)
            [[PyInt 1; PyStr "a"]] tuples
    /\ _mogrify_row (heap (snd (dump Demo.db 0 (Demo.world_of Demo.users))) !!! 0)
                    [PyInt 2; PyStr "b"] = Ok last
    /\ outfile (snd (dump Demo.db 0 (Demo.world_of Demo.users))) =
         (outfile (Demo.world_of Demo.users)
            ++ insert_header (name (heap (Demo.world_of Demo.users) !!! 0))
                             (column_list ["id"; "name"])
            :: flat_map (fun s => [s; "," +:+ nl]) tuples
            ++ [last; ";" +:+ nl; nl])%list.
Proof.
  apply (insert_statement_is_terminated Demo.db 0 (Demo.world_of Demo.users)
           (snd (dump Demo.db 0 (Demo.world_of Demo.users))) 2 ["id"; "name"]
           Demo.users_rows [[PyInt 1; PyStr "a"]] [PyInt 2; PyStr "b"]).
  - reflexivity.
  - reflexivity.
  - reflexivity.
  - reflexivity.
  - vm_compute. reflexivity.
Defined.

(** ** What a routine leaves alone *)

Lemma keeps_bind {A B} (R : World -> World -> Prop) (m : M A) (k : A -> M B) :
  (forall w1 w2 w3, R w1 w2 -> R w2 w3 -> R w1 w3) ->
  keeps R m -> (forall a, keeps R (k a)) -> keeps R (bind m k).
Proof.
  intros Htrans Hm Hk w. unfold bind. specialize (Hm w).
  destruct (m w) as [[a|e] w1]; simpl in *; [|done].
  eapply Htrans; [exact Hm|apply Hk].
Qed.

Lemma keeps_for_each {A} (R : World -> World -> Prop) (l : list A) (body : A -> M unit) :
  (forall w, R w w) ->
  (forall w1 w2 w3, R w1 w2 -> R w2 w3 -> R w1 w3) ->
  (forall a, a ∈ l -> keeps R (body a)) -> keeps R (for_each l body).
Proof.
  intros Hrefl Htrans. induction l as [|a l IH]; intros Hbody; simpl.
  - intros w. apply Hrefl.
  - apply keeps_bind; [done|apply Hbody, list_elem_of_here|].
    intros _. apply IH. intros b Hb. apply Hbody. by apply list_elem_of_further.
Qed.

Lemma outside_refl (S : nat -> Prop) (w : World) : outside S w w.
Proof. by split. Qed.

Lemma outside_trans (S : nat -> Prop) (w1 w2 w3 : World) :
  outside S w1 w2 -> outside S w2 w3 -> outside S w1 w3.
Proof.
  intros [Hn1 H1] [Hn2 H2]. split; [congruence|].
  intros x Hx. by rewrite H2, H1.
Qed.

Lemma frame_same_heap {A} (S : nat -> Prop) (m : M A) :
  (forall w, heap (snd (m w)) = heap w /\ next (snd (m w)) = next w) ->
  keeps (outside S) m.
Proof. intros H w. destruct (H w) as [Hh Hn]. split; [done|]. intros x _. by rewrite Hh. Qed.

Lemma frame_ret {A} (S : nat -> Prop) (a : A) : keeps (outside S) (ret a).
Proof. by apply frame_same_heap. Qed.

Lemma frame_raise {A} (S : nat -> Prop) (e : exn) : keeps (outside S) (raise (A := A) e).
Proof. by apply frame_same_heap. Qed.

Lemma frame_lift {A} (S : nat -> Prop) (r : result A) : keeps (outside S) (lift r).
Proof. by apply frame_same_heap. Qed.

Lemma frame_getT (S : nat -> Prop) (self : nat) : keeps (outside S) (getT self).
Proof. by apply frame_same_heap. Qed.

Lemma frame_write (S : nat -> Prop) (s : string) : keeps (outside S) (write s).
Proof. by apply frame_same_heap. Qed.

Lemma frame_mark (S : nat -> Prop) (e : event) : keeps (outside S) (mark e).
Proof. by apply frame_same_heap. Qed.

Lemma frame_setattr (S : nat -> Prop) (self : nat) (f : Table -> Table) :
  S self -> keeps (outside S) (setattr self f).
Proof.
  intros Hself w. split; [done|]. intros x Hx. simpl.
  apply lookup_total_insert_ne. by intros ->.
Qed.

Lemma frame_bind {A B} (S : nat -> Prop) (m : M A) (k : A -> M B) :
  keeps (outside S) m -> (forall a, keeps (outside S) (k a)) -> keeps (outside S) (bind m k).
Proof. apply keeps_bind, outside_trans. Qed.

Lemma frame_for_each {A} (S : nat -> Prop) (l : list A) (body : A -> M unit) :
  (forall a, a ∈ l -> keeps (outside S) (body a)) -> keeps (outside S) (for_each l body).
Proof. apply keeps_for_each; [apply outside_refl|apply outside_trans]. Qed.

Ltac frame :=
  repeat first
    [ apply frame_ret | apply frame_raise | apply frame_lift | apply frame_getT
    | apply frame_write | apply frame_mark
    | apply frame_setattr; assumption
    | apply frame_bind; [|intros ?]
    | apply frame_for_each; intros ? ? ].

Lemma frame_columns (db : Database) (S : nat -> Prop) (self : nat) :
  S self -> keeps (outside S) (columns db self).
Proof.
  intros Hself. unfold columns. apply frame_bind; [apply frame_getT|]. intros t.
  destruct (_columns t); [apply frame_ret|]. unfold answer. frame.
Qed.

Lemma frame_foreign_key_constraints (db : Database) (S : nat -> Prop) (self : nat) :
  S self -> keeps (outside S) (foreign_key_constraints db self).
Proof.
  intros Hself. unfold foreign_key_constraints. apply frame_bind; [apply frame_getT|].
  intros t. destruct (_foreign_keys t); [apply frame_ret|]. unfold answer. frame.
Qed.

Lemma frame_ididx (db : Database) (S : nat -> Prop) (self : nat) :
  S self -> keeps (outside S) (ididx db self).
Proof.
  intros Hself. unfold ididx. apply frame_bind; [apply frame_getT|]. intros t.
  destruct (_ididx t); [apply frame_ret|].
  apply frame_bind; [by apply frame_setattr|]. intros _.
  apply frame_bind; [by apply frame_columns|]. intros cols. frame.
Qed.

Lemma frame_insert_rows (db : Database) (S : nat -> Prop) (self rowcount : nat)
    (rows : list row) :
  S self -> forall k acc, keeps (outside S) (insert_rows db self rowcount rows k acc).
Proof.
  intros Hself. induction rows as [|r rows IH]; intros k acc; simpl; [apply frame_ret|].
  apply frame_bind; [by apply frame_ididx|]. intros i.
  apply frame_bind; [apply frame_lift|]. intros v.
  apply frame_bind; [apply frame_getT|]. intros t.
  apply frame_bind; [apply frame_lift|]. intros s.
  apply frame_bind; [apply frame_write|]. intros _.
  apply frame_bind; [apply frame_write|]. intros _. apply IH.
Qed.

Lemma frame_dump (db : Database) (S : nat -> Prop) (self : nat) :
  S self -> keeps (outside S) (dump db self).
Proof.
  intros Hself. unfold dump. apply frame_bind; [by apply frame_columns|]. intros cols.
  apply frame_bind; [apply frame_getT|]. intros t. destruct (limit t) as [n|].
  - apply frame_bind; [|intros ?; by apply frame_setattr].
    unfold _select_and_insert.
    apply frame_bind; [apply frame_mark|]. intros _.
    apply frame_bind; [apply frame_getT|]. intros t1.
    apply frame_bind; [apply frame_write|]. intros _.
    apply frame_bind; [apply frame_getT|]. intros t2.
    apply frame_bind.
    { unfold cursor_select, answer. destruct (limit t2); frame. }
    intros rows. apply frame_bind; [by apply frame_insert_rows|]. intros out. frame.
  - unfold _copy, answer. frame.
Qed.

Lemma frame_drop_foreign_key_constraints (db : Database) (S : nat -> Prop) (self : nat) :
  S self -> keeps (outside S) (drop_foreign_key_constraints db self).
Proof.
  intros Hself. unfold drop_foreign_key_constraints.
  apply frame_bind; [apply frame_mark|]. intros _.
  apply frame_bind; [by apply frame_foreign_key_constraints|]. intros fks. frame.
Qed.

Lemma frame_create_foreign_key_constraints (db : Database) (S : nat -> Prop) (self : nat) :
  S self -> keeps (outside S) (create_foreign_key_constraints db self).
Proof.
  intros Hself. unfold create_foreign_key_constraints.
  apply frame_bind; [apply frame_mark|]. intros _.
  apply frame_bind; [by apply frame_foreign_key_constraints|]. intros fks. frame.
Qed.

(** X18: the methods of a table object assign to attributes of that
    object only: whether they return or raise, [dump],
    [drop_foreign_key_constraints], [create_foreign_key_constraints] and the
    property [ididx] leave every other object of the heap as it was and
    create no object. *)
Theorem table_methods_touch_only_self (db : Database) (self : nat) :
  keeps (outside (eq self)) (dump db self)
  /\ keeps (outside (eq self)) (drop_foreign_key_constraints db self)
  /\ keeps (outside (eq self)) (create_foreign_key_constraints db self)
  /\ keeps (outside (eq self)) (ididx db self).
Proof.
  split_and!.
  - by apply frame_dump.
  - by apply frame_drop_foreign_key_constraints.
  - by apply frame_create_foreign_key_constraints.
  - by apply frame_ididx.
Qed.

Lemma grows_refl (w : World) : grows w w.
Proof. by split_and!. Qed.

Lemma grows_trans (w1 w2 w3 : World) : grows w1 w2 -> grows w2 w3 -> grows w1 w3.
Proof.
  intros (Ho1 & Hn1 & H1) (Ho2 & Hn2 & H2). split; [congruence|]. split; [congruence|].
  intros x. destruct (H1 x) as (? & ? & ? & ?), (H2 x) as (? & ? & ? & ?).
  split_and!; try congruence. by etrans.
Qed.

Lemma grows_same {A} (m : M A) :
  (forall w, heap (snd (m w)) = heap w /\ next (snd (m w)) = next w
             /\ outfile (snd (m w)) = outfile w) ->
  keeps grows m.
Proof.
  intros H w. destruct (H w) as (Hh & Hn & Ho). split; [done|]. split; [done|].
  intros x. by rewrite Hh.
Qed.

Lemma grows_poke (self : nat) (f : Table -> Table) (w : World) :
  (forall t, name (f t) = name t /\ limit (f t) = limit t /\ ids (f t) = ids t
             /\ _foreign_tables t `prefix_of` _foreign_tables (f t)) ->
  grows w (poke self f w).
Proof.
  intros Hf. split; [done|]. split; [done|]. intros x.
  destruct (decide (x = self)) as [->|Hne].
  - rewrite poke_self. apply Hf.
  - by rewrite poke_other.
Qed.

Lemma grows_columns (db : Database) (self : nat) : keeps grows (columns db self).
Proof.
  intros w. rewrite columns_run. simpl.
  destruct (_columns (heap w !!! self)); [apply grows_refl|].
  destruct (columns_of db (name (heap w !!! self))); [|apply grows_refl].
  by apply grows_poke.
Qed.

Lemma grows_add_foreign_table (self : nat) (n : string) (v : option (list pyvalue)) :
  keeps grows (add_foreign_table self n v).
Proof.
  intros w. unfold add_foreign_table, bind, getT.
  destruct (bool_decide (n ∈ (_foreign_tables (heap w !!! self)).*1)); [apply grows_refl|].
  destruct v as [v|]; [|apply grows_refl].
  rewrite setattr_run. apply grows_poke. intros t. simpl. split_and!; try done.
  by exists [(n, v)].
Qed.

(** X19: the referential filter, whether it returns or raises, writes
    nothing and creates no object; it leaves every object that is not one of
    the full tables exactly as it was, so the sampled tables are untouched
    when no object is both; and on every object it keeps the name, the row
    limit and the ids and only appends to the restrictions, never removing
    or replacing an entry. *)
Theorem filter_only_restricts_full_tables (db : Database) (sampled full : list nat) :
  keeps (outside (fun x => x ∈ full)) (set_sampled_ids db sampled full)
  /\ keeps grows (set_sampled_ids db sampled full).
Proof.
  split.
  - unfold set_sampled_ids. apply frame_bind; [apply frame_mark|]. intros _.
    apply frame_for_each. intros s _.
    apply frame_bind; [apply frame_getT|]. intros t.
    apply frame_for_each. intros f Hf.
    apply frame_bind; [by apply frame_columns|]. intros cols.
    destruct (bool_decide (name t +:+ "_id" ∈ cols)); [|apply frame_ret].
    apply frame_bind; [apply frame_getT|]. intros t'.
    unfold add_foreign_table. apply frame_bind; [apply frame_getT|]. intros tf.
    destruct (bool_decide (name t' ∈ (_foreign_tables tf).*1)); [apply frame_raise|].
    destruct (ids t'); [by apply frame_setattr|apply frame_raise].
  - unfold set_sampled_ids.
    apply keeps_bind; [apply grows_trans|by apply grows_same|]. intros _.
    apply keeps_for_each; [apply grows_refl|apply grows_trans|]. intros s _.
    apply keeps_bind; [apply grows_trans|by apply grows_same|]. intros t.
    apply keeps_for_each; [apply grows_refl|apply grows_trans|]. intros f _.
    apply keeps_bind; [apply grows_trans|apply grows_columns|]. intros cols.
    destruct (bool_decide (name t +:+ "_id" ∈ cols)); [|by apply grows_same].
    apply keeps_bind; [apply grows_trans|by apply grows_same|]. intros t'.
    apply grows_add_foreign_table.
Qed.

(** ** When the referential filter refuses *)

Lemma references_preserved (db : Database) (w w' : World) (n : string) (x : nat) :
  preserved db w w' -> references db n (heap w' !!! x) = references db n (heap w !!! x).
Proof. intros Hp. unfold references. by destruct (Hp x) as (_ & _ & _ & ->). Qed.

(** the inner loop when every table that references the sampled one makes
    [add_foreign_table] raise [e]: either the key is taken, or the ids are
    missing *)
Lemma attach_refused (db : Database) (e : exn) (s : nat) (n : string)
    (v : option (list pyvalue)) (fs : list nat) :
  forall w,
    name (heap w !!! s) = n -> ids (heap w !!! s) = v ->
    (forall f, f ∈ fs -> exists cols, columns_view db (heap w !!! f) = Ok cols) ->
    (forall f, f ∈ fs -> references db n (heap w !!! f) = true ->
       (n ∈ (_foreign_tables (heap w !!! f)).*1 /\ e = RuntimeError "no bueno")
       \/ ((n ∉ (_foreign_tables (heap w !!! f)).*1) /\ v = None /\ e = TypeError)) ->
    exists r w',
      for_each fs (attach_to db s (n +:+ "_id")) w = (r, w')
      /\ preserved db w w'
      /\ (forall x, _foreign_tables (heap w' !!! x) = _foreign_tables (heap w !!! x))
      /\ ((r = Ok tt /\ forall f, f ∈ fs -> references db n (heap w !!! f) = false)
          \/ (r = Raise e /\ exists f, f ∈ fs /\ references db n (heap w !!! f) = true)).
Proof.
  induction fs as [|f fs IH]; intros w Hname Hids Hcols Hraise.
  - exists (Ok tt), w. split; [done|]. split; [apply preserved_refl|]. split; [done|].
    left. split; [done|]. intros f Hf. by apply elem_of_nil in Hf.
  - destruct (Hcols f (list_elem_of_here _ _)) as [cols Hview].
    destruct (columns_ok_preserved db f w cols Hview) as (w0 & Hc & Hp0 & _ & _ & Hft0).
    simpl. unfold bind at 1. unfold attach_to at 1. unfold bind at 1. rewrite Hc.
    assert (references db n (heap w !!! f) = bool_decide (n +:+ "_id" ∈ cols)) as Href.
    { unfold references. by rewrite Hview. }
    destruct (bool_decide (n +:+ "_id" ∈ cols)) eqn:Hmatch.
    + exists (Raise e), w0.
      destruct (Hp0 s) as (Hn0 & Hi0 & _).
      split.
      { unfold bind, getT. rewrite Hn0, Hi0, Hname, Hids.
        unfold add_foreign_table, bind, getT. rewrite Hft0.
        destruct (Hraise f (list_elem_of_here _ _) Href) as [[Hin ->]|(Hout & -> & ->)].
        - by rewrite (bool_decide_eq_true_2 _ Hin).
        - by rewrite (bool_decide_eq_false_2 _ Hout). }
      split; [done|]. split; [done|]. right. split; [done|].
      exists f. split; [apply list_elem_of_here|done].
    + unfold ret at 1.
      destruct (IH w0) as (r & w' & Hrun & Hp & Hft & Hres).
      * destruct (Hp0 s) as (-> & _). done.
      * destruct (Hp0 s) as (_ & -> & _). done.
      * intros f' Hf'. destruct (Hcols f' (list_elem_of_further _ _ _ Hf')) as [c Hv].
        exists c. by destruct (Hp0 f') as (_ & _ & _ & ->).
      * intros f' Hf'. rewrite (references_preserved db w w0 n f' Hp0), Hft0.
        apply Hraise. by apply list_elem_of_further.
      * exists r, w'. split; [done|].
        split; [by eapply preserved_trans|].
        split; [intros x; by rewrite Hft, Hft0|].
        destruct Hres as [[-> Hnone]|[-> (f' & Hf' & Hyes)]].
        -- left. split; [done|]. intros f' Hf'.
           apply elem_of_cons in Hf' as [->|Hf']; [done|].
           rewrite <- (references_preserved db w w0 n f' Hp0). by apply Hnone.
        -- right. split; [done|]. exists f'. split; [by apply list_elem_of_further|].
           by rewrite <- (references_preserved db w w0 n f' Hp0).
Qed.

(** the same for the whole filter *)
Lemma filter_refused (db : Database) (e : exn) (full : list nat) :
  forall sampled w,
    (forall f, f ∈ full -> exists cols, columns_view db (heap w !!! f) = Ok cols) ->
    (forall s f, s ∈ sampled -> f ∈ full ->
       references db (name (heap w !!! s)) (heap w !!! f) = true ->
       (name (heap w !!! s) ∈ (_foreign_tables (heap w !!! f)).*1
        /\ e = RuntimeError "no bueno")
       \/ ((name (heap w !!! s) ∉ (_foreign_tables (heap w !!! f)).*1)
           /\ ids (heap w !!! s) = None /\ e = TypeError)) ->
    exists r w',
      for_each sampled (fun st =>
        let* s := getT st in for_each full (attach_to db st (name s +:+ "_id"))) w
        = (r, w')
      /\ preserved db w w'
      /\ (forall x, _foreign_tables (heap w' !!! x) = _foreign_tables (heap w !!! x))
      /\ ((r = Ok tt
           /\ forall s f, s ∈ sampled -> f ∈ full ->
                references db (name (heap w !!! s)) (heap w !!! f) = false)
          \/ (r = Raise e
              /\ exists s f, s ∈ sampled /\ f ∈ full
                   /\ references db (name (heap w !!! s)) (heap w !!! f) = true)).
Proof.
  induction sampled as [|s sampled IH]; intros w Hcols Hraise.
  - exists (Ok tt), w. split; [done|]. split; [apply preserved_refl|]. split; [done|].
    left. split; [done|]. intros s f Hs. by apply elem_of_nil in Hs.
  - destruct (attach_refused db e s (name (heap w !!! s)) (ids (heap w !!! s)) full w
                eq_refl eq_refl Hcols)
      as (r0 & w0 & Hrun0 & Hp0 & Hft0 & Hres0).
    { intros f Hf Href.
      destruct (Hraise s f (list_elem_of_here _ _) Hf Href) as [?|(? & ? & ?)]; auto. }
    simpl. unfold bind at 1. unfold bind at 1. unfold getT at 1. rewrite Hrun0.
    destruct Hres0 as [[-> Hnone]|[-> (f & Hf & Hyes)]].
    + destruct (IH w0) as (r & w' & Hrun & Hp & Hft & Hres).
      * intros f Hf. destruct (Hcols f Hf) as [c Hv].
        exists c. by destruct (Hp0 f) as (_ & _ & _ & ->).
      * intros s' f Hs' Hf. destruct (Hp0 s') as (-> & -> & _).
        rewrite (references_preserved db w w0 _ f Hp0), Hft0.
        apply Hraise; [by apply list_elem_of_further|done].
      * exists r, w'. split; [done|]. split; [by eapply preserved_trans|].
        split; [intros x; by rewrite Hft, Hft0|].
        destruct Hres as [[-> Hnone']|[-> (s' & f & Hs' & Hf & Hyes)]].
        -- left. split; [done|]. intros s' f Hs' Hf.
           apply elem_of_cons in Hs' as [->|Hs']; [by apply Hnone|].
           specialize (Hnone' s' f Hs' Hf). destruct (Hp0 s') as (Hn & _).
           by rewrite Hn, (references_preserved db w w0 _ f Hp0) in Hnone'.
        -- right. split; [done|]. exists s', f.
           split; [by apply list_elem_of_further|]. split; [done|].
           destruct (Hp0 s') as (Hn & _).
           by rewrite Hn, (references_preserved db w w0 _ f Hp0) in Hyes.
    + exists (Raise e), w0. split; [done|]. split; [done|]. split; [done|].
      right. split; [done|]. exists s, f. split; [apply list_elem_of_here|done].
Qed.

(** X20: run before the sampled tables have been dumped, so that no
    sampled object has ids yet, on full tables without restrictions whose
    columns the catalog can list, the referential filter attaches nothing:
    it raises TypeError as soon as a full table has the foreign-key column
    of a sampled table, and returns normally only when none has; in both
    cases every restriction is left as it was. *)
Theorem filter_before_sampled_dumps (db : Database) (sampled full : list nat) (w : World) :
  (forall s, s ∈ sampled -> ids (heap w !!! s) = None) ->
  (forall f, f ∈ full ->
     _foreign_tables (heap w !!! f) = []
     /\ exists cols, columns_view db (heap w !!! f) = Ok cols) ->
  exists r w',
    set_sampled_ids db sampled full w = (r, w')
    /\ (forall x, _foreign_tables (heap w' !!! x) = _foreign_tables (heap w !!! x))
    /\ ((exists s f, s ∈ sampled /\ f ∈ full
           /\ references db (name (heap w !!! s)) (heap w !!! f) = true)
        -> r = Raise TypeError)
    /\ ((forall s f, s ∈ sampled -> f ∈ full ->
           references db (name (heap w !!! s)) (heap w !!! f) = false)
        -> r = Ok tt).
Proof.
  intros Hids Hfresh.
  destruct (filter_refused db TypeError full sampled
              {| heap := heap w; next := next w; outfile := outfile w;
                 trace := (trace w ++ [EvFilter])%list |})
    as (r & w' & Hrun & _ & Hft & Hres); simpl.
  { intros f Hf. by destruct (Hfresh f Hf). }
  { intros s f Hs Hf _. right. destruct (Hfresh f Hf) as [-> _].
    split; [apply not_elem_of_nil|]. split; [by apply Hids|done]. }
  exists r, w'. split.
  { rewrite set_sampled_ids_unfold. unfold bind at 1, mark. exact Hrun. }
  split; [exact Hft|]. simpl in Hres. split.
  - intros (s & f & Hs & Hf & Hyes).
    destruct Hres as [[_ Hnone]|[-> _]]; [|done].
    by rewrite (Hnone s f Hs Hf) in Hyes.
  - intros Hnone. destruct Hres as [[-> _]|[_ (s & f & Hs & Hf & Hyes)]]; [done|].
    by rewrite (Hnone s f Hs Hf) in Hyes.
Qed.

Lemma filter_before_sampled_dumps_witness :
  let w := {| heap := {[ 0 := Demo.orders; 1 := Table__init__ "logs" None;
                         2 := Demo.users ]};
              next := 3; outfile := []; trace := [] |} in
  exists r w',
    set_sampled_ids Demo.db [2] [0; 1] w = (r, w')
    /\ (forall x, _foreign_tables (heap w' !!! x) = _foreign_tables (heap w !!! x))
    /\ ((exists s f, s ∈ [2] /\ f ∈ [0; 1]
           /\ references Demo.db (name (heap w !!! s)) (heap w !!! f) = true)
        -> r = Raise TypeError)
    /\ ((forall s f, s ∈ [2] -> f ∈ [0; 1] ->
           references Demo.db (name (heap w !!! s)) (heap w !!! f) = false)
        -> r = Ok tt).
Proof.
  apply (filter_before_sampled_dumps Demo.db [2] [0; 1]
           {| heap := {[ 0 := Demo.orders; 1 := Table__init__ "logs" None;
                         2 := Demo.users ]};
              next := 3; outfile := []; trace := [] |}).
  - intros s Hs. apply list_elem_of_singleton in Hs as ->. reflexivity.
  - intros f Hf. apply elem_of_cons in Hf as [->|Hf].
    + split; [reflexivity|]. eexists. reflexivity.
    + apply list_elem_of_singleton in Hf as ->. split; [reflexivity|].
      eexists. reflexivity.
Defined.

(** X21: the referential filter cannot be run twice.  After a first run
    under the conditions of a complete run (distinct full tables without
    restrictions and with listable columns, sampled tables with distinct
    names and captured ids), a second run raises RuntimeError with the
    message no bueno as soon as a full table has the foreign-key column of a
    sampled table, returns normally only when none has, and changes no
    restriction. *)
Theorem filter_is_not_repeatable (db : Database) (sampled full : list nat) (w : World) :
  NoDup full ->
  NoDup (map (fun s => name (heap w !!! s)) sampled) ->
  (forall s, s ∈ sampled -> is_Some (ids (heap w !!! s))) ->
  (forall f, f ∈ full ->
     _foreign_tables (heap w !!! f) = []
     /\ exists cols, columns_view db (heap w !!! f) = Ok cols) ->
  exists w1 r w2,
    set_sampled_ids db sampled full w = (Ok tt, w1)
    /\ set_sampled_ids db sampled full w1 = (r, w2)
    /\ (forall x, _foreign_tables (heap w2 !!! x) = _foreign_tables (heap w1 !!! x))
    /\ ((exists s f, s ∈ sampled /\ f ∈ full
           /\ references db (name (heap w !!! s)) (heap w !!! f) = true)
        -> r = Raise (RuntimeError "no bueno"))
    /\ ((forall s f, s ∈ sampled -> f ∈ full ->
           references db (name (heap w !!! s)) (heap w !!! f) = false)
        -> r = Ok tt).
Proof.
  intros Hfull Hnames Hids Hfresh.
  set (wm := {| heap := heap w; next := next w; outfile := outfile w;
                trace := (trace w ++ [EvFilter])%list |}).
  destruct (filter_loop db full Hfull sampled wm)
    as (w1 & Hrun1 & Hp1 & _ & _ & Hft1); simpl; try done.
  { intros f Hf. by destruct (Hfresh f Hf). }
  { intros f s Hf _. destruct (Hfresh f Hf) as [-> _]. apply not_elem_of_nil. }
  assert (forall s x, references db (name (heap w1 !!! s)) (heap w1 !!! x)
                      = references db (name (heap w !!! s)) (heap w !!! x)) as Href.
  { intros s x. destruct (Hp1 s) as (-> & _).
    by rewrite (references_preserved db wm w1 _ x Hp1). }
  set (wm1 := {| heap := heap w1; next := next w1; outfile := outfile w1;
                 trace := (trace w1 ++ [EvFilter])%list |}).
  destruct (filter_refused db (RuntimeError "no bueno") full sampled wm1)
    as (r & w2 & Hrun2 & _ & Hft2 & Hres); simpl.
  { intros f Hf. destruct (Hfresh f Hf) as [_ [cols Hv]]. exists cols.
    by destruct (Hp1 f) as (_ & _ & _ & ->). }
  { intros s f Hs Hf Hyes. left. split; [|done].
    rewrite Href in Hyes. unfold references in Hyes.
    destruct (Hfresh f Hf) as [Hnil [cols Hv]]. rewrite Hv in Hyes.
    destruct (decide (name (heap w1 !!! s) ∈ (_foreign_tables (heap w1 !!! f)).*1))
      as [|Hn]; [done|exfalso].
    apply dict_get_None in Hn. rewrite (Hft1 f Hf) in Hn. simpl in Hn.
    rewrite Hnil in Hn. simpl in Hn. destruct (Hp1 s) as (Hname & _).
    rewrite Hname in Hn.
    rewrite (dict_get_attachments db wm sampled _ cols s Hnames Hs Hv) in Hn.
    simpl in Hn. by rewrite Hyes in Hn. }
  exists w1, r, w2. split.
  { rewrite set_sampled_ids_unfold. unfold bind at 1, mark. exact Hrun1. }
  split.
  { rewrite set_sampled_ids_unfold. unfold bind at 1, mark. exact Hrun2. }
  split; [exact Hft2|]. simpl in Hres. split.
  - intros (s & f & Hs & Hf & Hyes).
    destruct Hres as [[_ Hnone]|[-> _]]; [|done].
    specialize (Hnone s f Hs Hf). rewrite Href in Hnone. by rewrite Hnone in Hyes.
  - intros Hnone. destruct Hres as [[-> _]|[_ (s & f & Hs & Hf & Hyes)]]; [done|].
    rewrite Href in Hyes. by rewrite (Hnone s f Hs Hf) in Hyes.
Qed.

Lemma filter_is_not_repeatable_witness :
  exists w1 r w2,
    set_sampled_ids Demo.db [2] [0; 1] DemoFilter.w = (Ok tt, w1)
    /\ set_sampled_ids Demo.db [2] [0; 1] w1 = (r, w2)
    /\ (forall x, _foreign_tables (heap w2 !!! x) = _foreign_tables (heap w1 !!! x))
    /\ ((exists s f, s ∈ [2] /\ f ∈ [0; 1]
           /\ references Demo.db (name (heap DemoFilter.w !!! s))
                         (heap DemoFilter.w !!! f) = true)
        -> r = Raise (RuntimeError "no bueno"))
    /\ ((forall s f, s ∈ [2] -> f ∈ [0; 1] ->
           references Demo.db (name (heap DemoFilter.w !!! s))
                      (heap DemoFilter.w !!! f) = false)
        -> r = Ok tt).
Proof.
  apply (filter_is_not_repeatable Demo.db [2] [0; 1] DemoFilter.w).
  - apply (bool_decide_unpack _). vm_compute. exact I.
  - apply (bool_decide_unpack _). vm_compute. exact I.
  - intros s Hs. apply list_elem_of_singleton in Hs as ->. by eexists.
  - intros f Hf. apply elem_of_cons in Hf as [->|Hf].
    + split; [reflexivity|]. eexists. reflexivity.
    + apply list_elem_of_singleton in Hf as ->. split; [reflexivity|].
      eexists. reflexivity.
Defined.

(** ** Restrictions and the sampled dump *)

Lemma poke_poke_comm (self : nat) (f g : Table -> Table) (w : World) :
  (forall t, f (g t) = g (f t)) ->
  poke self f (poke self g w) = poke self g (poke self f w).
Proof.
  intros Hfg. unfold poke. simpl. f_equal.
  by rewrite !lookup_total_insert_eq, !insert_insert_eq, Hfg.
Qed.

Lemma blind_bind {A B} (self : nat) (g : Table -> Table) (m : M A) (k : A -> M B)
    (w : World) :
  blind self g m w ->
  (forall a w1, m w = (Ok a, w1) -> blind self g (k a) w1) ->
  blind self g (bind m k) w.
Proof.
  unfold blind, bind. intros Hm Hk. rewrite Hm.
  destruct (m w) as [[a|e] w1] eqn:Hrun; simpl; [|done]. by apply Hk.
Qed.

Lemma blind_getT_bind {B} (self : nat) (g : Table -> Table) (k : Table -> M B)
    (w : World) :
  k (g (heap w !!! self)) (poke self g w) = k (heap w !!! self) (poke self g w) ->
  blind self g (k (heap w !!! self)) w ->
  blind self g (bind (getT self) k) w.
Proof.
  unfold blind, bind, getT. intros Hk Hb. rewrite poke_self, Hk. exact Hb.
Qed.

Lemma blind_setattr (self : nat) (f g : Table -> Table) (w : World) :
  (forall t, f (g t) = g (f t)) -> blind self g (setattr self f) w.
Proof.
  intros Hfg. unfold blind. rewrite !setattr_run. simpl. f_equal.
  by apply poke_poke_comm.
Qed.

Section Blind.

Variables (db : Database) (self : nat) (d : list (string * list pyvalue)).

Lemma blind_columns (w : World) :
  blind self (set_foreign_tables d) (columns db self) w.
Proof.
  unfold blind. rewrite !columns_run, poke_self. simpl. f_equal.
  destruct (_columns (heap w !!! self)); [done|].
  destruct (columns_of db (name (heap w !!! self))); [|done].
  by apply poke_poke_comm.
Qed.

Lemma blind_ididx (w : World) :
  blind self (set_foreign_tables d) (ididx db self) w.
Proof.
  unfold ididx. apply blind_getT_bind; [done|].
  destruct (_ididx (heap w !!! self)); [done|].
  apply blind_bind; [by apply blind_setattr|]. intros _ w1 _.
  apply blind_bind; [apply blind_columns|]. intros cols w2 _.
  apply blind_bind; [by apply blind_setattr|]. by intros _ w3 _.
Qed.

Lemma blind_insert_rows (rowcount : nat) (rows : list row) :
  forall k acc w,
    blind self (set_foreign_tables d) (insert_rows db self rowcount rows k acc) w.
Proof.
  induction rows as [|r rows IH]; intros k acc w; simpl; [done|].
  apply blind_bind; [apply blind_ididx|]. intros i w1 _.
  apply blind_bind; [done|]. intros v w2 _.
  apply blind_getT_bind.
  { cbv beta.
    by rewrite (mogrify_row_ext (set_foreign_tables d (heap w2 !!! self))
                                (heap w2 !!! self) r) by done. }
  apply blind_bind; [done|]. intros s w3 _.
  apply blind_bind; [done|]. intros _ w4 _.
  apply blind_bind; [done|]. intros _ w5 _. apply IH.
Qed.

Lemma blind_select_and_insert (columns : string) (w : World) :
  blind self (set_foreign_tables d) (_select_and_insert db self columns) w.
Proof.
  unfold _select_and_insert.
  apply blind_bind; [done|]. intros _ w1 _.
  apply blind_getT_bind; [done|].
  apply blind_bind; [done|]. intros _ w2 _.
  apply blind_getT_bind; [done|].
  apply blind_bind.
  { unfold cursor_select, answer. destruct (limit (heap w2 !!! self)); [|done].
    by destruct (rows_of db (name (heap w2 !!! self))). }
  intros rows w3 _.
  apply blind_bind; [apply blind_insert_rows|]. intros out w4 _.
  apply blind_bind; [done|]. by intros _ w5 _.
Qed.

Lemma blind_dump (w : World) (n : nat) :
  limit (heap w !!! self) = Some n ->
  blind self (set_foreign_tables d) (dump db self) w.
Proof.
  intros Hlimit. unfold dump.
  apply blind_bind; [apply blind_columns|]. intros cols w0 Hc.
  assert (limit (heap w0 !!! self) = Some n) as Hlim0.
  { rewrite columns_run in Hc. injection Hc as Hview <-.
    destruct (_columns (heap w !!! self)); [done|].
    destruct (columns_of db (name (heap w !!! self))); [|done].
    by rewrite poke_self. }
  apply blind_getT_bind; [done|]. rewrite Hlim0.
  apply blind_bind; [apply blind_select_and_insert|]. intros out w1 _.
  by apply blind_setattr.
Qed.

End Blind.

(** X22: the restrictions of a table with a row limit have no effect on
    its dump: with any restrictions stored in the object beforehand, the
    dump has the same outcome, writes the same output and captures the same
    ids, and the stored restrictions are still there afterwards.  Only the
    dump of a table without row limit reads them. *)
Theorem sampled_dump_ignores_restrictions (db : Database) (self : nat)
    (d : list (string * list pyvalue)) (w : World) (n : nat) :
  limit (heap w !!! self) = Some n ->
  let plain := dump db self w in
  let restricted := dump db self (poke self (set_foreign_tables d) w) in
  fst restricted = fst plain
  /\ outfile (snd restricted) = outfile (snd plain)
  /\ ids (heap (snd restricted) !!! self) = ids (heap (snd plain) !!! self)
  /\ _foreign_tables (heap (snd restricted) !!! self) = d.
Proof.
  intros Hlimit plain restricted.
  pose proof (blind_dump db self d w n Hlimit) as Hb. unfold blind in Hb.
  unfold restricted, plain. rewrite Hb. cbn [fst snd]. rewrite poke_self.
  by split_and!.
Qed.

Lemma sampled_dump_ignores_restrictions_witness :
  let plain := dump Demo.db 0 (Demo.world_of Demo.users) in
  let restricted :=
    dump Demo.db 0 (poke 0 (set_foreign_tables [("name", [PyInt 7])])
                         (Demo.world_of Demo.users)) in
  fst restricted = fst plain
  /\ outfile (snd restricted) = outfile (snd plain)
  /\ ids (heap (snd restricted) !!! 0) = ids (heap (snd plain) !!! 0)
  /\ _foreign_tables (heap (snd restricted) !!! 0) = [("name", [PyInt 7])].
Proof.
  apply (sampled_dump_ignores_restrictions Demo.db 0 [("name", [PyInt 7])]
           (Demo.world_of Demo.users) 2).
  reflexivity.
Defined.

(** ** When the sampled dump returns, and what a failed dump leaves *)

Lemma insert_rows_returns (db : Database) (self rowcount : nat) (cols : list string)
    (rows : list row) :
  forall (k : nat) (acc : list pyvalue) (w : World),
    _columns (heap w !!! self) = Some cols ->
    (forall r, r ∈ rows ->
       is_Some (r !! ididx_view cols (heap w !!! self))
       /\ exists s, _mogrify_row (heap w !!! self) r = Ok s) ->
    exists out w', insert_rows db self rowcount rows k acc w = (Ok out, w').
Proof.
  induction rows as [|r rows IH]; intros k acc w Hcols Hrows.
  - by exists acc, w.
  - simpl. unfold bind.
    assert (columns_view db (heap w !!! self) = Ok cols) as Hview.
    { unfold columns_view. by rewrite Hcols. }
    destruct (ididx_run db self w cols Hview) as (w1 & Hid & _ & _ & _ & _ & Hself & _).
    specialize (Hself Hcols). rewrite Hid.
    destruct (Hrows r (list_elem_of_here _ _)) as [[v Hv] [s Hs]].
    unfold lift, subscript. rewrite Hv. unfold getT. rewrite Hself.
    rewrite mogrify_row_set_ididx, Hs. unfold write. simpl.
    apply IH; simpl; rewrite Hself; [done|].
    intros r' Hr'. destruct (Hrows r' (list_elem_of_further _ _ _ Hr')) as [Hat Hren].
    split; [exact Hat|]. by rewrite mogrify_row_set_ididx.
Qed.

(** X23: the dump of a table with row limit n returns normally when the
    catalog lists the columns of the table, the table can be read, and every
    one of the rows read has an element at the identifier position and
    renders, with the column types the catalog gave, to a tuple. *)
Theorem dump_sampled_returns (db : Database) (self : nat) (w : World) (n : nat)
    (cols : list string) (all_rows : list row) :
  limit (heap w !!! self) = Some n ->
  columns_view db (heap w !!! self) = Ok cols ->
  rows_of db (name (heap w !!! self)) = Some all_rows ->
  (forall r, r ∈ take n all_rows ->
     is_Some (r !! ididx_view cols (heap w !!! self))
     /\ exists s, _mogrify_row (heap (snd (columns db self w)) !!! self) r = Ok s) ->
  exists w', dump db self w = (Ok tt, w').
Proof.
  intros Hlimit Hview Hrows Hall.
  destruct (columns_ok db self w cols Hview)
    as (w0 & Hc & _ & _ & _ & _ & Hcols & Hname & Hlim & _ & _ & Hidx).
  rewrite Hc in Hall. simpl in Hall.
  unfold dump, bind. rewrite Hc. unfold getT. rewrite Hlim, Hlimit.
  unfold _select_and_insert, bind, mark, getT, write. simpl.
  unfold cursor_select, bind, answer, lift. rewrite Hlim, Hlimit, Hname, Hrows.
  unfold ret at 1.
  match goal with
  | |- context [insert_rows db self ?c ?rs 1 [] ?w2] =>
      destruct (insert_rows_returns db self c cols rs 1 [] w2) as (out & w3 & Hrun)
  end.
  - exact Hcols.
  - simpl. intros r Hr. destruct (Hall r Hr) as [Hat Hren]. split; [|exact Hren].
    unfold ididx_view in *. by rewrite Hidx.
  - rewrite Hrun. unfold ret. rewrite setattr_run. by eexists.
Qed.

Lemma dump_sampled_returns_witness :
  exists w', dump Demo.db 0 (Demo.world_of Demo.users) = (Ok tt, w').
Proof.
  apply (dump_sampled_returns Demo.db 0 (Demo.world_of Demo.users) 2 ["id"; "name"]
           Demo.users_rows).
  - reflexivity.
  - reflexivity.
  - reflexivity.
  - intros r Hr. apply elem_of_cons in Hr as [->|Hr].
    + split; [by eexists|]. eexists. vm_compute. reflexivity.
    + apply list_elem_of_singleton in Hr as ->.
      split; [by eexists|]. eexists. vm_compute. reflexivity.
Defined.


Lemma uncaptured_trans (w1 w2 w3 : World) :
  uncaptured w1 w2 -> uncaptured w2 w3 -> uncaptured w1 w3.
Proof.
  intros H1 H2 x. destruct (H1 x) as [? ?], (H2 x) as [? ?]. split; congruence.
Qed.

Lemma uncaptured_same {A} (m : M A) :
  (forall w, heap (snd (m w)) = heap w) -> keeps uncaptured m.
Proof. intros H w x. by rewrite H. Qed.

Lemma uncaptured_setattr (self : nat) (f : Table -> Table) :
  (forall t, ids (f t) = ids t /\ _foreign_tables (f t) = _foreign_tables t) ->
  keeps uncaptured (setattr self f).
Proof.
  intros Hf w x. rewrite setattr_run. cbn [snd].
  destruct (decide (x = self)) as [->|Hne].
  - rewrite poke_self. apply Hf.
  - by rewrite poke_other.
Qed.

Lemma uncaptured_columns (db : Database) (self : nat) : keeps uncaptured (columns db self).
Proof.
  unfold columns. apply keeps_bind; [apply uncaptured_trans|by apply uncaptured_same|].
  intros t. destruct (_columns t); [by apply uncaptured_same|].
  apply keeps_bind; [apply uncaptured_trans|by apply uncaptured_same|]. intros rows.
  apply keeps_bind; [apply uncaptured_trans|by apply uncaptured_setattr|]. intros _.
  by apply uncaptured_same.
Qed.

Lemma uncaptured_ididx (db : Database) (self : nat) : keeps uncaptured (ididx db self).
Proof.
  unfold ididx. apply keeps_bind; [apply uncaptured_trans|by apply uncaptured_same|].
  intros t. destruct (_ididx t); [by apply uncaptured_same|].
  apply keeps_bind; [apply uncaptured_trans|by apply uncaptured_setattr|]. intros _.
  apply keeps_bind; [apply uncaptured_trans|apply uncaptured_columns|]. intros cols.
  apply keeps_bind; [apply uncaptured_trans|by apply uncaptured_setattr|]. intros _.
  by apply uncaptured_same.
Qed.

Lemma uncaptured_insert_rows (db : Database) (self rowcount : nat) (rows : list row) :
  forall k acc, keeps uncaptured (insert_rows db self rowcount rows k acc).
Proof.
  induction rows as [|r rows IH]; intros k acc; simpl; [by apply uncaptured_same|].
  apply keeps_bind; [apply uncaptured_trans|apply uncaptured_ididx|]. intros i.
  apply keeps_bind; [apply uncaptured_trans|by apply uncaptured_same|]. intros v.
  apply keeps_bind; [apply uncaptured_trans|by apply uncaptured_same|]. intros t.
  apply keeps_bind; [apply uncaptured_trans|by apply uncaptured_same|]. intros s.
  apply keeps_bind; [apply uncaptured_trans|by apply uncaptured_same|]. intros _.
  apply keeps_bind; [apply uncaptured_trans|by apply uncaptured_same|]. intros _.
  apply IH.
Qed.

Lemma uncaptured_select_and_insert (db : Database) (self : nat) (columns : string) :
  keeps uncaptured (_select_and_insert db self columns).
Proof.
  unfold _select_and_insert.
  apply keeps_bind; [apply uncaptured_trans|by apply uncaptured_same|]. intros _.
  apply keeps_bind; [apply uncaptured_trans|by apply uncaptured_same|]. intros t1.
  apply keeps_bind; [apply uncaptured_trans|by apply uncaptured_same|]. intros _.
  apply keeps_bind; [apply uncaptured_trans|by apply uncaptured_same|]. intros t2.
  apply keeps_bind; [apply uncaptured_trans| |].
  { unfold cursor_select, answer. destruct (limit t2); [|by apply uncaptured_same].
    apply keeps_bind; [apply uncaptured_trans|by apply uncaptured_same|]. intros rows.
    by apply uncaptured_same. }
  intros rows.
  apply keeps_bind; [apply uncaptured_trans|apply uncaptured_insert_rows|]. intros out.
  apply keeps_bind; [apply uncaptured_trans|by apply uncaptured_same|]. intros _.
  by apply uncaptured_same.
Qed.

Lemma uncaptured_copy (db : Database) (self : nat) (columns : string) :
  keeps uncaptured (_copy db self columns).
Proof.
  unfold _copy, answer.
  apply keeps_bind; [apply uncaptured_trans|by apply uncaptured_same|]. intros _.
  apply keeps_bind; [apply uncaptured_trans|by apply uncaptured_same|]. intros t1.
  apply keeps_bind; [apply uncaptured_trans|by apply uncaptured_same|]. intros _.
  apply keeps_bind; [apply uncaptured_trans|by apply uncaptured_same|]. intros t2.
  apply keeps_bind; [apply uncaptured_trans|by apply uncaptured_same|]. intros payload.
  apply keeps_bind; [apply uncaptured_trans|by apply uncaptured_same|]. intros _.
  by apply uncaptured_same.
Qed.

(** X24: a dump that raises has captured nothing: the ids are assigned
    only after the loop over the rows has finished, so whatever the
    exception and however many tuples were already written, the ids and the
    restrictions of every object are as they were before the dump. *)
Theorem failed_dump_captures_nothing (db : Database) (self : nat) (w w' : World)
    (e : exn) :
  dump db self w = (Raise e, w') -> uncaptured w w'.
Proof.
  unfold dump, bind. intros Hrun.
  pose proof (uncaptured_columns db self w) as Hc.
  destruct (columns db self w) as [[cols|e0] w0]; simpl in Hc;
    [|by injection Hrun as _ <-].
  unfold getT in Hrun. apply (uncaptured_trans _ _ _ Hc).
  destruct (limit (heap w0 !!! self)).
  - pose proof (uncaptured_select_and_insert db self
                  (join "," (map (fun c => dq +:+ c +:+ dq) cols)) w0) as Hs.
    destruct (_select_and_insert db self _ w0) as [[out|e1] w1]; simpl in Hs.
    + by rewrite setattr_run in Hrun.
    + by injection Hrun as _ <-.
  - pose proof (uncaptured_copy db self
                  (join "," (map (fun c => dq +:+ c +:+ dq) cols)) w0) as Hs.
    by rewrite Hrun in Hs.
Qed.

Lemma failed_dump_captures_nothing_witness :
  uncaptured (Demo.world_of Demo.logs) (snd (dump Demo.db 0 (Demo.world_of Demo.logs))).
Proof.
  apply (failed_dump_captures_nothing Demo.db 0 (Demo.world_of Demo.logs)
           (snd (dump Demo.db 0 (Demo.world_of Demo.logs))) IndexError).
  vm_compute. reflexivity.
Defined.

(** ** The output of a run *)

(** *** The output is only appended to *)

Lemma appends_refl (w : World) : appends w w.
Proof. exists []. by rewrite app_nil_r. Qed.

Lemma appends_trans (w1 w2 w3 : World) : appends w1 w2 -> appends w2 w3 -> appends w1 w3.
Proof. intros [p Hp] [q Hq]. exists (p ++ q)%list. by rewrite Hq, Hp, <- app_assoc. Qed.

Lemma appends_quiet {A} (m : M A) : quiet m -> keeps appends m.
Proof. intros Hq w. exists []. by rewrite Hq, app_nil_r. Qed.

Lemma appends_write (s : string) : keeps appends (write s).
Proof. intros w. by exists [s]. Qed.

Lemma appends_bind {A B} (m : M A) (k : A -> M B) :
  keeps appends m -> (forall a, keeps appends (k a)) -> keeps appends (bind m k).
Proof. apply keeps_bind, appends_trans. Qed.

Lemma appends_for_each {A} (l : list A) (body : A -> M unit) :
  (forall a, a ∈ l -> keeps appends (body a)) -> keeps appends (for_each l body).
Proof. apply keeps_for_each; [apply appends_refl|apply appends_trans]. Qed.

Ltac appends :=
  repeat first
    [ apply appends_write
    | apply appends_quiet;
      first [ apply quiet_ret | apply quiet_raise | apply quiet_lift | apply quiet_getT
            | apply quiet_setattr | apply quiet_mark | apply quiet_columns
            | apply quiet_foreign_key_constraints ]
    | apply appends_bind; [|intros ?]
    | apply appends_for_each; intros ? ? ].






(** *** Caches that agree with the catalog *)








(** *** The steps of a run that returns *)








(** *** The filter, when it returns *)









(** *** Composing the steps *)







(** *** The phases *)

Section Phases.

Variables (db : Database) (K : nat -> string * option nat).
Variables (tables sampled full : list nat).

Lemma stage0_uncaptured (w w' : World) :
  uncaptured w w' -> kinds K w' -> coherent db tables w' ->
  stage0 db K tables w -> stage0 db K tables w'.
Proof.
  intros Hu HK Hc (_ & _ & Hft). split; [done|]. split; [done|].
  intros x Hx. destruct (Hu x) as [_ ->]. by apply Hft.
Qed.

Lemma stage1_uncaptured (D : list nat) (w w' : World) :
  uncaptured w w' -> kinds K w' -> coherent db tables w' ->
  stage1 db K tables D w -> stage1 db K tables D w'.
Proof.
  intros Hu HK Hc (H0 & Hids). split; [by apply (stage0_uncaptured w)|].
  intros s Hs. destruct (Hu s) as [-> _]. by apply Hids.
Qed.








End Phases.

(** *** The orchestrator, end to end *)






(** the blocks of the run on the demonstration database: orders at 0 and
    logs at 1 are full, users at 2 is sampled and referenced by orders *)
Example main_demo_blocks :
  let K := kind (snd (main Demo.db (fun l => l) Demo.cfg init_world)) in
  expected Demo.db K [2] (EvDropFks 0) =
    Some ["ALTER TABLE ONLY public." +:+ dq +:+ "orders" +:+ dq
            +:+ " DROP CONSTRAINT IF EXISTS orders_users_fk;" +:+ nl; nl]
  /\ expected Demo.db K [2] (EvInsert 2) =
       Some [insert_header "users" (column_list ["id"; "name"]);
             "(1,a)"; "," +:+ nl; "(2,b)"; ";" +:+ nl; nl]
  /\ expected Demo.db K [2] (EvCopy 0) =
       Some [BEGIN_TABLE_DUMP "orders" (column_list ["id"; "users_id"]);
             "-- rows of: COPY (SELECT " +:+ column_list ["id"; "users_id"]
               +:+ " FROM public." +:+ dq +:+ "orders" +:+ dq
               +:+ " WHERE users_id in (1, 2)) TO STDOUT" +:+ nl;
             END_TABLE_DUMP]
  /\ expected Demo.db K [2] (EvCopy 1) =
       Some [BEGIN_TABLE_DUMP "logs" (column_list ["at"; "msg"]);
             "-- rows of: COPY (SELECT " +:+ column_list ["at"; "msg"]
               +:+ " FROM public." +:+ dq +:+ "logs" +:+ dq +:+ " ) TO STDOUT" +:+ nl;
             END_TABLE_DUMP]
  /\ expected Demo.db K [2] (EvCreateFks 0) =
       Some ["ALTER TABLE ONLY public." +:+ dq +:+ "orders" +:+ dq
               +:+ " ADD CONSTRAINT orders_users_fk FOREIGN KEY (users_id) REFERENCES users(id);"
               +:+ nl; nl].
Proof. vm_compute. repeat split. Qed.
